(** * DSY Core: generation routing and multi-provider orchestration

    A shallow embedding of the services of the DSY Core web-page builder
    ([geminiService.js], [sambaNovaService.js], [hfPreprocessorService.js]
    and [codeGeneratorRouter.js]) together with the properties its
    specification states about them.
    The development also covers the key diagnostics of [geminiService.js],
    [chatbotService.js], [titleGenerator.js], the image helpers and the
    session store of the utilities, and the file tree and tabs of the
    editor context.

    Conventions of the embedding.
    - A JavaScript string is a [string]: a sequence of code units, one
      [ascii] per unit (code units below 256).
    - Module-level mutable state (the set of failed keys) and everything the
      outside world decides (the values of [Math.random()], the answers of
      the remote providers) live in a [world] that every [async] function
      threads through; a JavaScript exception is the outcome [Throw].
    - Regular expressions are kept as syntax trees and run by a
      backtracking matcher that follows the ECMAScript algorithm. *)

From Stdlib Require Import String Ascii ZArith Lia DecimalString DecimalNat.
From Stdlib Require Import Floats.SpecFloat.
From stdpp Require Import base gmap strings list.

Local Open Scope string_scope.
Local Open Scope list_scope.
Local Open Scope nat_scope.

(* ===================================================================== *)
(** ** JavaScript strings *)
(* ===================================================================== *)

Module Js.

(** [WhiteSpace] and [LineTerminator] code units below 256: TAB, LF, VT,
    FF, CR, SPACE and NBSP.  Both [\s] and [String.prototype.trim] use
    this class. *)
Definition isWhiteSpace (c : ascii) : bool :=
  let n := nat_of_ascii c in
  (n =? 9) || (n =? 10) || (n =? 11) || (n =? 12) || (n =? 13)
  || (n =? 32) || (n =? 160).

(** [LineTerminator] code units below 256 (what [.] does not match). *)
Definition isLineTerminator (c : ascii) : bool :=
  let n := nat_of_ascii c in (n =? 10) || (n =? 13).

Definition isDigit (c : ascii) : bool :=
  let n := nat_of_ascii c in (48 <=? n) && (n <=? 57).

Definition isUpper (c : ascii) : bool :=
  let n := nat_of_ascii c in (65 <=? n) && (n <=? 90).

Definition isLower (c : ascii) : bool :=
  let n := nat_of_ascii c in (97 <=? n) && (n <=? 122).

(** The class [\w]: [A-Za-z0-9_]. *)
Definition isWordChar (c : ascii) : bool :=
  isDigit c || isUpper c || isLower c || (nat_of_ascii c =? 95).

(** Lower-casing of one code unit; only the letters A-Z move. *)
Definition lowerChar (c : ascii) : ascii :=
  if isUpper c then ascii_of_nat (nat_of_ascii c + 32) else c.

Fixpoint toLowerCase (s : string) : string :=
  match s with
  | EmptyString => EmptyString
  | String c s' => String (lowerChar c) (toLowerCase s')
  end.

Definition ascii_eqb (a b : ascii) : bool := Ascii.eqb a b.

(** [s.startsWith(p)]. *)
Fixpoint startsWith (p s : string) : bool :=
  match p, s with
  | EmptyString, _ => true
  | String a p', String b s' => ascii_eqb a b && startsWith p' s'
  | String _ _, EmptyString => false
  end.

(** [s.indexOf(p)]: the least position at which [p] occurs. *)
Fixpoint indexOf (p s : string) : option nat :=
  if startsWith p s then Some 0
  else match s with
       | EmptyString => None
       | String _ s' => S <$> indexOf p s'
       end.

(** [s.includes(p)]. *)
Definition includes (p s : string) : bool :=
  match indexOf p s with Some _ => true | None => false end.

Fixpoint drop (n : nat) (s : string) : string :=
  match n, s with
  | 0, _ => s
  | S n', String _ s' => drop n' s'
  | S _, EmptyString => EmptyString
  end.

Fixpoint take (n : nat) (s : string) : string :=
  match n, s with
  | 0, _ => EmptyString
  | S n', String c s' => String c (take n' s')
  | S _, EmptyString => EmptyString
  end.

(** [s.slice(i, j)] for [0 <= i <= j]. *)
Definition slice (i j : nat) (s : string) : string := take (j - i) (drop i s).

Fixpoint trimStart (s : string) : string :=
  match s with
  | String c s' => if isWhiteSpace c then trimStart s' else s
  | EmptyString => EmptyString
  end.

(** [trimEnd] keeps a character when it is not white space or when
    something survives after it. *)
Fixpoint trimEnd (s : string) : string :=
  match s with
  | EmptyString => EmptyString
  | String c s' =>
      match trimEnd s' with
      | EmptyString => if isWhiteSpace c then EmptyString else String c EmptyString
      | t => String c t
      end
  end.

(** [s.trim()]. *)
Definition trim (s : string) : string := trimEnd (trimStart s).

(** The truth value of a string: [!s] holds exactly for the empty one. *)
Definition truthy (s : string) : bool :=
  match s with EmptyString => false | String _ _ => true end.

(** [a || b] on strings. *)
Definition orElse (a b : string) : string := if truthy a then a else b.

(** [GetSubstitution] for a string pattern (no captures): in the
    replacement text [$$] is a dollar sign, [$&] the matched text,
    [$`] what precedes the match and [$'] what follows it; any other
    [$] stands for itself. *)
Fixpoint getSubstitution (matched before after repl : string) : string :=
  match repl with
  | EmptyString => EmptyString
  | String c r =>
      if ascii_eqb c "$" then
        match r with
        | String d r' =>
            if ascii_eqb d "$" then String "$" (getSubstitution matched before after r')
            else if ascii_eqb d "&" then matched +:+ getSubstitution matched before after r'
            else if ascii_eqb d "`" then before +:+ getSubstitution matched before after r'
            else if ascii_eqb d "'" then after +:+ getSubstitution matched before after r'
            else String c (getSubstitution matched before after r)
        | EmptyString => String c EmptyString
        end
      else String c (getSubstitution matched before after r)
  end.

(** [s.replace(p, repl)] with a string pattern: only the first occurrence
    is replaced, and the replacement goes through [getSubstitution]. *)
Definition replace (p repl s : string) : string :=
  match indexOf p s with
  | None => s
  | Some i =>
      let before := take i s in
      let after := drop (i + String.length p) s in
      before +:+ getSubstitution p before after repl +:+ after
  end.

(** [s.split(sep)] for a one-character separator. *)
Fixpoint split (sep : ascii) (s : string) : list string :=
  match s with
  | EmptyString => [EmptyString]
  | String c s' =>
      if ascii_eqb c sep then EmptyString :: split sep s'
      else match split sep s' with
           | x :: xs => String c x :: xs
           | [] => [String c EmptyString]
           end
  end.

(** [xs.join(sep)]. *)
Fixpoint join (sep : string) (xs : list string) : string :=
  match xs with
  | [] => EmptyString
  | [x] => x
  | x :: xs' => x +:+ sep +:+ join sep xs'
  end.

(** Decimal rendering of a number inside a template literal. *)
Definition ofNat (n : nat) : string :=
  match n with
  | 0 => "0"
  | _ => NilEmpty.string_of_uint (Nat.to_uint n)
  end.

(** The line feed character. *)
Definition LF : ascii := ascii_of_nat 10.
Definition nl : string := String LF EmptyString.

End Js.

(* ===================================================================== *)
(** ** Regular expressions *)
(* ===================================================================== *)

Module Regex.

(** The fragment of the pattern language the services use. *)
Inductive regex : Type :=
| Eps                               (* the empty pattern *)
| Chr (p : ascii -> bool)           (* one character of a class *)
| Cat (r1 r2 : regex)               (* r1 r2 *)
| Alt (r1 r2 : regex)               (* r1 | r2, left first *)
| Star (greedy : bool) (r : regex)  (* r* and r*? *)
| Group (n : nat) (r : regex)       (* the n-th capturing group *)
| Bol                               (* ^ without the m flag *)
| Eol.                              (* $ without the m flag *)

(** A position of the matcher: how far it is, what is left, and the
    captures made so far (group, start, end), latest first. *)
Record mstate : Type := MState {
  pos : nat;
  rest : string;
  caps : list (nat * (nat * nat));
}.

Definition orelse {A} (a b : option A) : option A :=
  match a with Some _ => a | None => b end.

(** The loop of a star: [body] matches one iteration and hands over to
    its continuation.  An iteration that consumes nothing is rejected, as
    in [RepeatMatcher]; [fuel] bounds the number of iterations, and one
    per remaining character is enough.  A greedy star tries another
    iteration before it tries to go on, a lazy star the other way round. *)
Definition starLoop (greedy : bool)
    (body : (mstate -> option mstate) -> mstate -> option mstate)
    (k : mstate -> option mstate) : nat -> mstate -> option mstate :=
  fix loop (fuel : nat) (s : mstate) {struct fuel} : option mstate :=
    match fuel with
    | 0 => k s
    | S fuel' =>
        let again :=
          body (fun s' => if pos s' <=? pos s then None else loop fuel' s') s in
        if greedy then orelse again (k s) else orelse (k s) again
    end.

(** The backtracking matcher in continuation-passing style. *)
Fixpoint run (r : regex) (k : mstate -> option mstate) (s : mstate)
  : option mstate :=
  match r with
  | Eps => k s
  | Chr p =>
      match rest s with
      | String c t => if p c then k (MState (S (pos s)) t (caps s)) else None
      | EmptyString => None
      end
  | Cat r1 r2 => run r1 (run r2 k) s
  | Alt r1 r2 => orelse (run r1 k s) (run r2 k s)
  | Star greedy r1 => starLoop greedy (run r1) k (S (String.length (rest s))) s
  | Group n r1 =>
      run r1 (fun s' => k (MState (pos s') (rest s') ((n, (pos s, pos s')) :: caps s'))) s
  | Bol => if pos s =? 0 then k s else None
  | Eol => match rest s with EmptyString => k s | String _ _ => None end
  end.

(** A successful match: where it starts and ends, and its captures. *)
Record result : Type := Result {
  index : nat;
  stop : nat;
  captures : list (nat * (nat * nat));
}.

(** The match anchored at position [i] of [input]. *)
Definition matchAt (r : regex) (input : string) (i : nat) : option result :=
  match run r Some (MState i (Js.drop i input) []) with
  | Some s => Some (Result i (pos s) (caps s))
  | None => None
  end.

(** The leftmost match starting at [i] or later; [n] bounds the number
    of start positions still to try. *)
Fixpoint searchFrom (r : regex) (input : string) (n i : nat) : option result :=
  match matchAt r input i with
  | Some m => Some m
  | None => match n with
            | 0 => None
            | S n' => searchFrom r input n' (S i)
            end
  end.

(** [RegExp.prototype.exec] with [lastIndex = i]. *)
Definition exec (r : regex) (input : string) (i : nat) : option result :=
  if String.length input <? i then None
  else searchFrom r input (String.length input - i) i.

(** The text of the whole match, [m[0]]. *)
Definition matched (input : string) (m : result) : string :=
  Js.slice (index m) (stop m) input.

(** The text of group [n], [m[n]]; [None] is [undefined] (the group
    took no part in the match). *)
Definition group (input : string) (m : result) (n : nat) : option string :=
  match List.find (fun c => fst c =? n) (captures m) with
  | Some (_, (a, b)) => Some (Js.slice a b input)
  | None => None
  end.

(** All matches of a [g] pattern from [i] on, as [exec] in a loop,
    [matchAll] and a global [replace] enumerate them: after an empty
    match the search resumes one character further. *)
Fixpoint allFrom (r : regex) (input : string) (fuel i : nat) : list result :=
  match fuel with
  | 0 => []
  | S fuel' =>
      match exec r input i with
      | None => []
      | Some m =>
          m :: allFrom r input fuel' (if stop m =? index m then S (stop m) else stop m)
      end
  end.

Definition matchAll (r : regex) (input : string) : list result :=
  allFrom r input (S (String.length input)) 0.

(** [input.replace(r, '')] for a [g] pattern: every match is cut out. *)
Fixpoint cut (input : string) (ms : list result) (from : nat) : string :=
  match ms with
  | [] => Js.drop from input
  | m :: ms' => Js.slice from (index m) input +:+ cut input ms' (stop m)
  end.

Definition removeAll (r : regex) (input : string) : string :=
  cut input (matchAll r input) 0.

(** [r.test(input)]. *)
Definition test (r : regex) (input : string) : bool :=
  match exec r input 0 with Some _ => true | None => false end.

(** *** Building blocks *)

Definition any : regex := Chr (fun _ => true).                 (* [\s\S] *)
Definition dot : regex := Chr (fun c => negb (Js.isLineTerminator c)). (* . *)
Definition ws : regex := Chr Js.isWhiteSpace.                  (* \s *)
Definition word : regex := Chr Js.isWordChar.                  (* \w *)
Definition chr (c : ascii) : regex := Chr (Js.ascii_eqb c).
Definition chrI (c : ascii) : regex :=
  Chr (fun x => Js.ascii_eqb (Js.lowerChar x) (Js.lowerChar c)).
Definition notChr (c : ascii) : regex := Chr (fun x => negb (Js.ascii_eqb c x)).
Definition opt (r : regex) : regex := Alt r Eps.               (* r? *)
Definition plus (r : regex) : regex := Cat r (Star true r).    (* r+ *)

(** A literal, case-sensitive and under the [i] flag. *)
Fixpoint lit (s : string) : regex :=
  match s with
  | EmptyString => Eps
  | String c s' => Cat (chr c) (lit s')
  end.

Fixpoint litI (s : string) : regex :=
  match s with
  | EmptyString => Eps
  | String c s' => Cat (chrI c) (litI s')
  end.

(** Concatenation of a list of patterns. *)
Fixpoint seq (rs : list regex) : regex :=
  match rs with
  | [] => Eps
  | [r] => r
  | r :: rs' => Cat r (seq rs')
  end.

End Regex.

(* ===================================================================== *)
(** ** JSON values *)
(* ===================================================================== *)

#[local] Set Warnings "-register-all".

(** What [JSON.parse] and [response.json()] produce.  Numbers are IEEE
    doubles; objects keep their properties in insertion order. *)
Inductive json : Type :=
| JNull
| JBool (b : bool)
| JNum (x : spec_float)
| JStr (s : string)
| JArr (items : list json)
| JObj (props : list (string * json)).

Module Json.

(** [ToBoolean]. *)
Definition truthy (v : json) : bool :=
  match v with
  | JNull => false
  | JBool b => b
  | JNum (S754_zero _) => false
  | JNum S754_nan => false
  | JNum _ => true
  | JStr s => Js.truthy s
  | JArr _ => true
  | JObj _ => true
  end.

(** Lookup of an own property in a property list. *)
Fixpoint lookup (k : string) (props : list (string * json)) : option json :=
  match props with
  | [] => None
  | (k', v) :: ps => if String.eqb k k' then Some v else lookup k ps
  end.

(** [v.k] for a parsed value that is not [null]: only objects carry
    properties with such names; [None] is [undefined]. *)
Definition get (k : string) (v : json) : option json :=
  match v with
  | JObj props => lookup k props
  | _ => None
  end.

(** [v?.k] on a possibly undefined value. *)
Definition getOpt (k : string) (v : option json) : option json :=
  match v with
  | Some JNull => None
  | Some v' => get k v'
  | None => None
  end.

(** The truth value of a possibly undefined value. *)
Definition truthyOpt (v : option json) : bool :=
  match v with Some v' => truthy v' | None => false end.

(** [v || d]. *)
Definition orElse (v : option json) (d : json) : json :=
  match v with
  | Some v' => if truthy v' then v' else d
  | None => d
  end.

(** [v ?? d]. *)
Definition coalesce (v : option json) (d : json) : json :=
  match v with
  | Some JNull => d
  | Some v' => v'
  | None => d
  end.

End Json.

(* ===================================================================== *)
(** ** The world the services run in *)
(* ===================================================================== *)

(** A value of [Math.random()], a number in [[0, 1)]: the fraction
    [num / (num + gap + 1)]. *)
Record draw : Type := Draw { num : nat; gap : nat }.

(** [Math.floor(d * n)]. *)
Definition floorMul (d : draw) (n : nat) : nat :=
  (num d * n) / (num d + gap d + 1).

(** What [response.json()] gives, as far as the services look at it. *)
Inductive payload : Type :=
| Missing                     (* the optional chain ends in undefined *)
| Malformed (message : string) (* reading the field throws a TypeError *)
| Text (s : string).

Inductive body : Type :=
| NotJson (message : string)  (* response.json() rejects *)
| Json (error_message : option string) (content : payload).

(** The outcome of one [fetch]. *)
Inductive response : Type :=
| NetworkFailure (message : string)   (* fetch itself rejects *)
| Http (status : nat) (b : body).

(** [response.ok]. *)
Definition ok (status : nat) : bool := (200 <=? status) && (status <=? 299).

(** Calls the services make to one another and to the providers, with
    the providers' answers, recorded in call order. *)
Inductive event : Type :=
| CalledGenerateWebPageWithImages   (* geminiService, vision pipeline *)
| CalledGenerateWebPage             (* sambaNovaService, flat *)
| CalledGenerateReactApp            (* sambaNovaService, multi-file *)
| CalledPreprocessImage (data : string)
| FetchedGemini (key : string) (answer : response)
| FetchedSambaNova (answer : response).

(** A generated source file. *)
Record file : Type := File {
  name : string;
  content : string;
  language : string;
}.

(** The objects the generation entry points resolve to.  They are plain
    JavaScript objects whose set of properties depends on the path taken;
    a property that is not set is [None].  (The [usage] statistics some of
    them copy from the provider's answer are left out.) *)
Module Generation.
Record t : Type := Build {
  success : bool;
  error : option string;
  html : option string;
  css : option string;
  files : option (list file);
  rawContent : option string;
  usedImages : option nat;
  usedJSON : option bool;
  model : option string;
  pipeline : option string;
  framework : option string;
  usedHF : option bool;
  geminiCalls : option nat;
  fallback : option bool;
}.

(** [{ success: false, error, html: '', css: '', rawContent: '' }] *)
Definition failed (message : string) : t :=
  Build false (Some message) (Some "") (Some "") None (Some "")
        None None None None None None None None.

(** [{ ...r, pipeline, framework }] *)
Definition routed (r : t) (p fw : string) : t :=
  Build (success r) (error r) (html r) (css r) (files r) (rawContent r)
        (usedImages r) (usedJSON r) (model r) (Some p) (Some fw)
        (usedHF r) (geminiCalls r) (fallback r).

(** [{ ...r, usedHF }] *)
Definition withUsedHF (r : t) (b : bool) : t :=
  Build (success r) (error r) (html r) (css r) (files r) (rawContent r)
        (usedImages r) (usedJSON r) (model r) (pipeline r) (framework r)
        (Some b) (geminiCalls r) (fallback r).

(** [r.html.length], with an absent property counting as empty. *)
Definition htmlLength (r : t) : nat :=
  match html r with Some h => String.length h | None => 0 end.
Definition cssLength (r : t) : nat :=
  match css r with Some c => String.length c | None => 0 end.
End Generation.

Abbreviation generation := Generation.t.

(** How a call ends: with a value, or with an exception carrying the
    message of the thrown [Error]. *)
Inductive outcome (A : Type) : Type :=
| Return (a : A)
| Throw (message : string).
Arguments Return {A} a.
Arguments Throw {A} message.

(** Everything outside the code: configuration and remote behaviour, and
    the two functions of [sambaNovaService.js] that the router imports but
    whose source is not at hand. *)
Record environment : Type := Environment {
  VITE_GEMINI_API_KEYS : string;
  VITE_SAMBANOVA_API_KEY : string;
  random : nat -> draw;                        (* the n-th Math.random() *)
  gemini : nat -> string -> response;          (* the n-th Gemini fetch, by key *)
  sambaNova : nat -> response;                 (* the n-th SambaNova fetch *)
  huggingFace : nat -> string -> outcome (list (string * json));
                                               (* the n-th Space call *)
  JSON_parse : string -> option json;          (* None: SyntaxError *)
  parseReactOutput : string -> list file;      (* the file-marker parser *)
  reactApp : string -> outcome generation;     (* see [SambaNova.generateReactApp] *)
}.

(** The mutable state: the module-level [failedKeys] set, how many times
    each outside source has been consulted, and the call record. *)
Record world : Type := World {
  failedKeys : gset string;
  randomsDrawn : nat;
  geminiFetches : nat;
  sambaNovaFetches : nat;
  spaceCalls : nat;
  calls : list event;
}.

Definition initialWorld : world := World ∅ 0 0 0 0 [].

Definition M (A : Type) : Type := world -> outcome A * world.

Definition ret {A} (a : A) : M A := fun w => (Return a, w).
Definition throw {A} (message : string) : M A := fun w => (Throw message, w).
Definition bind {A B} (c : M A) (k : A -> M B) : M B :=
  fun w => match c w with
           | (Return a, w') => k a w'
           | (Throw e, w') => (Throw e, w')
           end.
(** [try { c } catch (error) { h(error.message) }]. *)
Definition tryCatch {A} (c : M A) (h : string -> M A) : M A :=
  fun w => match c w with
           | (Return a, w') => (Return a, w')
           | (Throw e, w') => h e w'
           end.

Notation "'let!' x ':=' c 'in' k" := (bind c (fun x => k))
  (at level 10, x pattern, c at level 200, k at level 200).

Definition record (e : event) : M unit :=
  fun w => (Return tt,
            World (failedKeys w) (randomsDrawn w) (geminiFetches w) (sambaNovaFetches w)
                  (spaceCalls w) (calls w ++ [e])).

(** [Math.random()]. *)
Definition mathRandom (E : environment) : M draw :=
  fun w => (Return (random E (randomsDrawn w)),
            World (failedKeys w) (S (randomsDrawn w)) (geminiFetches w) (sambaNovaFetches w)
                  (spaceCalls w) (calls w)).

(** Whether a call returned. *)
Definition returned {A} (r : outcome A * world) : bool :=
  match fst r with Return _ => true | Throw _ => false end.

(* ===================================================================== *)
(** ** geminiService.js: the credential pool *)
(* ===================================================================== *)

(** [GEMINI_API_KEYS_RAW.split(',').map(k => k.trim()).filter(k => k.length > 0)] *)
Definition loadKeys (raw : string) : list string :=
  List.filter (fun k => 0 <? String.length k) (List.map Js.trim (Js.split "," raw)).

Definition GEMINI_API_KEYS (E : environment) : list string :=
  loadKeys (VITE_GEMINI_API_KEYS E).

(** [k !== excludeKey], where [None] is the default [null]. *)
Definition differs (k : string) (excludeKey : option string) : bool :=
  match excludeKey with
  | Some x => negb (String.eqb k x)
  | None => true
  end.

Module Pool.
Section Pool.

(** The key list is a module constant; the selection is written over
    an arbitrary list. *)
Variable keys : list string.
Variable E : environment.

(** [failedKeys.clear()]. *)
Definition clearFailed : M unit :=
  fun w => (Return tt,
            World ∅ (randomsDrawn w) (geminiFetches w) (sambaNovaFetches w)
                  (spaceCalls w) (calls w)).

(** [failedKeys.add(key)]. *)
Definition markKeyFailed (key : string) : M unit :=
  fun w => (Return tt,
            World ({[key]} ∪ failedKeys w) (randomsDrawn w) (geminiFetches w)
                  (sambaNovaFetches w) (spaceCalls w) (calls w)).

(** [arr[Math.floor(Math.random() * arr.length)]]. *)
Definition pickRandom (arr : list string) : M (option string) :=
  let! d := mathRandom E in
  ret (arr !! floorMul d (length arr)).

Definition getRandomKey (excludeKey : option string) : M (option string) :=
  fun w =>
    if length keys =? 0 then ret None w
    else
      let availableKeys :=
        List.filter (fun k => negb (bool_decide (k ∈ failedKeys w)) && differs k excludeKey)
                    keys in
      if length availableKeys =? 0 then
        (let! _ := clearFailed in
         let resetKeys := List.filter (fun k => differs k excludeKey) keys in
         if length resetKeys =? 0 then ret (keys !! 0)
         else pickRandom resetKeys) w
      else pickRandom availableKeys w.

End Pool.
End Pool.

(* ===================================================================== *)
(** ** geminiService.js: prompt optimisation and page generation *)
(* ===================================================================== *)

(** An attached asset, as far as the services read it: [a.type] and the
    optional [a.data]. *)
Record asset : Type := Asset {
  type : string;
  data : option string;
}.

Definition isImage (a : asset) : bool := String.eqb (type a) "image".

(** Loop control of a [for] body: [continue], or [return r]. *)
Inductive step (S R : Type) : Type :=
| Continue (s : S)
| Finish (r : R).
Arguments Continue {S R} s.
Arguments Finish {S R} r.

(** [errorData.error?.message || `API request failed with status ${status}`],
    where [errorData] is [{}] when the body is not JSON. *)
Definition errorMessage (status : nat) (b : body) : string :=
  let fallback := "API request failed with status " +:+ Js.ofNat status in
  match b with
  | Json (Some m) _ => Js.orElse m fallback
  | _ => fallback
  end.

(** [x?.[0]?....?.text || ''] and [choices[0]?.message?.content || '']. *)
Definition textOf (c : payload) : string :=
  match c with
  | Text s => s
  | _ => ""
  end.

Module Gemini.

Import Regex.

(** [await fetch(`${GEMINI_API_URL}:generateContent?key=${key}`, ...)].
    The request body takes no part in what the caller does with the
    answer, so the answer is looked up by call number and key. *)
Definition fetch (E : environment) (key : string) : M response :=
  fun w => let answer := gemini E (geminiFetches w) key in
           (Return answer,
            World (failedKeys w) (randomsDrawn w) (S (geminiFetches w)) (sambaNovaFetches w)
                  (spaceCalls w) (calls w ++ [FetchedGemini key answer])).

Definition getRandomKey (E : environment) : option string -> M (option string) :=
  Pool.getRandomKey (GEMINI_API_KEYS E) E.

Definition markKeyFailed : string -> M unit := Pool.markKeyFailed.

Definition resetFailedKeys : M unit := Pool.clearFailed.

(** The part of an attempt both entry points share: the [fetch], the 429
    test, the [response.ok] test and the reading of the body.  [None]
    stands for the rate-limited case, in which the key has been marked
    failed and the loop continues; any failure on the way is thrown. *)
Definition request (E : environment) (currentKey : string) : M (option string) :=
  let! response := fetch E currentKey in
  match response with
  | NetworkFailure message => throw message
  | Http status b =>
      if status =? 429 then
        let! _ := markKeyFailed currentKey in ret None
      else if negb (ok status) then throw (errorMessage status b)
      else match b with
           | NotJson message => throw message
           | Json _ (Malformed message) => throw message
           | Json _ content => ret (Some (textOf content))
           end
  end.

(** [/---TEXT---\s*([\s\S]*?)(?:---JSON---|$)/i] *)
Definition textSection : regex :=
  seq [litI "---TEXT---"; Star true ws; Group 1 (Star false any);
       Alt (litI "---JSON---") Eol].

(** [/---JSON---\s*([\s\S]*?)$/i] *)
Definition jsonSection : regex :=
  seq [litI "---JSON---"; Star true ws; Group 1 (Star false any); Eol].

(** [/```json?\s*/gi] *)
Definition openingFence : regex :=
  seq [litI "```jso"; opt (chrI "n"); Star true ws].

(** [/```\s*$/g] *)
Definition closingFence : regex :=
  seq [lit "```"; Star true ws; Eol].

(** [/\{[\s\S]*"layout"[\s\S]*\}/] *)
Definition layoutObject : regex :=
  seq [chr "{"; Star true any;
       chr (ascii_of_nat 34); lit "layout"; chr (ascii_of_nat 34);
       Star true any; chr "}"].

(** [m && m[1]]: the first group of the first match, when not empty. *)
Definition firstGroup (r : regex) (input : string) : option string :=
  match exec r input 0 with
  | Some m =>
      match group input m 1 with
      | Some g => if Js.truthy g then Some g else None
      | None => None
      end
  | None => None
  end.

Definition parseOptimizationOutput (E : environment) (rawOutput : string)
  : string * option json :=
  let displayText :=
    match firstGroup textSection rawOutput with
    | Some t => Js.trim t
    | None => rawOutput
    end in
  let designJSON :=
    match firstGroup jsonSection rawOutput with
    | Some j =>
        let jsonStr := Js.trim j in
        let jsonStr := Js.trim (removeAll closingFence (removeAll openingFence jsonStr)) in
        match JSON_parse E jsonStr with
        | Some v => Some v
        | None =>
            match exec layoutObject rawOutput 0 with
            | Some m => JSON_parse E (matched rawOutput m)
            | None => None
            end
        end
    | None => None
    end in
  (displayText, designJSON).

(** The object [optimizePrompt] resolves to. *)
Record optimizeResult : Type := OptimizeResult {
  success : bool;
  error : option string;
  optimizedPrompt : string;
  designJSON : option json;       (* None: null *)
  originalPrompt : string;
  imagesAnalyzed : option nat;
  rawOutput : string;
}.

(** The variables the retry loop of [optimizePrompt] assigns. *)
Record attempts : Type := Attempts {
  lastError : option string;
  lastDisplayText : string;
  lastRawOutput : string;
}.

(** [!designJSON.layout || !designJSON.colors] *)
Definition missingRequiredFields (v : json) : bool :=
  negb (Json.truthyOpt (Json.get "layout" v)) || negb (Json.truthyOpt (Json.get "colors" v)).

(** The [try] block of one optimisation attempt with its [catch].  The
    block assigns its variables only after the last point at which it can
    throw, so the handler sees the variables as they were on entry. *)
Definition optimizeAttempt (E : environment) (userPrompt : string) (images : nat)
    (currentKey : string) (st : attempts) : M (step attempts optimizeResult) :=
  tryCatch
    (let! answer := request E currentKey in
     match answer with
     | None => ret (Continue st)
     | Some rawOutput =>
         let '(displayText, designJSON) := parseOptimizationOutput E rawOutput in
         let st' := Attempts (lastError st) displayText rawOutput in
         if negb (Json.truthyOpt designJSON) then ret (Continue st')
         else match designJSON with
              | Some v =>
                  if missingRequiredFields v then ret (Continue st')
                  else ret (Finish (OptimizeResult true None displayText (Some v)
                                      userPrompt (Some images) rawOutput))
              | None => ret (Continue st')
              end
     end)
    (fun message => ret (Continue (Attempts (Some message) (lastDisplayText st)
                                            (lastRawOutput st)))).

(** What [optimizePrompt] returns once the loop is left. *)
Definition optimizeExhausted (userPrompt : string) (st : attempts) : optimizeResult :=
  OptimizeResult false
    (Some "Failed to extract design JSON after multiple attempts. Please try again.")
    (Js.orElse (lastDisplayText st) "") None userPrompt None (lastRawOutput st).

(** [for (let jsonAttempt = 0; jsonAttempt < maxJsonRetries; jsonAttempt++)],
    with [remaining = maxJsonRetries - jsonAttempt]. *)
Fixpoint optimizeLoop (E : environment) (userPrompt : string) (images : nat)
    (apiKey : string) (remaining jsonAttempt : nat) (st : attempts) : M optimizeResult :=
  match remaining with
  | 0 => ret (optimizeExhausted userPrompt st)
  | S remaining' =>
      let! currentKey :=
        (if jsonAttempt =? 0 then ret (Some apiKey) else getRandomKey E (Some apiKey)) in
      match currentKey with
      | Some key =>
          if negb (Js.truthy key) then ret (optimizeExhausted userPrompt st)
          else
            let! s := optimizeAttempt E userPrompt images key st in
            match s with
            | Finish r => ret r
            | Continue st' =>
                optimizeLoop E userPrompt images apiKey remaining' (S jsonAttempt) st'
            end
      | None => ret (optimizeExhausted userPrompt st)
      end
  end.

Definition maxJsonRetries : nat := 3.

Definition noKeysMessage : string :=
  "No Gemini API keys configured. Please set VITE_GEMINI_API_KEYS in your .env file.".

(** The request sent on every attempt (the system instruction, up to
    five inline images, the prompt text with the number of images and the
    links) is built from the arguments before the loop and is the same on
    every attempt; of it only the number of image assets is kept, which
    the result reports. *)
Definition optimizePrompt (E : environment) (userPrompt : string) (assets : list asset)
  : M optimizeResult :=
  let! apiKey := getRandomKey E None in
  match apiKey with
  | Some key =>
      if negb (Js.truthy key) then throw noKeysMessage
      else
        let imageAssets := List.filter isImage assets in
        optimizeLoop E userPrompt (length imageAssets) key maxJsonRetries 0
                     (Attempts None "" "")
  | None => throw noKeysMessage
  end.


(** [/```(\w+)?\s*\n?([\s\S]*?)```/g] *)
Definition codeBlockRegex : regex :=
  seq [lit "```"; opt (Group 1 (plus word)); Star true ws; opt (chr Js.LF);
       Group 2 (Star false any); lit "```"].

(** [/[\.\#\w\-]+\s*\{/] *)
Definition selectorRegex : regex :=
  seq [plus (Chr (fun c => Js.ascii_eqb c "." || Js.ascii_eqb c "#"
                           || Js.isWordChar c || Js.ascii_eqb c "-"));
       Star true ws; chr "{"].

(** [/<!DOCTYPE\s+html[^>]*>[\s\S]*?<\/html>/i] *)
Definition htmlDocRegex : regex :=
  seq [litI "<!DOCTYPE"; plus ws; litI "html"; Star true (notChr ">"); chr ">";
       Star false any; litI "</html>"].

(** [/<html[^>]*>[\s\S]*?<\/html>/i] *)
Definition htmlTagRegex : regex :=
  seq [litI "<html"; Star true (notChr ">"); chr ">"; Star false any; litI "</html>"].

(** [/<style[^>]*>([\s\S]*?)<\/style>/gi] *)
Definition styleRegex : regex :=
  seq [litI "<style"; Star true (notChr ">"); chr ">"; Group 1 (Star false any);
       litI "</style>"].

(** An entry of [codeBlocks]; the two indices the source also stores are
    never read. *)
Record codeBlock : Type := CodeBlock {
  blockLanguage : string;   (* (match[1] || '').toLowerCase() *)
  blockContent : string;    (* match[2] *)
}.

(** The [while ((match = codeBlockRegex.exec(content)) !== null)] loop. *)
Definition findCodeBlocks (content : string) : list codeBlock :=
  List.map (fun m =>
              CodeBlock (Js.toLowerCase (default "" (group content m 1)))
                        (default "" (group content m 2)))
           (matchAll codeBlockRegex content).

(** The body of the first [for (const block of codeBlocks)] loop, on the
    pair [(html, css)]. *)
Definition taggedStep (acc : string * string) (block : codeBlock) : string * string :=
  let '(html, css) := acc in
  if String.eqb (blockLanguage block) "html" && negb (Js.truthy html) then
    (Js.trim (blockContent block), css)
  else if String.eqb (blockLanguage block) "css" && negb (Js.truthy css) then
    (html, Js.trim (blockContent block))
  else (html, css).

Definition looksLikeHtml (t : string) : bool :=
  Js.includes "<!DOCTYPE" t || Js.includes "<html" t
  || Js.includes "<head" t || Js.includes "<body" t.

Definition looksLikeCss (t : string) : bool :=
  Js.includes "{" t && Js.includes "}" t && (Js.includes ":" t || Js.includes ";" t).

(** The body of the second loop, which looks at blocks without a tag. *)
Definition untaggedStep (acc : string * string) (block : codeBlock) : string * string :=
  let '(html, css) := acc in
  if negb (Js.truthy (blockLanguage block)) then
    let trimmedContent := Js.trim (blockContent block) in
    if negb (Js.truthy html) && looksLikeHtml trimmedContent then (trimmedContent, css)
    else if negb (Js.truthy css) && looksLikeCss trimmedContent then
      (if test selectorRegex trimmedContent then (html, trimmedContent) else (html, css))
    else (html, css)
  else (html, css).

(** FALLBACK 1: a raw HTML document in the text. *)
Definition rawDocument (content : string) : string :=
  match exec htmlDocRegex content 0 with
  | Some m => Js.trim (matched content m)
  | None =>
      match exec htmlTagRegex content 0 with
      | Some m => Js.trim (matched content m)
      | None => ""
      end
  end.

(** FALLBACK 2: the contents of the [<style>] tags of the page. *)
Definition extractedStyles (html : string) : list string :=
  List.map Js.trim
    (List.filter Js.truthy
       (List.map (fun m => default "" (group html m 1)) (matchAll styleRegex html))).

Definition parseGeneratedCode (content : string) : string * string :=
  if negb (Js.truthy content) then ("", "")
  else
    let codeBlocks := findCodeBlocks content in
    let '(html, css) := List.fold_left taggedStep codeBlocks ("", "") in
    let '(html, css) :=
      if negb (Js.truthy html) || negb (Js.truthy css)
      then List.fold_left untaggedStep codeBlocks (html, css)
      else (html, css) in
    let html := if negb (Js.truthy html) then rawDocument content else html in
    let css :=
      if negb (Js.truthy css) && Js.truthy html then
        match extractedStyles html with
        | [] => css
        | styles => Js.join (Js.nl +:+ Js.nl) styles
        end
      else css in
    (html, css).


(** The retry loop of [generateWebPageWithImages]:
    [for (let attempt = 0; attempt < maxAttempts; attempt++)], with
    [remaining = maxAttempts - attempt].  The [try] block assigns nothing
    the [catch] block or a later round reads, so each round only passes
    [lastError] on. *)
Definition generateAttempt (E : environment) (images : nat) (usedJSON : bool)
    (currentKey : string) (lastError : option string)
  : M (step (option string) Generation.t) :=
  tryCatch
    (let! answer := request E currentKey in
     match answer with
     | None => ret (Continue lastError)
     | Some content =>
         let '(html, css) := parseGeneratedCode content in
         if negb (Js.truthy html) || (String.length html <? 100) then
           ret (Continue lastError)
         else if negb (Js.truthy css) || (String.length css <? 50) then
           ret (Continue lastError)
         else
           ret (Finish (Generation.Build true None (Some html) (Some css) None
                          (Some content) (Some images) (Some usedJSON)
                          None None None None None None))
     end)
    (fun message => ret (Continue (Some message))).

(** [lastError?.message || 'All API keys exhausted'] *)
Definition generateExhausted (lastError : option string) : Generation.t :=
  Generation.failed
    (match lastError with
     | Some m => Js.orElse m "All API keys exhausted"
     | None => "All API keys exhausted"
     end).

Fixpoint generateLoop (E : environment) (images : nat) (usedJSON : bool)
    (apiKey : string) (remaining attempt : nat) (lastError : option string)
  : M Generation.t :=
  match remaining with
  | 0 => ret (generateExhausted lastError)
  | S remaining' =>
      let! currentKey :=
        (if attempt =? 0 then ret (Some apiKey) else getRandomKey E (Some apiKey)) in
      match currentKey with
      | Some key =>
          if negb (Js.truthy key) then ret (generateExhausted lastError)
          else
            let! s := generateAttempt E images usedJSON key lastError in
            match s with
            | Finish r => ret r
            | Continue lastError' =>
                generateLoop E images usedJSON apiKey remaining' (S attempt) lastError'
            end
      | None => ret (generateExhausted lastError)
      end
  end.

(** As in [optimizePrompt], the request is built before the loop from
    [prompt], the images and [designJSON]; the result reports the number
    of image assets and whether a design was given. *)
Definition generateWebPageWithImages (E : environment) (prompt : string)
    (assets : list asset) (designJSON : option json) (excludeKey : option string)
  : M Generation.t :=
  let! _ := record CalledGenerateWebPageWithImages in
  let! apiKey := getRandomKey E excludeKey in
  match apiKey with
  | Some key =>
      if negb (Js.truthy key) then throw noKeysMessage
      else
        let imageAssets := List.filter isImage assets in
        let maxAttempts := Nat.min 3 (length (GEMINI_API_KEYS E)) in
        generateLoop E (length imageAssets) (Json.truthyOpt designJSON) key
                     maxAttempts 0 None
  | None => throw noKeysMessage
  end.

(** The double quote, which a template literal may contain. *)
Definition q : string := String (ascii_of_nat 34) EmptyString.

(** The document [compileLivePreview] builds around a fragment. *)
Definition previewDocument (html css : string) : string :=
  "<!DOCTYPE html>" +:+ Js.nl +:+
  "<html lang=" +:+ q +:+ "en" +:+ q +:+ ">" +:+ Js.nl +:+
  "<head>" +:+ Js.nl +:+
  "  <meta charset=" +:+ q +:+ "UTF-8" +:+ q +:+ ">" +:+ Js.nl +:+
  "  <meta name=" +:+ q +:+ "viewport" +:+ q +:+ " content=" +:+ q +:+
    "width=device-width, initial-scale=1.0" +:+ q +:+ ">" +:+ Js.nl +:+
  "  <title>DSY Core Preview</title>" +:+ Js.nl +:+
  "  <link href=" +:+ q +:+
    "https://fonts.googleapis.com/css2?family=Inter:wght@300;400;500;600;700&display=swap"
    +:+ q +:+ " rel=" +:+ q +:+ "stylesheet" +:+ q +:+ ">" +:+ Js.nl +:+
  "  <style>" +:+ Js.nl +:+
  "    * {" +:+ Js.nl +:+
  "      margin: 0;" +:+ Js.nl +:+
  "      padding: 0;" +:+ Js.nl +:+
  "      box-sizing: border-box;" +:+ Js.nl +:+
  "    }" +:+ Js.nl +:+
  "    body {" +:+ Js.nl +:+
  "      font-family: 'Inter', sans-serif;" +:+ Js.nl +:+
  "    }" +:+ Js.nl +:+
  "    " +:+ css +:+ Js.nl +:+
  "  </style>" +:+ Js.nl +:+
  "</head>" +:+ Js.nl +:+
  "<body>" +:+ Js.nl +:+
  "  " +:+ html +:+ Js.nl +:+
  "</body>" +:+ Js.nl +:+
  "</html>".

Definition compileLivePreview (html css : string) : string :=
  if Js.includes "<!DOCTYPE" html || Js.includes "<html" html then
    if Js.truthy css then
      if Js.includes "</head>" html then
        Js.replace "</head>" ("<style>" +:+ css +:+ "</style></head>") html
      else if Js.includes "<body" html then
        Js.replace "<body" ("<style>" +:+ css +:+ "</style><body") html
      else html
    else html
  else previewDocument html css.

End Gemini.

(* ===================================================================== *)
(** ** sambaNovaService.js *)
(* ===================================================================== *)

Module SambaNova.

Import Regex.

Definition EXPLANATION : string := "Meta-Llama-3.3-70B-Instruct".
Definition CODE_GENERATION : string := "Qwen3-32B".

Definition fetch (E : environment) : M response :=
  fun w => let answer := sambaNova E (sambaNovaFetches w) in
           (Return answer,
            World (failedKeys w) (randomsDrawn w) (geminiFetches w)
                  (S (sambaNovaFetches w)) (spaceCalls w)
                  (calls w ++ [FetchedSambaNova answer])).

Definition notConfiguredMessage : string :=
  "SambaNova API key not configured. Please set VITE_SAMBANOVA_API_KEY in your environment.".

(** [callSambaNova] resolves to the parsed answer; the callers only read
    [choices[0]?.message?.content] from it. *)
Definition callSambaNova (E : environment) (model : string) : M payload :=
  if negb (Js.truthy (VITE_SAMBANOVA_API_KEY E)) then throw notConfiguredMessage
  else
    let! response := fetch E in
    match response with
    | NetworkFailure message => throw message
    | Http status b =>
        if negb (ok status) then throw (errorMessage status b)
        else match b with
             | NotJson message => throw message
             | Json _ content => ret content
             end
    end.

(** [response.choices[0]?.message?.content || ''], which throws when
    [choices] cannot be indexed. *)
Definition contentOf (p : payload) : M string :=
  match p with
  | Malformed message => throw message
  | _ => ret (textOf p)
  end.

(** The object the chat functions resolve to. *)
Record reply : Type := Reply {
  success : bool;
  content : string;
  model : option string;
  error : option string;
}.

(** The body shared by [generateExplanation], [generateCode],
    [analyzeSyllabus] and [analyzeBoxModel]: one call inside
    [try]/[catch]; they differ in the messages sent and in the model. *)
Definition ask (E : environment) (model : string) : M reply :=
  tryCatch
    (let! response := callSambaNova E model in
     let! text := contentOf response in
     ret (Reply true text (Some model) None))
    (fun message => ret (Reply false "" None (Some message))).

Definition generateExplanation (E : environment) (userPrompt : string)
    (context : option string) : M reply := ask E EXPLANATION.

Definition generateCode (E : environment) (codePrompt : string)
    (language : option string) : M reply := ask E CODE_GENERATION.

Definition analyzeSyllabus (E : environment) (syllabusText : string) : M reply :=
  ask E EXPLANATION.

Definition analyzeBoxModel (E : environment) (cssCode : string)
    (imageDescription : option string) : M reply := ask E EXPLANATION.

(** The [context] argument of [chat]. *)
Record chatContext : Type := ChatContext {
  ctxLanguage : option string;
  cssCode : option string;
  imageDescription : option string;
  additionalContext : option string;
}.

Definition chat (E : environment) (message taskType : string) (context : chatContext)
  : M reply :=
  if String.eqb taskType "code" then generateCode E message (ctxLanguage context)
  else if String.eqb taskType "syllabus" then analyzeSyllabus E message
  else if String.eqb taskType "boxmodel" then
    analyzeBoxModel E (Js.orElse (default "" (cssCode context)) message)
                    (imageDescription context)
  else generateExplanation E message (additionalContext context).

(** [/```html\s*([\s\S]*?)```/i] and [/```css\s*([\s\S]*?)```/i] *)
Definition htmlBlock : regex :=
  seq [litI "```html"; Star true ws; Group 1 (Star false any); lit "```"].
Definition cssBlock : regex :=
  seq [litI "```css"; Star true ws; Group 1 (Star false any); lit "```"].

(** [/<(!DOCTYPE|html|head|body)[\s\S]*<\/html>/i] *)
Definition inlineHtml : regex :=
  seq [chr "<";
       Group 1 (Alt (litI "!DOCTYPE") (Alt (litI "html") (Alt (litI "head") (litI "body"))));
       Star true any; litI "</html>"].

Definition parseGeneratedCode (content : string) : string * string :=
  let html :=
    match exec htmlBlock content 0 with
    | Some m => Js.trim (default "" (group content m 1))
    | None => ""
    end in
  let css :=
    match exec cssBlock content 0 with
    | Some m => Js.trim (default "" (group content m 1))
    | None => ""
    end in
  let html :=
    if negb (Js.truthy html) && negb (Js.truthy css) then
      match exec inlineHtml content 0 with
      | Some m => matched content m
      | None => html
      end
    else html in
  (html, css).

Definition generateWebPage (E : environment) (prompt : string) : M generation :=
  let! _ := record CalledGenerateWebPage in
  tryCatch
    (let! response := callSambaNova E CODE_GENERATION in
     let! content := contentOf response in
     let '(html, css) := parseGeneratedCode content in
     ret (Generation.Build true None (Some html) (Some css) None (Some content)
            None None (Some CODE_GENERATION) None None None None None))
    (fun message => ret (Generation.failed message)).

(** Modelled from the spec: [generateReactApp], the multi-file generation
    of the fast text provider, is imported by the router from
    [sambaNovaService.js] but is not part of the sources.  The spec (4.2,
    4.5) only says that the fast text provider is called directly; here
    the call is recorded and its outcome is whatever the environment
    says. *)
Definition generateReactApp (E : environment) (prompt : string) : M generation :=
  let! _ := record CalledGenerateReactApp in
  fun w => (reactApp E prompt, w).

End SambaNova.

(* ===================================================================== *)
(** ** hfPreprocessorService.js *)
(* ===================================================================== *)

Module Space.

Definition three : json := JNum (S754_finite false 3 0).

(** The defaults [preprocessImage] answers with when anything fails. *)
Definition defaults (message : string) : json :=
  JObj [("success", JBool false);
        ("error", JStr message);
        ("colors", JObj [("primary", JStr "#3b82f6");
                         ("secondary", JStr "#1e40af");
                         ("accent", JStr "#60a5fa");
                         ("background", JStr "#1e1e2e");
                         ("text", JStr "#ffffff");
                         ("is_dark_theme", JBool true)]);
        ("layout", JObj [("type", JStr "landing");
                         ("sections", JArr [JStr "navbar"; JStr "hero";
                                            JStr "features"; JStr "footer"]);
                         ("estimated_columns", three)])].

(** [{ success: true, ...data }]: a [success] property of [data] wins. *)
Definition withSuccess (props : list (string * json)) : json :=
  match Json.lookup "success" props with
  | Some v => JObj (("success", v) :: List.filter (fun p => negb (String.eqb (fst p) "success")) props)
  | None => JObj (("success", JBool true) :: props)
  end.

(** [preprocessImage] catches every failure itself: the conversion of the
    data URL, the connection and the prediction are one [try] block whose
    failure, with its message, is the environment's answer [Throw]. *)
Definition preprocessImage (E : environment) (imageDataUrl : string) : M json :=
  let! _ := record (CalledPreprocessImage imageDataUrl) in
  fun w =>
    (Return (match huggingFace E (spaceCalls w) imageDataUrl with
             | Return props => withSuccess props
             | Throw message => defaults message
             end),
     World (failedKeys w) (randomsDrawn w) (geminiFetches w) (sambaNovaFetches w)
           (S (spaceCalls w)) (calls w)).

Definition strings (xs : list string) : json := JArr (List.map JStr xs).

Definition buildDesignJSON (hfData : json) : option json :=
  if negb (Json.truthy hfData) then None else
  let layout := Json.get "layout" hfData in
  let colors := Json.get "colors" hfData in
  Some (JObj
    [("layout", JObj
        [("type", Json.orElse (Json.getOpt "type" layout) (JStr "landing"));
         ("sections", Json.orElse (Json.getOpt "sections" layout)
                        (strings ["header"; "hero"; "features"; "footer"]));
         ("columns", Json.orElse (Json.getOpt "estimated_columns" layout) three)]);
     ("colors", JObj
        [("background", Json.orElse (Json.getOpt "background" colors) (JStr "#1e1e2e"));
         ("primary", Json.orElse (Json.getOpt "primary" colors) (JStr "#3b82f6"));
         ("secondary", Json.orElse (Json.getOpt "secondary" colors) (JStr "#1e40af"));
         ("accent", Json.orElse (Json.getOpt "accent" colors) (JStr "#60a5fa"));
         ("text", Json.orElse (Json.getOpt "text" colors) (JStr "#ffffff"))]);
     ("effects",
        if Json.truthyOpt (Json.getOpt "is_dark_theme" colors)
        then strings ["glassmorphism"; "gradient"; "shadows"]
        else strings ["shadows"; "subtle-gradient"]);
     ("isDarkTheme", Json.coalesce (Json.getOpt "is_dark_theme" colors) (JBool true))]).

End Space.

(* ===================================================================== *)
(** ** codeGeneratorRouter.js *)
(* ===================================================================== *)

Module Router.

Import Regex.

(** [/<!DOCTYPE.*?>|<html.*?>|<\/html>|<head>[\s\S]*?<\/head>|<body.*?>|<\/body>/gi] *)
Definition documentTags : regex :=
  Alt (seq [litI "<!DOCTYPE"; Star false dot; chr ">"])
 (Alt (seq [litI "<html"; Star false dot; chr ">"])
 (Alt (litI "</html>")
 (Alt (seq [litI "<head>"; Star false any; litI "</head>"])
 (Alt (seq [litI "<body"; Star false dot; chr ">"])
      (litI "</body>"))))).

(** The body of the fallback component: the page without its document
    tags, every line indented by six spaces. *)
Definition componentBody (html : string) : string :=
  Js.join Js.nl
    (List.map (fun line => "      " +:+ line)
              (Js.split Js.LF (removeAll documentTags html))).

Definition appSource (html : string) : string :=
  "import React from 'react';" +:+ Js.nl +:+
  "import './index.css';" +:+ Js.nl +:+
  Js.nl +:+
  "const App: React.FC = () => {" +:+ Js.nl +:+
  "  return (" +:+ Js.nl +:+
  "    <>" +:+ Js.nl +:+
  componentBody html +:+ Js.nl +:+
  "    </>" +:+ Js.nl +:+
  "  );" +:+ Js.nl +:+
  "};" +:+ Js.nl +:+
  Js.nl +:+
  "export default App;".

(** [fallbackFiles] *)
Definition fallbackFiles (html css : string) : list file :=
  [File "App.tsx" (appSource html) "typescript";
   File "index.css" (Js.orElse css "/* Add your styles here */") "css"].

(** The multi-file results of [generateReactWithGemini]. *)
Definition reactFailure (message : option string) : generation :=
  Generation.Build false message None None (Some []) None None None None
                   (Some "gemini") (Some "react") None None None.

Definition reactSuccess (files : list file) (rawContent : option string)
    (usedHF : bool) (fallback : option bool) : generation :=
  Generation.Build true None None None (Some files) rawContent None None None
                   (Some "gemini") (Some "react") (Some usedHF) (Some 1) fallback.

Definition generateReactWithGemini (E : environment) (prompt : string)
    (assets : list asset) (designJSON : option json) : M generation :=
  let! result := Gemini.generateWebPageWithImages E prompt assets designJSON None in
  if negb (Generation.success result) then ret (reactFailure (Generation.error result))
  else
    let rawContent := default "" (Generation.rawContent result) in
    let files := parseReactOutput E rawContent in
    if 0 <? length files then
      ret (reactSuccess files (Generation.rawContent result)
                        (Json.truthyOpt designJSON) None)
    else
      let '(html, css) := Gemini.parseGeneratedCode rawContent in
      if Js.truthy html || Js.truthy css then
        ret (reactSuccess (fallbackFiles html css) (Generation.rawContent result)
                          (Json.truthyOpt designJSON) (Some true))
      else ret (reactFailure (Some "Failed to parse generated code")).

(** [imageAsset?.data], when it is truthy. *)
Definition imageData (imageAsset : option asset) : option string :=
  match imageAsset with
  | Some a =>
      match data a with
      | Some d => if Js.truthy d then Some d else None
      | None => None
      end
  | None => None
  end.

Definition isReact (framework : string) : bool := String.eqb framework "react".

Definition generateWithImage (E : environment) (prompt : string) (assets : list asset)
    (framework : string) : M generation :=
  let imageAsset := List.find isImage assets in
  let! designJSON :=
    match imageData imageAsset with
    | Some d =>
        tryCatch
          (let! hfResult := Space.preprocessImage E d in
           ret (Space.buildDesignJSON hfResult))
          (fun _ => ret None)
    | None => ret None
    end in
  if isReact framework then generateReactWithGemini E prompt assets designJSON
  else
    let! result := Gemini.generateWebPageWithImages E prompt assets designJSON None in
    ret (Generation.withUsedHF (Generation.routed result "gemini" "html")
                               (Json.truthyOpt designJSON)).

Definition generateTextOnly (E : environment) (prompt framework : string)
  : M generation :=
  if isReact framework then
    let! result := SambaNova.generateReactApp E prompt in
    ret (Generation.routed result "sambanova" "react")
  else
    let! result := SambaNova.generateWebPage E prompt in
    ret (Generation.routed result "sambanova" "html").

Definition generateCode (E : environment) (prompt : string) (assets : list asset)
    (framework : string) : M generation :=
  let hasImages := List.existsb isImage assets in
  if hasImages then generateWithImage E prompt assets framework
  else generateTextOnly E prompt framework.

End Router.

(* ===================================================================== *)
(** ** geminiService.js: key pairs and key diagnostics *)
(* ===================================================================== *)

Module Keys.

(** [getDualKeys]: a key for optimisation, and a key for generation
    selected with the first one excluded. *)
Definition getDualKeys (E : environment) : M (option string * option string) :=
  let! optimizationKey := Gemini.getRandomKey E None in
  let! generationKey := Gemini.getRandomKey E optimizationKey in
  ret (optimizationKey, generationKey).

(** [GEMINI_API_KEYS.length] *)
Definition getKeyCount (E : environment) : nat := length (GEMINI_API_KEYS E).

(** [failedKeys.size] *)
Definition getFailedKeyCount (w : world) : nat := size (failedKeys w).

(** [GEMINI_API_KEYS.length > 0] *)
Definition isGeminiConfigured (E : environment) : bool := 0 <? length (GEMINI_API_KEYS E).

(** The object [testApiKey] resolves to; the first return statement sets
    neither [keyIndex] nor [maskedKey]. *)
Record keyTest : Type := KeyTest {
  success : bool;
  error : option string;
  reply : option string;
  keyIndex : option Z;
  maskedKey : option string;
}.

(** [s.slice(-n)]: the last [n] characters, or all of [s]. *)
Definition lastChars (n : nat) (s : string) : string :=
  Js.drop (String.length s - n) s.

(** [key.slice(0, 8) + '...' + key.slice(-4)] *)
Definition maskKey (key : string) : string :=
  Js.slice 0 8 key +:+ "..." +:+ lastChars 4 key.

(** [errorData.error?.message || `Status ${response.status}`] *)
Definition statusMessage (status : nat) (b : body) : string :=
  let fallback := "Status " +:+ Js.ofNat status in
  match b with
  | Json (Some m) _ => Js.orElse m fallback
  | _ => fallback
  end.

(** [testApiKey(keyIndex)] for an integer index.  The key is read and
    masked before the [try] block; everything after it is inside. *)
Definition testApiKey (E : environment) (index : Z) : M keyTest :=
  if (index <? 0)%Z || (Z.of_nat (length (GEMINI_API_KEYS E)) <=? index)%Z then
    ret (KeyTest false (Some "Invalid key index") None None None)
  else
    match GEMINI_API_KEYS E !! Z.to_nat index with
    | None => throw "Cannot read properties of undefined (reading 'slice')"
    | Some key =>
        let masked := maskKey key in
        tryCatch
          (let! response := Gemini.fetch E key in
           match response with
           | NetworkFailure message => throw message
           | Http status b =>
               if status =? 429 then
                 ret (KeyTest false (Some "Rate limited") None (Some index) (Some masked))
               else if negb (ok status) then
                 ret (KeyTest false (Some (statusMessage status b)) None
                              (Some index) (Some masked))
               else match b with
                    | NotJson message => throw message
                    | Json _ (Malformed message) => throw message
                    | Json _ content =>
                        ret (KeyTest true None (Some (Js.trim (textOf content)))
                                     (Some index) (Some masked))
                    end
           end)
          (fun message =>
             ret (KeyTest false (Some message) None (Some index) (Some masked)))
    end.

End Keys.

(* ===================================================================== *)
(** ** chatbotService.js *)
(* ===================================================================== *)

Module Chatbot.

Import Regex.

(** The object [sendChatMessage] resolves to. *)
Record chatResult : Type := ChatResult {
  success : bool;
  error : option string;
  message : option string;          (* None: null *)
  hasCodeChanges : option bool;
  modifiedHtml : option string;     (* None: null or not set *)
  modifiedCss : option string;
}.

(** The object [parseCodeModifications] builds. *)
Record modifications : Type := Modifications {
  hasChanges : bool;
  html : option string;             (* None: null *)
  css : option string;
}.

(** [/```html:index\.html\s*\n([\s\S]*?)```/] *)
Definition htmlFileBlock : regex :=
  seq [lit "```html:index.html"; Star true ws; chr Js.LF;
       Group 1 (Star false any); lit "```"].

(** [/```html\s*\n([\s\S]*?)```/] *)
Definition htmlFenceBlock : regex :=
  seq [lit "```html"; Star true ws; chr Js.LF; Group 1 (Star false any); lit "```"].

(** [/```css:styles\.css\s*\n([\s\S]*?)```/] *)
Definition cssFileBlock : regex :=
  seq [lit "```css:styles.css"; Star true ws; chr Js.LF;
       Group 1 (Star false any); lit "```"].

(** [/```css\s*\n([\s\S]*?)```/] *)
Definition cssFenceBlock : regex :=
  seq [lit "```css"; Star true ws; chr Js.LF; Group 1 (Star false any); lit "```"].

(** [!result.html], for a property that is [null] or a string. *)
Definition unset (v : option string) : bool :=
  match v with Some s => negb (Js.truthy s) | None => true end.

Definition parseCodeModifications (response : string) : modifications :=
  let result := Modifications false None None in
  let result :=
    match Gemini.firstGroup htmlFileBlock response with
    | Some g => Modifications true (Some (Js.trim g)) (css result)
    | None => result
    end in
  let result :=
    if unset (html result) then
      match Gemini.firstGroup htmlFenceBlock response with
      | Some g =>
          if Js.includes "<!DOCTYPE" g
          then Modifications true (Some (Js.trim g)) (css result)
          else result
      | None => result
      end
    else result in
  let result :=
    match Gemini.firstGroup cssFileBlock response with
    | Some g => Modifications true (html result) (Some (Js.trim g))
    | None => result
    end in
  let result :=
    if unset (css result) then
      match Gemini.firstGroup cssFenceBlock response with
      | Some g =>
          if 100 <? String.length g
          then Modifications true (html result) (Some (Js.trim g))
          else result
      | None => result
      end
    else result in
  result.

Section Chatbot.

(** The service keeps a key list and a failed set of its own: it runs in
    a world of its own, whose [failedKeys] is [failedChatbotKeys], and
    its key list comes from [VITE_CHATBOT_API_KEYS]. *)
Variable VITE_CHATBOT_API_KEYS : string.
Variable E : environment.

Definition CHATBOT_API_KEYS : list string := loadKeys VITE_CHATBOT_API_KEYS.

(** [CHATBOT_API_KEYS.length > 0] *)
Definition isChatbotConfigured : bool := 0 <? length CHATBOT_API_KEYS.

Definition getChatbotKeyCount : nat := length CHATBOT_API_KEYS.

Definition getRandomKey : M (option string) :=
  fun w =>
    if length CHATBOT_API_KEYS =? 0 then ret None w
    else
      let availableKeys :=
        List.filter (fun k => negb (bool_decide (k ∈ failedKeys w))) CHATBOT_API_KEYS in
      if length availableKeys =? 0 then
        (let! _ := Pool.clearFailed in ret (CHATBOT_API_KEYS !! 0)) w
      else Pool.pickRandom E availableKeys w.

Definition markKeyFailed : string -> M unit := Pool.markKeyFailed.

Definition notConfigured : chatResult :=
  ChatResult false
    (Some "No chatbot API keys configured. Please add VITE_CHATBOT_API_KEYS to your .env file.")
    None None None None.

(** [lastError?.message || 'All chatbot API keys exhausted'] *)
Definition chatExhausted (lastError : option string) : chatResult :=
  ChatResult false
    (Some (match lastError with
           | Some m => Js.orElse m "All chatbot API keys exhausted"
           | None => "All chatbot API keys exhausted"
           end))
    None None None None.

(** The [try] block of one attempt with its [catch].  The fetch, the 429
    test, the [response.ok] test and the reading of the reply are, line by
    line, those of the generation service, with the chatbot's own
    [markKeyFailed]; the contents sent (the project files, the last ten
    messages and the question) take no part in what follows. *)
Definition chatAttempt (currentKey : string) (lastError : option string)
  : M (step (option string) chatResult) :=
  tryCatch
    (let! response := Gemini.fetch E currentKey in
     match response with
     | NetworkFailure message => throw message
     | Http status b =>
         if status =? 429 then
           let! _ := markKeyFailed currentKey in ret (Continue lastError)
         else if negb (ok status) then throw (errorMessage status b)
         else match b with
              | NotJson message => throw message
              | Json _ (Malformed message) => throw message
              | Json _ content =>
                  let reply := textOf content in
                  let codeModifications := parseCodeModifications reply in
                  ret (Finish (ChatResult true None (Some reply)
                                 (Some (hasChanges codeModifications))
                                 (html codeModifications) (css codeModifications)))
              end
     end)
    (fun message => ret (Continue (Some message))).

(** [for (let attempt = 0; attempt < maxAttempts; attempt++)], with
    [remaining = maxAttempts - attempt]. *)
Fixpoint chatLoop (apiKey : string) (remaining attempt : nat) (lastError : option string)
  : M chatResult :=
  match remaining with
  | 0 => ret (chatExhausted lastError)
  | S remaining' =>
      let! currentKey := (if attempt =? 0 then ret (Some apiKey) else getRandomKey) in
      match currentKey with
      | Some key =>
          if negb (Js.truthy key) then ret (chatExhausted lastError)
          else
            let! s := chatAttempt key lastError in
            match s with
            | Finish r => ret r
            | Continue lastError' => chatLoop apiKey remaining' (S attempt) lastError'
            end
      | None => ret (chatExhausted lastError)
      end
  end.

Definition sendChatMessage (userMessage : string) : M chatResult :=
  let! apiKey := getRandomKey in
  match apiKey with
  | Some key =>
      if negb (Js.truthy key) then ret notConfigured
      else chatLoop key (Nat.min 3 (length CHATBOT_API_KEYS)) 0 None
  | None => ret notConfigured
  end.

End Chatbot.

End Chatbot.

(* ===================================================================== *)
(** ** titleGenerator.js *)
(* ===================================================================== *)

Module Title.

Import Regex.

(** [input.replace(r, repl)] for a [g] pattern and a replacement text
    without [$]: the text between the matches stays, every match becomes
    [repl]. *)
Fixpoint paste (repl input : string) (ms : list result) (from : nat) : string :=
  match ms with
  | [] => Js.drop from input
  | m :: ms' => Js.slice from (index m) input +:+ repl +:+ paste repl input ms' (stop m)
  end.

Definition replaceAll (r : regex) (repl input : string) : string :=
  paste repl input (matchAll r input) 0.

(** Lower-casing of a code unit below 256: the letters A-Z and the
    Latin-1 capitals (192-222 without the multiplication sign) move. *)
Definition lowerUnit (c : ascii) : ascii :=
  let n := nat_of_ascii c in
  if ((65 <=? n) && (n <=? 90)) || ((192 <=? n) && (n <=? 222) && negb (n =? 215))
  then ascii_of_nat (n + 32) else c.

Fixpoint toLowerCase (s : string) : string :=
  match s with
  | EmptyString => EmptyString
  | String c s' => String (lowerUnit c) (toLowerCase s')
  end.

(** Upper-casing of a code unit of a normalised word.  Such a word
    consists of [a-z], digits and hyphens, of which only the letters
    move. *)
Definition upperUnit (c : ascii) : ascii :=
  if Js.isLower c then ascii_of_nat (nat_of_ascii c - 32) else c.

Definition STOP_WORDS : list string :=
  [
   "a"; "an"; "the"; "and"; "or"; "but"; "is"; "are"; "was"; "were"; "be";
   "been"; "being"; "have"; "has"; "had"; "do"; "does"; "did"; "will";
   "would"; "could"; "should"; "may"; "might"; "must"; "can"; "to"; "of";
   "in"; "for"; "on"; "with"; "at"; "by"; "from"; "as"; "into"; "through";
   "during"; "before"; "after"; "above"; "below"; "between"; "under";
   "again"; "further"; "then"; "once"; "here"; "there"; "when"; "where";
   "why"; "how"; "all"; "each"; "few"; "more"; "most"; "other"; "some";
   "such"; "no"; "nor"; "not"; "only"; "own"; "same"; "so"; "than"; "too";
   "very"; "just"; "also"; "now"; "that"; "this"; "these"; "those"; "what";
   "which"; "who"; "whom"; "it"; "its"; "i"; "me"; "my"; "we"; "our";
   "you"; "your"; "he"; "him"; "his"; "she"; "her"; "they"; "them";
   "their"; "create"; "build"; "make"; "design"; "generate"; "add"; "use";
   "using"; "want"; "need"; "like"; "please"; "help"; "show"; "give";
   "get"; "put"; "take"; "website"; "webpage"; "page"; "site"; "web";
   "html"; "css"; "code"; "style"; "styles"; "section"; "component";
   "element"; "include"; "including"; "based"; "inspired"; "similar";
   "something"; "thing"; "things"; "way"; "look"; "looks"; "looking";
   "feel"; "feels"; "really"; "actually"; "basically"; "simple"; "complex";
   "good"; "great"; "nice"; "cool"; "awesome"; "amazing"; "beautiful"
  ].

Definition TYPE_KEYWORDS : list (string * string) :=
  [
   ("portfolio", "Portfolio"); ("landing", "Landing");
   ("dashboard", "Dashboard"); ("ecommerce", "Ecommerce");
   ("e-commerce", "Ecommerce"); ("shop", "Shop"); ("store", "Store");
   ("blog", "Blog"); ("gallery", "Gallery"); ("contact", "Contact");
   ("about", "About"); ("pricing", "Pricing"); ("login", "Login");
   ("signup", "Signup"); ("register", "Register"); ("profile", "Profile");
   ("settings", "Settings"); ("hero", "Hero"); ("navbar", "Navbar");
   ("footer", "Footer"); ("sidebar", "Sidebar"); ("modal", "Modal");
   ("form", "Form"); ("card", "Card"); ("cards", "Cards");
   ("testimonial", "Testimonial"); ("testimonials", "Testimonials");
   ("features", "Features"); ("services", "Services"); ("team", "Team");
   ("faq", "FAQ"); ("newsletter", "Newsletter"); ("checkout", "Checkout");
   ("cart", "Cart"); ("product", "Product"); ("products", "Products");
   ("social", "Social"); ("dark", "Dark"); ("light", "Light");
   ("modern", "Modern"); ("minimal", "Minimal");
   ("glassmorphism", "Glass"); ("neumorphism", "Neumorph");
   ("gradient", "Gradient"); ("animated", "Animated");
   ("responsive", "Responsive"); ("mobile", "Mobile"); ("app", "App");
   ("saas", "SaaS"); ("startup", "Startup"); ("agency", "Agency");
   ("restaurant", "Restaurant"); ("food", "Food"); ("fitness", "Fitness");
   ("gym", "Gym"); ("music", "Music"); ("video", "Video");
   ("travel", "Travel"); ("hotel", "Hotel"); ("booking", "Booking");
   ("real", "Real"); ("estate", "Estate"); ("medical", "Medical");
   ("health", "Health"); ("education", "Education"); ("course", "Course");
   ("finance", "Finance"); ("banking", "Banking"); ("crypto", "Crypto");
   ("nft", "NFT"); ("game", "Game"); ("gaming", "Gaming");
   ("weather", "Weather"); ("news", "News"); ("magazine", "Magazine")
  ].

Definition PROJECT_SUFFIXES : list string :=
  ["Page"; "Site"; "UI"; "Design"; "Layout"; "Template"].

(** [/[^a-z0-9\s-]/g] *)
Definition specialChar : regex :=
  Chr (fun c => negb (Js.isLower c || Js.isDigit c || Js.isWhiteSpace c
                      || Js.ascii_eqb c "-")).

(** [/\s+/g] *)
Definition whiteSpaceRun : regex := plus ws.

(** The prompt, lower-cased, without special characters, with single
    spaces and trimmed. *)
Definition normalize (prompt : string) : string :=
  Js.trim (replaceAll whiteSpaceRun " " (replaceAll specialChar " " (toLowerCase prompt))).

(** An element of [keywords].  [TYPE_KEYWORDS[word]] also finds what the
    object inherits: of the properties of [Object.prototype] only
    [constructor] is spelled in lower-case letters, and for that word the
    value is the function [Object]. *)
Inductive keyword : Type :=
| Word (s : string)
| ObjectFunction.

Definition typeKeyword (word : string) : option keyword :=
  match List.find (fun p => String.eqb (fst p) word) TYPE_KEYWORDS with
  | Some (_, v) => Some (Word v)
  | None => if String.eqb word "constructor" then Some ObjectFunction else None
  end.

(** [word.charAt(0).toUpperCase() + word.slice(1)] *)
Definition capitalize (word : string) : string :=
  match word with
  | EmptyString => EmptyString
  | String c rest => String (upperUnit c) rest
  end.

(** [STOP_WORDS.has(word)] *)
Definition isStopWord (word : string) : bool :=
  List.existsb (String.eqb word) STOP_WORDS.

(** The body of [for (const word of words)], on [keywords] and
    [seenWords]. *)
Definition keywordStep (acc : list keyword * gset string) (word : string)
  : list keyword * gset string :=
  let '(keywords, seenWords) := acc in
  if String.length word <? 3 then acc
  else if isStopWord word then acc
  else if bool_decide (word ∈ seenWords) then acc
  else
    let seenWords := {[word]} ∪ seenWords in
    match typeKeyword word with
    | Some k => (k :: keywords, seenWords)
    | None => (keywords ++ [Word (capitalize word)], seenWords)
    end.

Definition extractKeywords (prompt : string) : list keyword :=
  if negb (Js.truthy prompt) then []
  else
    let words := Js.split " " (normalize prompt) in
    fst (List.fold_left keywordStep words ([], ∅)).

Section Title.

(** [String(Object)], the source text of a native function, which the
    language leaves to the implementation. *)
Variable objectSource : string.
Variable E : environment.

(** The conversion [join] applies to an element. *)
Definition toString (k : keyword) : string :=
  match k with
  | Word s => s
  | ObjectFunction => objectSource
  end.

Definition generateProjectTitle (prompt : string) : M string :=
  let keywords := extractKeywords prompt in
  if length keywords =? 0 then ret "DSY_Project"
  else
    let titleWords := List.map toString (List.firstn 4 keywords) in
    let! titleWords :=
      (if length titleWords <? 2 then
         let! d := mathRandom E in
         let randomSuffix :=
           default "" (PROJECT_SUFFIXES !! floorMul d (length PROJECT_SUFFIXES)) in
         ret (titleWords ++ [randomSuffix])
       else ret titleWords) in
    ret (Js.join "_" titleWords).

End Title.

(** [/[^a-zA-Z0-9_-]/g] *)
Definition invalidChar : regex :=
  Chr (fun c => negb (Js.isLower c || Js.isUpper c || Js.isDigit c
                      || Js.ascii_eqb c "_" || Js.ascii_eqb c "-")).

(** [/_+/g] *)
Definition underscoreRun : regex := plus (chr "_").

(** [/^_|_$/g] *)
Definition edgeUnderscore : regex := Alt (Cat Bol (chr "_")) (Cat (chr "_") Eol).

Definition sanitizeFilename (title : string) : string :=
  Js.take 50
    (replaceAll edgeUnderscore ""
       (replaceAll underscoreRun "_" (replaceAll invalidChar "_" title))).

End Title.

(* ===================================================================== *)
(** ** imageUtils.js *)
(* ===================================================================== *)

Module Images.

(** [picsum.seeded(seed, width, height)] *)
Definition seeded (seed : string) (width height : nat) : string :=
  "https://picsum.photos/seed/" +:+ seed +:+ "/" +:+ Js.ofNat width +:+ "/"
  +:+ Js.ofNat height.

(** [avatar.specific(id, size)] *)
Definition specific (id size : nat) : string :=
  "https://i.pravatar.cc/" +:+ Js.ofNat size +:+ "?img=" +:+ Js.ofNat id.

(** [Array.from({ length: count }, (_, i) => f(i))] *)
Definition arrayFrom {A : Type} (count : nat) (f : nat -> A) : list A :=
  List.map f (List.seq 0 count).

Definition generateCardImages (count width height : nat) : list string :=
  arrayFrom count (fun i => seeded ("card" +:+ Js.ofNat (i + 1)) width height).

Definition generateAvatars (count size : nat) : list string :=
  arrayFrom count (fun i => specific (i mod 70 + 1) size).

Definition getBackgroundImage (seed : string) (blur : nat) : string :=
  "https://picsum.photos/seed/" +:+ seed +:+ "/1920/1080?blur=" +:+ Js.ofNat blur.

End Images.

(* ===================================================================== *)
(** ** The session store *)
(* ===================================================================== *)

Module Session.

Definition chars : string := "ABCDEFGHIJKLMNOPQRSTUVWXYZ0123456789".

(** [s.charAt(i)] *)
Definition charAt (i : nat) (s : string) : string :=
  match String.get i s with
  | Some c => String c EmptyString
  | None => EmptyString
  end.

(** [for (...) { id += chars.charAt(Math.floor(Math.random() * chars.length)); }]
    with [rounds] rounds to go. *)
Fixpoint appendRandomChars (E : environment) (rounds : nat) (id : string) : M string :=
  match rounds with
  | 0 => ret id
  | S rounds' =>
      let! d := mathRandom E in
      appendRandomChars E rounds' (id +:+ charAt (floorMul d (String.length chars)) chars)
  end.

(** [generateSessionId] starts from ['DSY-'] ... *)
Definition generateSessionId (E : environment) : M string :=
  appendRandomChars E 6 "DSY-".

(** ... and [generateDSYId] of [CodeContext.jsx] prefixes it at the end. *)
Definition generateDSYId (E : environment) : M string :=
  let! id := appendRandomChars E 6 "" in
  ret ("DSY-" +:+ id).

(** [{ ...o, k: v }] on a property list: an existing property keeps its
    place and takes the new value, a new one goes last. *)
Fixpoint assign (k : string) (v : json) (props : list (string * json))
  : list (string * json) :=
  match props with
  | [] => [(k, v)]
  | (k', v') :: ps => if String.eqb k k' then (k, v) :: ps else (k', v') :: assign k v ps
  end.

(** [{ ...a, ...b }] *)
Definition spread (a b : list (string * json)) : list (string * json) :=
  List.fold_left (fun o p => assign (fst p) (snd p) o) b a.

(** What the database accepts as a key, among the values at hand: a
    string, a number that is not NaN, an array of keys. *)
Fixpoint validKey (v : json) : bool :=
  match v with
  | JStr _ => true
  | JNum S754_nan => false
  | JNum _ => true
  | JArr items => List.forallb validKey items
  | _ => false
  end.

(** Equality of two keys: numbers by value, strings by code units,
    arrays item by item. *)
Fixpoint keyEqb (a b : json) : bool :=
  match a, b with
  | JStr s, JStr t => String.eqb s t
  | JNum x, JNum y => SFeqb x y
  | JArr xs, JArr ys =>
      (fix items (xs ys : list json) : bool :=
         match xs, ys with
         | [], [] => true
         | x :: xs', y :: ys' => keyEqb x y && items xs' ys'
         | _, _ => false
         end) xs ys
  | _, _ => false
  end.

(** The object store [sessions], created with [keyPath: 'id']: the
    records with their keys.  [requests] counts the calls made to the
    database so far. *)
Record store : Type := Store {
  records : list (json * list (string * json));
  requests : nat;
}.

(** The browser: whether the n-th call to the database goes through
    (opening the database or the request itself may be rejected), and
    the time at that call as [toISOString] renders it. *)
Record browser : Type := Browser {
  rejects : nat -> bool;
  now : nat -> string;
}.

(** [db.get] and [db.put] on the store. *)
Fixpoint dbGet (key : json) (rs : list (json * list (string * json)))
  : option (list (string * json)) :=
  match rs with
  | [] => None
  | (k, r) :: rs' => if keyEqb k key then Some r else dbGet key rs'
  end.

Fixpoint dbPut (key : json) (r : list (string * json))
    (rs : list (json * list (string * json))) : list (json * list (string * json)) :=
  match rs with
  | [] => [(key, r)]
  | (k, r') :: rs' => if keyEqb k key then (key, r) :: rs' else (k, r') :: dbPut key r rs'
  end.

(** The record [saveSession] hands to [db.put]:
    [{ id: sessionId, ...data, updatedAt: new Date().toISOString() }]. *)
Definition sessionRecord (sessionId : string) (data : list (string * json))
    (time : string) : list (string * json) :=
  assign "updatedAt" (JStr time) (spread [("id", JStr sessionId)] data).

(** [saveSession]: [true] when the record is stored, [false] when
    anything is thrown on the way, which includes a record whose [id] is
    not a valid key. *)
Definition saveSession (B : browser) (sessionId : string) (data : list (string * json))
    (s : store) : bool * store :=
  let n := requests s in
  if rejects B n then (false, Store (records s) (S n))
  else
    let r := sessionRecord sessionId data (now B n) in
    match Json.lookup "id" r with
    | Some key =>
        if validKey key then (true, Store (dbPut key r (records s)) (S n))
        else (false, Store (records s) (S n))
    | None => (false, Store (records s) (S n))
    end.

(** [loadSession]: the record, or [null]. *)
Definition loadSession (B : browser) (sessionId : string) (s : store)
  : option (list (string * json)) * store :=
  let n := requests s in
  if rejects B n then (None, Store (records s) (S n))
  else (dbGet (JStr sessionId) (records s), Store (records s) (S n)).

End Session.

(* ===================================================================== *)
(** ** CodeContext.jsx: the file tree and the editor tabs *)
(* ===================================================================== *)

Module Editor.

(** An entry of [project.files]: a file, or a folder with its children. *)
Inductive node : Type := Node {
  id : string;
  name : string;
  path : string;
  type : string;
  language : option string;
  content : option string;
  children : option (list node);
}.

(** [{ ...file, content }] *)
Definition withContent (file : node) (c : string) : node :=
  Node (id file) (name file) (path file) (type file) (language file) (Some c)
       (children file).

(** [{ ...file, children }] *)
Definition withChildren (file : node) (cs : list node) : node :=
  Node (id file) (name file) (path file) (type file) (language file) (content file)
       (Some cs).

(** The loop [for (const file of files)] of [findFileById]: the first
    entry on which the body returns. *)
Definition firstFound (body : node -> option node) : list node -> option node :=
  fix loop (files : list node) : option node :=
    match files with
    | [] => None
    | file :: files' =>
        match body file with
        | Some found => Some found
        | None => loop files'
        end
    end.

(** The body of that loop: the entry itself, or what the search finds
    among the children of a folder. *)
Fixpoint visit (fileId : string) (file : node) {struct file} : option node :=
  if String.eqb (id file) fileId then Some file
  else if String.eqb (type file) "folder" then
    match children file with
    | Some cs => firstFound (visit fileId) cs
    | None => None
    end
  else None.

Definition findFileById (files : list node) (fileId : string) : option node :=
  firstFound (visit fileId) files.

(** [file?.content || ''] for the active file. *)
Definition getActiveFileContent (files : list node) (activeFileId : option string)
  : string :=
  match activeFileId with
  | Some a =>
      match findFileById files a with
      | Some file => default "" (content file)
      | None => ""
      end
  | None => ""
  end.

(** The function [updateFiles] maps over the entries, in
    [updateFileContent]. *)
Fixpoint updateFile (fileId c : string) (file : node) {struct file} : node :=
  if String.eqb (id file) fileId then withContent file c
  else if String.eqb (type file) "folder" then
    match children file with
    | Some cs => withChildren file (List.map (updateFile fileId c) cs)
    | None => file
    end
  else file.

Definition updateFiles (fileId c : string) (files : list node) : list node :=
  List.map (updateFile fileId c) files.

(** The state the tab functions work on.  The functions are callbacks
    that close over the state of the latest render and hand their
    updates to React; they are written here as steps on that state. *)
Record tabs : Type := Tabs {
  openFiles : list string;
  activeFileId : option string;     (* None: null *)
}.

(** [openFile(fileId)] *)
Definition openFile (files : list node) (fileId : string) (t : tabs) : tabs :=
  match findFileById files fileId with
  | Some file =>
      if String.eqb (type file) "file" then
        Tabs (if List.existsb (String.eqb fileId) (openFiles t) then openFiles t
              else openFiles t ++ [fileId])
             (Some fileId)
      else t
  | None => t
  end.

(** [closeFile(fileId)] *)
Definition closeFile (fileId : string) (t : tabs) : tabs :=
  let newOpenFiles := List.filter (fun i => negb (String.eqb i fileId)) (openFiles t) in
  Tabs newOpenFiles
       (match activeFileId t with
        | Some a => if String.eqb a fileId then last newOpenFiles else Some a
        | None => None
        end).

(** [toggleFolder(folderId)], on [expandedFolders]. *)
Definition toggleFolder (folderId : string) (expandedFolders : list string)
  : list string :=
  if List.existsb (String.eqb folderId) expandedFolders
  then List.filter (fun i => negb (String.eqb i folderId)) expandedFolders
  else expandedFolders ++ [folderId].

End Editor.

(* ===================================================================== *)
(** ** Vocabulary of the properties *)
(* ===================================================================== *)

(** The first code block of a response that carries the tag [lang]. *)
Definition firstTagged (lang : string) (blocks : list Gemini.codeBlock)
  : option Gemini.codeBlock :=
  List.find (fun b => String.eqb (Gemini.blockLanguage b) lang) blocks.

(** The trimmed body of a block. *)
Definition trimmedBody (b : Gemini.codeBlock) : string :=
  Js.trim (Gemini.blockContent b).

(** What the first loop of [parseGeneratedCode] computes for one slot:
    either the slot was filled on entry, or it was empty and the first
    block with the slot's tag has a body that does not trim to nothing. *)
Definition slotFilledBy (lang slot : string) (blocks : list Gemini.codeBlock)
    (final : string) : Prop :=
  (Js.truthy slot = true /\ final = slot)
  \/ (slot = "" /\ exists b, firstTagged lang blocks = Some b
                            /\ Js.truthy (trimmedBody b) = true
                            /\ final = trimmedBody b).

(** The raw model output of an answer: the text of a 2xx answer whose
    body can be read. *)
Definition readable (a : response) : option string :=
  match a with
  | Http status (Json _ content) =>
      if ok status then
        match content with
        | Malformed _ => None
        | _ => Some (textOf content)
        end
      else None
  | _ => None
  end.

(** The answers of the Gemini provider in a call record, in order. *)
Fixpoint geminiAnswers (es : list event) : list response :=
  match es with
  | [] => []
  | FetchedGemini _ a :: es' => a :: geminiAnswers es'
  | _ :: es' => geminiAnswers es'
  end.

(** The display text and raw output salvaged so far, updated by one more
    answer: a readable answer replaces both, any other leaves them. *)
Definition salvage (E : environment) (st : string * string) (a : response)
  : string * string :=
  match readable a with
  | Some raw => (fst (Gemini.parseOptimizationOutput E raw), raw)
  | None => st
  end.

(** An answer yields a valid design: it is readable, a JSON value was
    extracted from it, and the value has its [layout] and its [colors]. *)
Definition yieldsValidDesign (E : environment) (a : response) : bool :=
  match readable a with
  | Some raw =>
      match snd (Gemini.parseOptimizationOutput E raw) with
      | Some v => Json.truthy v && negb (Gemini.missingRequiredFields v)
      | None => false
      end
  | None => false
  end.

(** A property is present in a parsed value. *)
Definition present (k : string) (v : json) : Prop :=
  exists props x, v = JObj props /\ Json.lookup k props = Some x.

(** An answer passes the flat validation: it is readable, and the page
    and the style sheet parsed from it reach the two floors. *)
Definition accepted (a : response) : bool :=
  match readable a with
  | Some content =>
      let '(html, css) := Gemini.parseGeneratedCode content in
      (100 <=? String.length html) && (50 <=? String.length css)
  | None => false
  end.

(** The successful flat result of the vision pipeline. *)
Definition flatSuccess (html css content : string) (images : nat) (usedJSON : bool)
  : generation :=
  Generation.Build true None (Some html) (Some css) None (Some content)
                   (Some images) (Some usedJSON) None None None None None None.

Definition isGeminiFetch (e : event) : bool :=
  match e with FetchedGemini _ _ => true | _ => false end.

Definition isSambaNovaFetch (e : event) : bool :=
  match e with FetchedSambaNova _ => true | _ => false end.

(** How a run of the retry loop of [generateWebPageWithImages] can end:
    exhausted, no answer having passed the validation, or successfully
    on an answer that passed it. *)
Definition loopEnded (images : nat) (usedJSON : bool) (r : generation)
    (es : list event) : Prop :=
  (Forall (fun a => accepted a = false) (geminiAnswers es)
   /\ exists lastError, r = Gemini.generateExhausted lastError)
  \/ (exists a content html css,
        last (geminiAnswers es) = Some a
        /\ readable a = Some content
        /\ Gemini.parseGeneratedCode content = (html, css)
        /\ 100 <= String.length html
        /\ 50 <= String.length css
        /\ r = flatSuccess html css content images usedJSON).

(** The calls the router makes before it turns to the vision pipeline:
    the pre-processing of the first image, if that image carries data. *)
Definition preprocessingCalls (assets : list asset) : list event :=
  match Router.imageData (List.find isImage assets) with
  | Some d => [CalledPreprocessImage d]
  | None => []
  end.


(** A synthetic response: a page and a style sheet, each in a fenced
    block with its tag. *)
Definition synthetic (html css : string) : string :=
  "```html" +:+ Js.nl +:+ html +:+ Js.nl +:+ "```" +:+ Js.nl +:+
  "```css" +:+ Js.nl +:+ css +:+ Js.nl +:+ "```".

(** A text without backticks, so without a fence. *)
Fixpoint noBacktick (s : string) : bool :=
  match s with
  | EmptyString => true
  | String c s' => negb (Ascii.eqb c "`") && noBacktick s'
  end.

(** All characters of a string satisfy a class. *)
Fixpoint allChars (p : ascii -> bool) (s : string) : bool :=
  match s with
  | EmptyString => true
  | String c s' => p c && allChars p s'
  end.

(** The head of a text does not satisfy a class. *)
Definition stopsAt (p : ascii -> bool) (t : string) : bool :=
  match t with
  | EmptyString => true
  | String c _ => negb (p c)
  end.

(** The part of [codeBlockRegex] after the tag. *)
Definition blockTail : Regex.regex :=
  Regex.seq [Regex.Star true Regex.ws; Regex.opt (Regex.chr Js.LF);
             Regex.Group 2 (Regex.Star false Regex.any); Regex.lit "```"].

(** The keys of the Gemini fetches in a call record, in order. *)
Fixpoint geminiKeys (es : list event) : list string :=
  match es with
  | [] => []
  | FetchedGemini k _ :: es' => k :: geminiKeys es'
  | _ :: es' => geminiKeys es'
  end.

(** A call started in a world that satisfies [P] ends with an outcome
    and in a world that satisfy [Q]. *)
Definition triple {A : Type} (P : world -> Prop) (c : M A)
    (Q : outcome A -> world -> Prop) : Prop :=
  forall w, P w -> Q (fst (c w)) (snd (c w)).

(** The failed set holds keys of the list only. *)
Definition failedWithin (keys : list string) (w : world) : Prop :=
  forall k, k ∈ failedKeys w -> k ∈ keys.

(** A text without a dollar sign, which [replace] copies as it is. *)
Definition noDollar (s : string) : bool :=
  allChars (fun c => negb (Ascii.eqb c "$")) s.

(** Every key after the first differs from the first. *)
Definition laterDiffer (ks : list string) : Prop :=
  match ks with
  | [] => True
  | first :: later => Forall (fun k => k <> first) later
  end.

(** Whether the first image among the assets carries data, that is,
    whether the router attempts the pre-processing. *)
Definition carriesData (assets : list asset) : bool :=
  match Router.imageData (List.find isImage assets) with
  | Some _ => true
  | None => false
  end.

(** [v.a.b] is truthy. *)
Definition truthyAt (a b : string) (v : json) : bool :=
  Json.truthyOpt (Json.getOpt b (Json.get a v)).

(** The keys a retry loop uses, when the pool has a key other than the
    first one: the first round uses the first key, every later round
    another one. *)
Definition keysOfRounds (apiKey : string) (attempt : nat) (ks : list string) : Prop :=
  if attempt =? 0 then
    match ks with
    | [] => True
    | first :: later => first = apiKey /\ Forall (fun k => k <> apiKey) later
    end
  else Forall (fun k => k <> apiKey) ks.

(** A character of a session id: a capital letter or a digit. *)
Definition isIdChar (c : ascii) : bool := Js.isUpper c || Js.isDigit c.

(** A property list as an object has it: no name twice. *)
Definition distinctNames (props : list (string * json)) : Prop :=
  NoDup (List.map fst props).

(** The tabs are in order: no file is open twice, and the active file,
    if there is one, is among the open files. *)
Definition tabsInOrder (t : Editor.tabs) : Prop :=
  NoDup (Editor.openFiles t)
  /\ forall a, Editor.activeFileId t = Some a -> a ∈ Editor.openFiles t.

(** The answer is a 429. *)
Definition rateLimited (a : response) : bool :=
  match a with
  | Http status _ => status =? 429
  | NetworkFailure _ => false
  end.

(** What an entry of the file tree holds itself, its children apart. *)
Definition ownFields (file : Editor.node)
  : string * string * string * string * option string * option string :=
  (Editor.id file, Editor.name file, Editor.path file, Editor.type file,
   Editor.language file, Editor.content file).

(** Every character of a class replaced by a text. *)
Fixpoint substitute (p : ascii -> bool) (repl : string) (s : string) : string :=
  match s with
  | EmptyString => EmptyString
  | String c s' =>
      (if p c then repl else String c EmptyString) +:+ substitute p repl s'
  end.

(** Every maximal run of characters of a class replaced by a text;
    [inRun] tells that the run has begun. *)
Fixpoint squeezeFrom (p : ascii -> bool) (repl : string) (inRun : bool) (s : string)
  : string :=
  match s with
  | EmptyString => EmptyString
  | String c s' =>
      if p c then
        (if inRun then EmptyString else repl) +:+ squeezeFrom p repl true s'
      else String c (squeezeFrom p repl false s')
  end.

Definition squeeze (p : ascii -> bool) (repl : string) (s : string) : string :=
  squeezeFrom p repl false s.

(** A text without one leading and without one trailing occurrence of a
    character. *)
Definition stripLeading (c : ascii) (s : string) : string :=
  match s with
  | String x s' => if Ascii.eqb x c then s' else s
  | EmptyString => EmptyString
  end.

Fixpoint stripTrailing (c : ascii) (s : string) : string :=
  match s with
  | EmptyString => EmptyString
  | String x EmptyString => if Ascii.eqb x c then EmptyString else s
  | String x s' => String x (stripTrailing c s')
  end.

(** The characters a file name may hold. *)
Definition isNameChar (c : ascii) : bool :=
  Js.isLower c || Js.isUpper c || Js.isDigit c || Js.ascii_eqb c "_" || Js.ascii_eqb c "-".

(** No two adjacent occurrences of a character. *)
Fixpoint noDouble (c : ascii) (s : string) : bool :=
  match s with
  | String x ((String y _) as s') => negb (Ascii.eqb x c && Ascii.eqb y c) && noDouble c s'
  | _ => true
  end.

(** The last character of a text is not in a class. *)
Fixpoint endsOutside (p : ascii -> bool) (s : string) : bool :=
  match s with
  | EmptyString => true
  | String x EmptyString => negb (p x)
  | String _ s' => endsOutside p s'
  end.

(** What a call of the chatbot resolves to: a failure with an error
    message and no reply, or a success that carries the reply and what
    [parseCodeModifications] reads from it. *)
Definition chatShape (r : Chatbot.chatResult) : Prop :=
  if Chatbot.success r
  then Chatbot.error r = None
       /\ exists reply,
            Chatbot.message r = Some reply
            /\ Chatbot.hasCodeChanges r
               = Some (Chatbot.hasChanges (Chatbot.parseCodeModifications reply))
            /\ Chatbot.modifiedHtml r = Chatbot.html (Chatbot.parseCodeModifications reply)
            /\ Chatbot.modifiedCss r = Chatbot.css (Chatbot.parseCodeModifications reply)
  else Chatbot.message r = None
       /\ exists m, Chatbot.error r = Some m /\ m <> "".

(** The characters of a word of a title: letters, digits and hyphens. *)
Definition isPartChar (c : ascii) : bool :=
  Js.isLower c || Js.isUpper c || Js.isDigit c || Js.ascii_eqb c "-".

(** A part of a title: not empty, and of such characters. *)
Definition isPart (s : string) : bool := Js.truthy s && allChars isPartChar s.


(** A response made of fenced blocks.  A block, with the text in front
    of it, is written as that text, three backticks, a tag, white space,
    a body and three backticks; the response ends with a closing text. *)
Module Fenced.

Record block : Type := Block {
  lead : string;     (* the text in front of the opening fence *)
  tag : string;      (* the language tag, possibly empty *)
  space : string;    (* the white space after the tag *)
  body : string;     (* the code, up to the closing fence *)
}.

Definition blockText (b : block) : string :=
  lead b +:+ "```" +:+ tag b +:+ space b +:+ body b +:+ "```".

Fixpoint text (blocks : list block) (closing : string) : string :=
  match blocks with
  | [] => closing
  | b :: blocks' => blockText b +:+ text blocks' closing
  end.


(** The first block whose tag is [lang], in whatever case. *)
Definition firstTagged (lang : string) (blocks : list block) : option block :=
  List.find (fun b => String.eqb (Js.toLowerCase (tag b)) lang) blocks.


End Fenced.

(* ===================================================================== *)
(** ** Sample inputs *)
(* ===================================================================== *)

Module Sample.

(** A 2xx answer carrying [text]. *)
Definition answer (text : string) : response := Http 200 (Json None (Text text)).

(** An environment with the given Gemini key list in which both providers
    always answer 200 with the same text, the Space is down, nothing
    parses as JSON and no file marker is ever found. *)
Definition environmentWith (keys text : string) : environment :=
  Environment keys "sk-sample" (fun _ => Draw 0 0)
    (fun _ _ => answer text) (fun _ => answer text)
    (fun _ _ => Throw "Space unreachable")
    (fun _ => None) (fun _ => []) (fun _ => Throw "not available").

(** A response with a short page and a short style sheet, properly
    fenced and tagged. *)
Definition shortPair : string :=
  "```html" +:+ Js.nl +:+ "<p>hi</p>" +:+ Js.nl +:+ "```" +:+ Js.nl +:+
  "```css" +:+ Js.nl +:+ "p{}" +:+ Js.nl +:+ "```".


(** A page of 120 characters and a style sheet of 60. *)
Fixpoint repeat (s : string) (n : nat) : string :=
  match n with 0 => "" | S n' => s +:+ repeat s n' end.

Definition longHtml : string := "<main>" +:+ repeat "<p>ab</p>" 12 +:+ "</main>".
Definition longCss : string := repeat "p{color:red} " 5.

Definition longPair : string :=
  "```html" +:+ Js.nl +:+ longHtml +:+ Js.nl +:+ "```" +:+ Js.nl +:+
  "```css" +:+ Js.nl +:+ longCss +:+ Js.nl +:+ "```".

(** Two design specifications as the optimiser's model writes them, one
    complete and one without its colors, and a [JSON.parse] that knows
    exactly these two texts. *)
Definition completeJson : string :=
  "{" +:+ Gemini.q +:+ "layout" +:+ Gemini.q +:+ ":{}," +:+
  Gemini.q +:+ "colors" +:+ Gemini.q +:+ ":{}}".
Definition layoutOnlyJson : string :=
  "{" +:+ Gemini.q +:+ "layout" +:+ Gemini.q +:+ ":{}}".

Definition parseDesign (text : string) : option json :=
  if String.eqb text completeJson then Some (JObj [("layout", JObj []); ("colors", JObj [])])
  else if String.eqb text layoutOnlyJson then Some (JObj [("layout", JObj [])])
  else None.

(** The two-section output of the optimiser's model around a JSON text. *)
Definition optimizerOutput (jsonText : string) : string :=
  "---TEXT---" +:+ Js.nl +:+ "A dark portfolio page." +:+ Js.nl +:+ Js.nl +:+
  "---JSON---" +:+ Js.nl +:+ jsonText.

(** As [environmentWith], with [parseDesign] for [JSON.parse]. *)
Definition designEnvironment (keys text : string) : environment :=
  Environment keys "sk-sample" (fun _ => Draw 0 0)
    (fun _ _ => answer text) (fun _ => answer text)
    (fun _ _ => Throw "Space unreachable")
    parseDesign (fun _ => []) (fun _ => Throw "not available").

(** One key, and a model that always writes the complete design; the
    result of an optimise request in that environment. *)
Definition completeEnvironment : environment :=
  designEnvironment "A" (optimizerOutput completeJson).

Definition successfulResult : Gemini.optimizeResult :=
  Gemini.OptimizeResult true None "A dark portfolio page."
    (Some (JObj [("layout", JObj []); ("colors", JObj [])]))
    "dark portfolio hero section" (Some 0) (optimizerOutput completeJson).

(** One key, and a model that always leaves the colors out. *)
Definition incompleteEnvironment : environment :=
  designEnvironment "A" (optimizerOutput layoutOnlyJson).

(** One key, and a model that always writes [longPair]; the result of a
    flat generation in that environment. *)
Definition longEnvironment : environment := environmentWith "A" longPair.

Definition flatResult : generation :=
  flatSuccess longHtml (Js.trim longCss) longPair 0 false.

(** An attached image. *)
Definition image : asset := Asset "image" (Some "data:image/png;base64,iVBORw0KGgo=").

(** A full document without [</head>] and without [<body]. *)
Definition bareDocument : string := "<html><p>hello</p></html>".


(** A response with a stray fence in its first sentence, in front of an
    html block and a css block. *)
Definition strayFence : string :=
  "Use ``` to open a block." +:+ Js.nl +:+ shortPair.

(** Three keys and a provider that rate-limits the first request and
    answers every later one with [longPair]. *)
Definition throttledEnvironment : environment :=
  Environment "A,B,C" "sk-sample" (fun _ => Draw 0 0)
    (fun n _ => if n =? 0 then Http 429 (NotJson "Too Many Requests") else answer longPair)
    (fun _ => answer longPair)
    (fun _ _ => Throw "Space unreachable")
    (fun _ => None) (fun _ => []) (fun _ => Throw "not available").

End Sample.

(* ===================================================================== *)
(** ** The credential pool *)
(* ===================================================================== *)

Lemma floorMul_lt (d : draw) (n : nat) : 0 < n -> floorMul d n < n.
Proof.
  intros Hn. unfold floorMul.
  apply Nat.Div0.div_lt_upper_bound. nia.
Qed.

Section PoolFacts.

Variable keys : list string.
Variable E : environment.

(** A random pick from a non-empty array is one of its elements. *)
Lemma pickRandom_elem (arr : list string) (w : world) :
  arr <> [] ->
  exists k, fst (Pool.pickRandom E arr w) = Return (Some k) /\ k ∈ arr.
Proof.
  intros Hne. unfold Pool.pickRandom, bind, mathRandom, ret. simpl.
  assert (Hlt : floorMul (random E (randomsDrawn w)) (length arr) < length arr).
  { apply floorMul_lt. destruct arr; [congruence | simpl; lia]. }
  destruct (lookup_lt_is_Some_2 arr _ Hlt) as [k Hk].
  exists k. rewrite Hk. split; [reflexivity |].
  eapply list_elem_of_lookup_2; eauto.
Qed.

Lemma elem_of_bool_filter (f : string -> bool) (l : list string) (k : string) :
  k ∈ List.filter f l <-> k ∈ l /\ f k = true.
Proof. rewrite !list_elem_of_In. apply filter_In. Qed.

Lemma length_zero_nil {A} (l : list A) : (length l =? 0) = true <-> l = [].
Proof. rewrite Nat.eqb_eq. destruct l; simpl; split; congruence. Qed.

(** Whatever [getRandomKey] returns from a non-empty pool is a member of
    the pool. *)
Lemma getRandomKey_elem (excludeKey : option string) (w : world) :
  keys <> [] ->
  exists k, fst (Pool.getRandomKey keys E excludeKey w) = Return (Some k) /\ k ∈ keys.
Proof.
  intros Hne. unfold Pool.getRandomKey.
  destruct (length keys =? 0) eqn:Hk.
  { apply length_zero_nil in Hk. contradiction. }
  match goal with |- context [length ?a =? 0] => destruct (length a =? 0) eqn:Ha end.
  - unfold bind, Pool.clearFailed. cbv beta iota.
    match goal with |- context [length ?a =? 0] => destruct (length a =? 0) eqn:Hr end.
    + destruct keys as [|k0 ks]; [contradiction |].
      exists k0. split; [reflexivity | left].
    + match goal with |- context [Pool.pickRandom E ?a ?w0] =>
        destruct (pickRandom_elem a w0) as (k & Hk1 & Hk2) end.
      { intros Hnil. apply length_zero_nil in Hnil. congruence. }
      exists k. split; [exact Hk1 |].
      apply elem_of_bool_filter in Hk2. tauto.
  - match goal with |- context [Pool.pickRandom E ?a ?w0] =>
      destruct (pickRandom_elem a w0) as (k & Hk1 & Hk2) end.
    { intros Hnil. apply length_zero_nil in Hnil. congruence. }
    exists k. split; [exact Hk1 |].
    apply elem_of_bool_filter in Hk2. tauto.
Qed.

End PoolFacts.

(** C8.  Whenever the pool holds a credential other than [x], selection
    with [x] excluded yields a member of the pool different from [x] (so
    never [x] itself), whatever the failed set is, on the direct path as
    on the path that clears the failed set and selects again. *)
Theorem getRandomKey_never_excluded (keys : list string) (E : environment)
    (x : string) (w : world) :
  (exists k, k ∈ keys /\ k <> x) ->
  exists k, fst (Pool.getRandomKey keys E (Some x) w) = Return (Some k)
            /\ k ∈ keys /\ k <> x.
Proof.
  intros (k0 & Hin & Hneq).
  assert (Hne : keys <> []) by (intros ->; inversion Hin).
  assert (Hreset : List.filter (fun k => differs k (Some x)) keys <> []).
  { intros Hnil.
    assert (Hk0 : k0 ∈ List.filter (fun k => differs k (Some x)) keys).
    { apply elem_of_bool_filter. split; [exact Hin |].
      simpl. apply negb_true_iff, String.eqb_neq. exact Hneq. }
    rewrite Hnil in Hk0. inversion Hk0. }
  unfold Pool.getRandomKey.
  destruct (length keys =? 0) eqn:Hk.
  { apply length_zero_nil in Hk. contradiction. }
  assert (Hpick : forall (f : string -> bool) w0,
             (forall k, f k = true -> differs k (Some x) = true) ->
             List.filter f keys <> [] ->
             exists k, fst (Pool.pickRandom E (List.filter f keys) w0) = Return (Some k)
                       /\ k ∈ keys /\ k <> x).
  { intros f w0 Hf Hnn.
    destruct (pickRandom_elem E (List.filter f keys) w0 Hnn) as (k & Hk1 & Hk2).
    exists k. split; [exact Hk1 |].
    apply elem_of_bool_filter in Hk2 as [Hk2 Hk3]. split; [exact Hk2 |].
    apply Hf in Hk3. simpl in Hk3.
    apply negb_true_iff, String.eqb_neq in Hk3. exact Hk3. }
  match goal with |- context [length ?a =? 0] => destruct (length a =? 0) eqn:Ha end.
  - unfold bind, Pool.clearFailed. cbv beta iota.
    match goal with |- context [length ?a =? 0] => destruct (length a =? 0) eqn:Hr end.
    { apply length_zero_nil in Hr. contradiction. }
    apply Hpick; [tauto | exact Hreset].
  - apply Hpick.
    + intros k Hk'. apply andb_true_iff in Hk'. tauto.
    + intros Hnil. apply length_zero_nil in Hnil. congruence.
Qed.

Lemma getRandomKey_never_excluded_witness :
  exists k, fst (Pool.getRandomKey ["A"; "B"] (Sample.environmentWith "A,B" "")
                   (Some "A") (World {["B"]} 0 0 0 0 []))
            = Return (Some k) /\ k ∈ ["A"; "B"] /\ k <> "A".
Proof.
  apply getRandomKey_never_excluded.
  exists "B". split; [set_solver | discriminate].
Defined.

(** C3, as the specification words it, fails: with a pool that holds only
    the excluded credential, both sets of the claim are empty and yet the
    selection returns that credential. *)
Lemma getRandomKey_only_excluded_counterexample :
  let keys := ["A"] in
  let w := initialWorld in
  List.filter (fun k => negb (bool_decide (k ∈ failedKeys w)) && differs k (Some "A")) keys = []
  /\ List.filter (fun k => differs k (Some "A")) keys = []
  /\ fst (Pool.getRandomKey keys (Sample.environmentWith "A" "") (Some "A") w)
     = Return (Some "A")
  /\ fst (Pool.getRandomKey keys (Sample.environmentWith "A" "") (Some "A") w)
     <> Return None.
Proof. vm_compute. repeat split; discriminate. Qed.

(** C3, amended.  When the pool minus the excluded credential is empty,
    selection returns the first credential of the pool if there is one,
    having cleared the failed set, and NONE exactly when the pool itself
    is empty. *)
Theorem getRandomKey_pool_exhausted (keys : list string) (E : environment)
    (excludeKey : option string) (w : world) :
  List.filter (fun k => differs k excludeKey) keys = [] ->
  let r := Pool.getRandomKey keys E excludeKey w in
  fst r = Return (keys !! 0)
  /\ (fst r = Return None <-> keys = [])
  /\ (keys <> [] -> failedKeys (snd r) = ∅).
Proof.
  intros Hreset r. subst r. unfold Pool.getRandomKey.
  destruct (length keys =? 0) eqn:Hk.
  { apply length_zero_nil in Hk. subst keys. simpl.
    repeat split; try tauto. }
  assert (Hne : keys <> []).
  { intros Hnil. apply length_zero_nil in Hnil. congruence. }
  assert (Ha : List.filter
                 (fun k => negb (bool_decide (k ∈ failedKeys w)) && differs k excludeKey)
                 keys = []).
  { clear Hk Hne. induction keys as [|k ks IH]; [reflexivity |].
    simpl in Hreset. simpl.
    destruct (differs k excludeKey); [discriminate |].
    rewrite andb_false_r. apply IH. exact Hreset. }
  rewrite Ha, Hreset. simpl.
  destruct keys as [|k0 ks]; [contradiction |]. simpl.
  repeat split; try discriminate; try tauto.
Qed.

Lemma getRandomKey_pool_exhausted_witness :
  let r := Pool.getRandomKey ["A"] (Sample.environmentWith "A" "") (Some "A")
             (World {["A"]} 0 0 0 0 []) in
  fst r = Return (Some "A")
  /\ (fst r = Return None <-> ["A"] = [])
  /\ (["A"] <> [] -> failedKeys (snd r) = ∅).
Proof.
  apply (getRandomKey_pool_exhausted ["A"] (Sample.environmentWith "A" "")
           (Some "A") (World {["A"]} 0 0 0 0 [])).
  reflexivity.
Defined.

(* ===================================================================== *)
(** ** The live preview *)
(* ===================================================================== *)

(** C10.  A page that announces a full document ([<!DOCTYPE] or [<html])
    but has neither [</head>] nor [<body] is returned as it is: the style
    sheet is not injected anywhere. *)
Theorem compileLivePreview_drops_css (html css : string) :
  Js.includes "<!DOCTYPE" html = true \/ Js.includes "<html" html = true ->
  Js.includes "</head>" html = false ->
  Js.includes "<body" html = false ->
  Gemini.compileLivePreview html css = html.
Proof.
  intros Hdoc Hhead Hbody. unfold Gemini.compileLivePreview.
  rewrite Hhead, Hbody.
  destruct Hdoc as [-> | ->]; rewrite ?orb_true_r; simpl; destruct (Js.truthy css); reflexivity.
Qed.

Lemma compileLivePreview_drops_css_witness :
  Gemini.compileLivePreview Sample.bareDocument "p { color: red; }" = Sample.bareDocument.
Proof.
  apply compileLivePreview_drops_css; [right | |]; reflexivity.
Defined.

(* ===================================================================== *)
(** ** The output parser *)
(* ===================================================================== *)


Lemma taggedStep_fold (blocks : list Gemini.codeBlock) :
  forall html css H C,
    slotFilledBy "html" html blocks H ->
    slotFilledBy "css" css blocks C ->
    List.fold_left Gemini.taggedStep blocks (html, css) = (H, C).
Proof.
  induction blocks as [|b bs IH]; intros html css H C Hh Hc.
  - destruct Hh as [[_ ->] | (_ & b & Hb & _)]; [| discriminate].
    destruct Hc as [[_ ->] | (_ & b & Hb & _)]; [| discriminate].
    reflexivity.
  - simpl.
    destruct (String.eqb (Gemini.blockLanguage b) "html") eqn:Lh.
    + assert (Lc : String.eqb (Gemini.blockLanguage b) "css" = false).
      { apply String.eqb_eq in Lh. rewrite Lh. reflexivity. }
      rewrite Lc. simpl.
      destruct Hh as [[Ht ->] | (-> & bh & Hb & Ht & ->)].
      * rewrite Ht. simpl. apply IH.
        -- left. split; [exact Ht | reflexivity].
        -- destruct Hc as [[Hct ->] | (-> & bc & Hb & Hct & ->)].
           ++ left. split; [exact Hct | reflexivity].
           ++ right. split; [reflexivity |]. exists bc.
              unfold firstTagged in *. simpl in Hb. rewrite Lc in Hb.
              repeat split; assumption.
      * simpl. unfold firstTagged in Hb. simpl in Hb. rewrite Lh in Hb.
        injection Hb as <-. apply IH.
        -- left. split; [exact Ht | reflexivity].
        -- destruct Hc as [[Hct ->] | (-> & bc & Hb & Hct & ->)].
           ++ left. split; [exact Hct | reflexivity].
           ++ right. split; [reflexivity |]. exists bc.
              unfold firstTagged in *. simpl in Hb. rewrite Lc in Hb.
              repeat split; assumption.
    + simpl.
      assert (Hh' : slotFilledBy "html" html bs H).
      { destruct Hh as [[Ht ->] | (-> & bh & Hb & Ht & ->)].
        - left. split; [exact Ht | reflexivity].
        - right. split; [reflexivity |]. exists bh.
          unfold firstTagged in *. simpl in Hb. rewrite Lh in Hb.
          repeat split; assumption. }
      destruct (String.eqb (Gemini.blockLanguage b) "css") eqn:Lc.
      * simpl. destruct Hc as [[Hct ->] | (-> & bc & Hb & Hct & ->)].
        -- rewrite Hct. simpl. apply IH; [exact Hh' |].
           left. split; [exact Hct | reflexivity].
        -- simpl. unfold firstTagged in Hb. simpl in Hb. rewrite Lc in Hb.
           injection Hb as <-. apply IH; [exact Hh' |].
           left. split; [exact Hct | reflexivity].
      * simpl. apply IH; [exact Hh' |].
        destruct Hc as [[Hct ->] | (-> & bc & Hb & Hct & ->)].
        -- left. split; [exact Hct | reflexivity].
        -- right. split; [reflexivity |]. exists bc.
           unfold firstTagged in *. simpl in Hb. rewrite Lc in Hb.
           repeat split; assumption.
Qed.

(** *** The scanner on a synthetic response *)

Section Scanner.

Import Regex.

Lemma append_cons (c : ascii) (s t : string) : String c s +:+ t = String c (s +:+ t).
Proof. reflexivity. Qed.

Lemma append_nil_l (t : string) : "" +:+ t = t.
Proof. reflexivity. Qed.

Lemma append_length (s t : string) :
  String.length (s +:+ t) = String.length s + String.length t.
Proof. induction s as [|c s IH]; [reflexivity |]. rewrite append_cons. simpl. rewrite IH. reflexivity. Qed.

Lemma append_assoc (a b c : string) : (a +:+ b) +:+ c = a +:+ b +:+ c.
Proof. induction a as [|x a IH]; [reflexivity |]. rewrite !append_cons, IH. reflexivity. Qed.

Lemma run_Chr (p : ascii -> bool) (k : mstate -> option mstate) (s : mstate) :
  run (Chr p) k s
  = match rest s with
    | String c t => if p c then k (MState (S (pos s)) t (caps s)) else None
    | EmptyString => None
    end.
Proof. reflexivity. Qed.

Lemma run_Cat (r1 r2 : regex) (k : mstate -> option mstate) (s : mstate) :
  run (Cat r1 r2) k s = run r1 (run r2 k) s.
Proof. reflexivity. Qed.

Lemma run_Alt (r1 r2 : regex) (k : mstate -> option mstate) (s : mstate) :
  run (Alt r1 r2) k s = orelse (run r1 k s) (run r2 k s).
Proof. reflexivity. Qed.

Lemma run_Star (g : bool) (r1 : regex) (k : mstate -> option mstate) (s : mstate) :
  run (Star g r1) k s = starLoop g (run r1) k (S (String.length (rest s))) s.
Proof. reflexivity. Qed.

Lemma run_Group (n : nat) (r1 : regex) (k : mstate -> option mstate) (s : mstate) :
  run (Group n r1) k s
  = run r1 (fun s' => k (MState (pos s') (rest s') ((n, (pos s, pos s')) :: caps s'))) s.
Proof. reflexivity. Qed.

(** A literal that is a prefix of what is left is consumed. *)
Lemma run_lit (s t : string) :
  forall k st, rest st = s +:+ t ->
    run (lit s) k st = k (MState (pos st + String.length s) t (caps st)).
Proof.
  induction s as [|c s IH]; intros k st H.
  - rewrite append_nil_l in H. cbn [lit run String.length].
    destruct st as [p r cs]. cbn in *. subst r. rewrite Nat.add_0_r. reflexivity.
  - rewrite append_cons in H. cbn [lit]. rewrite run_Cat. unfold chr. rewrite run_Chr, H.
    unfold Js.ascii_eqb. rewrite Ascii.eqb_refl.
    rewrite (IH k (MState (S (pos st)) (s +:+ t) (caps st)) eq_refl).
    cbn [pos caps String.length]. rewrite Nat.add_succ_r. reflexivity.
Qed.

(** A literal fails on a text that begins with another character. *)
Lemma run_lit_mismatch (c : ascii) (s : string) (k : mstate -> option mstate) (st : mstate) :
  match rest st with
  | String d _ => Ascii.eqb c d = false
  | EmptyString => True
  end ->
  run (lit (String c s)) k st = None.
Proof.
  intros H. cbn [lit]. rewrite run_Cat. unfold chr. rewrite run_Chr.
  destruct (rest st) as [|d t]; [reflexivity |].
  unfold Js.ascii_eqb. rewrite H. reflexivity.
Qed.

Lemma starLoop_S (g : bool) (body : (mstate -> option mstate) -> mstate -> option mstate)
    (k : mstate -> option mstate) (fuel : nat) (s : mstate) :
  starLoop g body k (S fuel) s
  = let again :=
      body (fun s' => if pos s' <=? pos s then None else starLoop g body k fuel s') s in
    if g then orelse again (k s) else orelse (k s) again.
Proof. reflexivity. Qed.

(** A greedy star over a class consumes a maximal run, if the
    continuation succeeds after it. *)
Lemma starLoop_greedy_class (p : ascii -> bool) (k : mstate -> option mstate)
    (t : string) (r : mstate) :
  forall w fuel st,
    String.length w < fuel ->
    rest st = w +:+ t ->
    allChars p w = true ->
    stopsAt p t = true ->
    k (MState (pos st + String.length w) t (caps st)) = Some r ->
    starLoop true (run (Chr p)) k fuel st = Some r.
Proof.
  induction w as [|c w IH]; intros fuel st Hfuel Hrest Hall Hstop Hk.
  - destruct fuel as [|fuel]; [simpl in Hfuel; lia |].
    rewrite append_nil_l in Hrest. rewrite starLoop_S. cbv zeta. rewrite run_Chr.
    rewrite Hrest.
    assert (Hk' : k st = Some r).
    { destruct st as [q rs cs]. cbn in *. subst rs. rewrite Nat.add_0_r in Hk. exact Hk. }
    destruct t as [|d t']; cbn [orelse].
    + exact Hk'.
    + simpl in Hstop. apply negb_true_iff in Hstop. rewrite Hstop. exact Hk'.
  - destruct fuel as [|fuel]; [simpl in Hfuel; lia |].
    rewrite append_cons in Hrest. rewrite starLoop_S. cbv zeta. rewrite run_Chr. rewrite Hrest.
    simpl in Hall. apply andb_true_iff in Hall as [Hc Hall]. rewrite Hc.
    cbn [pos]. replace (S (pos st) <=? pos st) with false
      by (symmetry; apply Nat.leb_gt; lia).
    rewrite (IH fuel (MState (S (pos st)) (w +:+ t) (caps st))); cbn [pos rest caps orelse].
    + reflexivity.
    + simpl in Hfuel. lia.
    + reflexivity.
    + exact Hall.
    + exact Hstop.
    + cbn [String.length] in Hk. rewrite Nat.add_succ_r in Hk. exact Hk.
Qed.

(** A lazy star over any character stops at the first place where the
    continuation succeeds. *)
Lemma starLoop_lazy_any (k : mstate -> option mstate) (t : string) (r : mstate) :
  forall b fuel st,
    String.length b < fuel ->
    rest st = b +:+ t ->
    (forall b1 c b2, b = b1 +:+ String c b2 ->
       k (MState (pos st + String.length b1) (String c b2 +:+ t) (caps st)) = None) ->
    k (MState (pos st + String.length b) t (caps st)) = Some r ->
    starLoop false (run any) k fuel st = Some r.
Proof.
  induction b as [|c b IH]; intros fuel st Hfuel Hrest Hmid Hend.
  - destruct fuel as [|fuel]; [simpl in Hfuel; lia |].
    rewrite starLoop_S. cbv zeta.
    assert (Hk : k st = Some r).
    { destruct st as [q rs cs]. cbn in *. subst rs. rewrite Nat.add_0_r in Hend. exact Hend. }
    rewrite Hk. reflexivity.
  - destruct fuel as [|fuel]; [simpl in Hfuel; lia |].
    rewrite starLoop_S. cbv zeta.
    assert (Hk : k st = None).
    { specialize (Hmid "" c b eq_refl). rewrite append_cons in Hrest.
      destruct st as [q rs cs]. cbn in *. subst rs. rewrite Nat.add_0_r in Hmid. exact Hmid. }
    rewrite Hk. cbn [orelse]. unfold any at 1. rewrite run_Chr.
    rewrite append_cons in Hrest. rewrite Hrest. cbn [pos].
    replace (S (pos st) <=? pos st) with false by (symmetry; apply Nat.leb_gt; lia).
    apply (IH fuel (MState (S (pos st)) (b +:+ t) (caps st))); cbn [pos rest caps].
    + simpl in Hfuel. lia.
    + reflexivity.
    + intros b1 d b2 Hb. specialize (Hmid (String c b1) d b2).
      rewrite append_cons, Hb in Hmid. specialize (Hmid eq_refl).
      cbn [String.length] in Hmid. rewrite Nat.add_succ_r in Hmid. exact Hmid.
    + cbn [String.length] in Hend. rewrite Nat.add_succ_r in Hend. exact Hend.
Qed.

Lemma noBacktick_split (b1 b2 : string) (c : ascii) :
  noBacktick (b1 +:+ String c b2) = true -> Ascii.eqb "`" c = false.
Proof.
  induction b1 as [|d b1 IH]; intros H.
  - rewrite append_nil_l in H. simpl in H. apply andb_true_iff in H as [H _].
    apply negb_true_iff in H. rewrite Ascii.eqb_sym. exact H.
  - rewrite append_cons in H. simpl in H. apply andb_true_iff in H as [_ H]. auto.
Qed.

Lemma run_Eps (k : mstate -> option mstate) (s : mstate) : run Eps k s = k s.
Proof. reflexivity. Qed.

Lemma whitespace_LF : Js.isWhiteSpace Js.LF = true.
Proof. reflexivity. Qed.

Lemma stopsAt_not_LF (t : string) (k : mstate -> option mstate) (st : mstate) :
  rest st = t -> stopsAt Js.isWhiteSpace t = true ->
  run (chr Js.LF) k st = None.
Proof.
  intros Hrest Hstop. unfold chr. rewrite run_Chr, Hrest.
  destruct t as [|c t']; [reflexivity |].
  simpl in Hstop. apply negb_true_iff in Hstop.
  unfold Js.ascii_eqb. destruct (Ascii.eqb Js.LF c) eqn:Heq; [| reflexivity].
  apply Ascii.eqb_eq in Heq. subst c. rewrite whitespace_LF in Hstop. discriminate.
Qed.

Lemma blockTail_matches (w body post : string) (st : mstate) :
  rest st = w +:+ body +:+ "```" +:+ post ->
  allChars Js.isWhiteSpace w = true ->
  stopsAt Js.isWhiteSpace (body +:+ "```" +:+ post) = true ->
  noBacktick body = true ->
  run blockTail Some st
  = Some (MState (pos st + String.length w + String.length body + 3) post
            ((2, (pos st + String.length w,
                  pos st + String.length w + String.length body)) :: caps st)).
Proof.
  intros Hrest Hw Hstop Hbody.
  unfold blockTail. cbn [seq]. rewrite run_Cat. unfold ws at 1. rewrite run_Star.
  apply (starLoop_greedy_class Js.isWhiteSpace _ (body +:+ "```" +:+ post) _ w).
  - rewrite Hrest, append_length. lia.
  - exact Hrest.
  - exact Hw.
  - exact Hstop.
  - rewrite run_Cat. unfold opt. rewrite run_Alt.
    rewrite (stopsAt_not_LF (body +:+ "```" +:+ post)); [| reflexivity | exact Hstop].
    cbn [orelse]. rewrite run_Eps, run_Cat, run_Group. unfold any at 1. rewrite run_Star.
    fold any. cbn [pos rest caps].
    apply (starLoop_lazy_any _ ("```" +:+ post) _ body).
    + rewrite append_length. lia.
    + reflexivity.
    + intros b1 c b2 Hb. cbn [pos rest caps].
      apply run_lit_mismatch. cbn [rest]. rewrite append_cons.
      rewrite Hb in Hbody. exact (noBacktick_split _ _ _ Hbody).
    + cbn [pos rest caps].
      rewrite (run_lit "```" post); [| reflexivity].
      cbn [pos caps String.length]. repeat f_equal; lia.
Qed.

Lemma codeBlockRegex_split :
  Gemini.codeBlockRegex
  = Cat (lit "```") (Cat (opt (Group 1 (plus word))) blockTail).
Proof. reflexivity. Qed.

(** A fence, a tag, white space, a body without backticks that starts
    with something else than white space, a fence: one code block. *)
Lemma codeBlock_matches (c : ascii) (tag' w body post : string) (st : mstate) :
  rest st = "```" +:+ String c tag' +:+ w +:+ body +:+ "```" +:+ post ->
  allChars Js.isWordChar (String c tag') = true ->
  stopsAt Js.isWordChar (w +:+ body +:+ "```" +:+ post) = true ->
  allChars Js.isWhiteSpace w = true ->
  stopsAt Js.isWhiteSpace (body +:+ "```" +:+ post) = true ->
  noBacktick body = true ->
  let a := pos st + 3 + String.length (String c tag') in
  run Gemini.codeBlockRegex Some st
  = Some (MState (a + String.length w + String.length body + 3) post
            ((2, (a + String.length w, a + String.length w + String.length body))
             :: (1, (pos st + 3, a)) :: caps st)).
Proof.
  intros Hrest Htag Hstopw Hw Hstop Hbody a.
  rewrite codeBlockRegex_split, run_Cat.
  rewrite (run_lit "```" (String c tag' +:+ w +:+ body +:+ "```" +:+ post)); [| exact Hrest].
  cbn [String.length]. rewrite run_Cat. unfold opt. rewrite run_Alt, run_Group.
  unfold plus. rewrite run_Cat. unfold word at 1. rewrite run_Chr. cbn [rest pos caps].
  rewrite append_cons.
  cbn [allChars] in Htag. apply andb_true_iff in Htag as [Hc Htag]. rewrite Hc.
  unfold word. rewrite run_Star. cbn [rest pos caps].
  rewrite (starLoop_greedy_class Js.isWordChar _ (w +:+ body +:+ "```" +:+ post)
             (MState (a + String.length w + String.length body + 3) post
                ((2, (a + String.length w, a + String.length w + String.length body))
                 :: (1, (pos st + 3, a)) :: caps st)) tag').
  - reflexivity.
  - rewrite append_length. lia.
  - reflexivity.
  - exact Htag.
  - exact Hstopw.
  - cbn [pos rest caps].
    rewrite (blockTail_matches w body post); [| reflexivity | exact Hw | exact Hstop | exact Hbody].
    cbn [pos caps]. subst a. cbn [String.length].
    replace (S (pos st + 3) + String.length tag') with (pos st + 3 + S (String.length tag'))
      by lia.
    reflexivity.
Qed.

Lemma drop_app (pre r : string) : Js.drop (String.length pre) (pre +:+ r) = r.
Proof. induction pre as [|c pre IH]; [reflexivity |]. rewrite append_cons. simpl. exact IH. Qed.

Lemma take_app (mid post : string) : Js.take (String.length mid) (mid +:+ post) = mid.
Proof.
  induction mid as [|c mid IH]; [destruct post; reflexivity |].
  rewrite append_cons. simpl. rewrite IH. reflexivity.
Qed.

Lemma slice_mid (pre mid post : string) (i j : nat) :
  i = String.length pre -> j = i + String.length mid ->
  Js.slice i j (pre +:+ mid +:+ post) = mid.
Proof.
  intros -> ->. unfold Js.slice. rewrite drop_app.
  replace (String.length pre + String.length mid - String.length pre)
    with (String.length mid) by lia.
  apply take_app.
Qed.

(** The scanner at the start of a block. *)
Lemma matchAt_block (pre : string) (c : ascii) (tag' w body post : string) :
  allChars Js.isWordChar (String c tag') = true ->
  stopsAt Js.isWordChar (w +:+ body +:+ "```" +:+ post) = true ->
  allChars Js.isWhiteSpace w = true ->
  stopsAt Js.isWhiteSpace (body +:+ "```" +:+ post) = true ->
  noBacktick body = true ->
  let input := pre +:+ "```" +:+ String c tag' +:+ w +:+ body +:+ "```" +:+ post in
  let a := String.length pre + 3 + String.length (String c tag') in
  exists m,
    matchAt Gemini.codeBlockRegex input (String.length pre) = Some m
    /\ index m = String.length pre
    /\ stop m = a + String.length w + String.length body + 3
    /\ group input m 1 = Some (String c tag')
    /\ group input m 2 = Some body.
Proof.
  intros Htag Hstopw Hw Hstop Hbody input a.
  unfold matchAt. subst input. rewrite drop_app.
  rewrite (codeBlock_matches c tag' w body post); cbn [rest pos caps]; auto.
  eexists. split; [reflexivity |]. cbn [index stop].
  split; [reflexivity |]. split; [reflexivity |].
  unfold group. cbn [captures List.find fst Nat.eqb].
  split; f_equal.
  - rewrite <- (append_assoc pre "```").
    apply slice_mid; rewrite ?append_length; cbn [String.length]; lia.
  - rewrite <- (append_assoc pre "```"), <- (append_assoc _ (String c tag')),
      <- (append_assoc _ w).
    apply slice_mid; rewrite ?append_length; cbn [String.length]; lia.
Qed.

(** The scanner finds no block where the text does not begin with a
    backtick. *)
Lemma matchAt_no_fence (pre r : string) :
  match r with
  | String d _ => Ascii.eqb "`" d = false
  | EmptyString => True
  end ->
  matchAt Gemini.codeBlockRegex (pre +:+ r) (String.length pre) = None.
Proof.
  intros H. unfold matchAt. rewrite drop_app.
  rewrite codeBlockRegex_split, run_Cat.
  rewrite run_lit_mismatch; [reflexivity |]. exact H.
Qed.

Lemma append_nil_r (s : string) : s +:+ "" = s.
Proof. induction s as [|c s IH]; [reflexivity |]. rewrite append_cons, IH. reflexivity. Qed.

Lemma trimStart_split (s : string) :
  exists lead, s = lead +:+ Js.trimStart s /\ allChars Js.isWhiteSpace lead = true.
Proof.
  induction s as [|c s (lead & Hs & Hlead)].
  - exists "". split; reflexivity.
  - cbn [Js.trimStart]. destruct (Js.isWhiteSpace c) eqn:Hc.
    + exists (String c lead). rewrite append_cons, <- Hs. split; [reflexivity |].
      cbn [allChars]. rewrite Hc, Hlead. reflexivity.
    + exists "". split; reflexivity.
Qed.

Lemma trimStart_stops (s x : string) :
  Js.trimStart s <> "" -> stopsAt Js.isWhiteSpace (Js.trimStart s +:+ x) = true.
Proof.
  induction s as [|c s IH]; intros H.
  - contradiction.
  - cbn [Js.trimStart] in *. destruct (Js.isWhiteSpace c) eqn:Hc.
    + apply IH. exact H.
    + rewrite append_cons. cbn [stopsAt]. rewrite Hc. reflexivity.
Qed.

Lemma trimStart_fixed (s : string) :
  stopsAt Js.isWhiteSpace s = true -> Js.trimStart s = s.
Proof.
  destruct s as [|c s]; [reflexivity |]. cbn [stopsAt Js.trimStart].
  intros H. apply negb_true_iff in H. rewrite H. reflexivity.
Qed.

Lemma trimEnd_app_ws (s : string) (d : ascii) :
  Js.isWhiteSpace d = true -> Js.trimEnd (s +:+ String d "") = Js.trimEnd s.
Proof.
  intros Hd. induction s as [|c s IH].
  - rewrite append_nil_l. cbn [Js.trimEnd]. rewrite Hd. reflexivity.
  - rewrite append_cons. cbn [Js.trimEnd]. rewrite IH. reflexivity.
Qed.

Lemma trim_nonempty_trimStart (s : string) : Js.trim s <> "" -> Js.trimStart s <> "".
Proof. unfold Js.trim. intros H Heq. rewrite Heq in H. apply H. reflexivity. Qed.

(** The body of a synthetic block trims to what the page trims to. *)
Lemma trim_block_body (s : string) :
  Js.trim s <> "" -> Js.trim (Js.trimStart s +:+ Js.nl) = Js.trim s.
Proof.
  intros H. unfold Js.trim at 1.
  rewrite trimStart_fixed by (apply trimStart_stops, trim_nonempty_trimStart, H).
  unfold Js.nl. rewrite trimEnd_app_ws by reflexivity. reflexivity.
Qed.

Lemma noBacktick_app (a b : string) :
  noBacktick (a +:+ b) = noBacktick a && noBacktick b.
Proof.
  induction a as [|c a IH]; [reflexivity |].
  rewrite append_cons. cbn [noBacktick]. rewrite IH, andb_assoc. reflexivity.
Qed.

Lemma noBacktick_trimStart (s : string) :
  noBacktick s = true -> noBacktick (Js.trimStart s) = true.
Proof.
  induction s as [|c s IH]; [reflexivity |].
  intros H. cbn [Js.trimStart]. destruct (Js.isWhiteSpace c); [| exact H].
  cbn [noBacktick] in H. apply andb_true_iff in H as [_ H]. auto.
Qed.

Lemma allFrom_S (r : regex) (input : string) (fuel i : nat) :
  allFrom r input (S fuel) i
  = match exec r input i with
    | None => []
    | Some m => m :: allFrom r input fuel (if stop m =? index m then S (stop m) else stop m)
    end.
Proof. reflexivity. Qed.

Lemma searchFrom_unfold (r : regex) (input : string) (n i : nat) :
  searchFrom r input n i
  = match matchAt r input i with
    | Some m => Some m
    | None => match n with 0 => None | S n' => searchFrom r input n' (S i) end
    end.
Proof. destruct n; reflexivity. Qed.

Lemma exec_here (r : regex) (input : string) (i : nat) (m : result) :
  i <= String.length input -> matchAt r input i = Some m -> exec r input i = Some m.
Proof.
  intros Hi Hm. unfold exec.
  replace (String.length input <? i) with false by (symmetry; apply Nat.ltb_ge; lia).
  rewrite searchFrom_unfold, Hm. reflexivity.
Qed.

Lemma exec_next (r : regex) (input : string) (i : nat) (m : result) :
  S i <= String.length input ->
  matchAt r input i = None -> matchAt r input (S i) = Some m ->
  exec r input i = Some m.
Proof.
  intros Hi Hnone Hm. unfold exec.
  replace (String.length input <? i) with false by (symmetry; apply Nat.ltb_ge; lia).
  rewrite searchFrom_unfold, Hnone.
  destruct (String.length input - i) as [|n] eqn:Hn; [lia |].
  rewrite searchFrom_unfold, Hm. reflexivity.
Qed.

Lemma exec_end (r : regex) (input : string) :
  matchAt r input (String.length input) = None ->
  exec r input (String.length input) = None.
Proof.
  intros Hnone. unfold exec. rewrite Nat.ltb_irrefl, Nat.sub_diag.
  rewrite searchFrom_unfold, Hnone. reflexivity.
Qed.

Ltac string_length := rewrite ?append_length; unfold Js.nl; cbn [String.length]; lia.

Lemma findCodeBlocks_synthetic (html css : string) :
  noBacktick html = true ->
  noBacktick css = true ->
  Js.trim html <> "" ->
  Js.trim css <> "" ->
  Gemini.findCodeBlocks (synthetic html css)
  = [Gemini.CodeBlock "html" (Js.trimStart html +:+ Js.nl);
     Gemini.CodeBlock "css" (Js.trimStart css +:+ Js.nl)].
Proof.
  intros Bh Bc Th Tc.
  pose proof (trimStart_stops html (Js.nl +:+ "```" +:+ Js.nl +:+ "```css" +:+ Js.nl +:+ css
                                      +:+ Js.nl +:+ "```")
                (trim_nonempty_trimStart _ Th)) as Sh.
  pose proof (trimStart_stops css (Js.nl +:+ "```") (trim_nonempty_trimStart _ Tc)) as Sc.
  apply noBacktick_trimStart in Bh, Bc.
  destruct (trimStart_split html) as (lead1 & Hh & Hl1).
  destruct (trimStart_split css) as (lead2 & Hc & Hl2).
  remember (Js.trimStart html) as H1 eqn:EH1.
  remember (Js.trimStart css) as C1 eqn:EC1.
  clear EH1 EC1 Th Tc.
  set (post1 := Js.nl +:+ "```css" +:+ Js.nl +:+ css +:+ Js.nl +:+ "```").
  set (pre2 := "```html" +:+ Js.nl +:+ html +:+ Js.nl +:+ "```" +:+ Js.nl).
  assert (E1 : synthetic html css
               = "" +:+ "```" +:+ String "h" "tml" +:+ (Js.nl +:+ lead1)
                 +:+ (H1 +:+ Js.nl) +:+ "```" +:+ post1).
  { unfold synthetic, post1. rewrite Hh. rewrite !append_assoc. reflexivity. }
  assert (E2 : synthetic html css
               = pre2 +:+ "```" +:+ String "c" "ss" +:+ (Js.nl +:+ lead2)
                 +:+ (C1 +:+ Js.nl) +:+ "```" +:+ "").
  { unfold synthetic, pre2. rewrite Hc. rewrite !append_assoc. reflexivity. }
  assert (E3 : synthetic html css
               = ("```html" +:+ Js.nl +:+ html +:+ Js.nl +:+ "```")
                 +:+ String Js.LF ("```css" +:+ Js.nl +:+ css +:+ Js.nl +:+ "```")).
  { unfold synthetic. rewrite !append_assoc. reflexivity. }
  destruct (matchAt_block "" "h" "tml" (Js.nl +:+ lead1) (H1 +:+ Js.nl) post1)
    as (m1 & M1 & I1 & S1 & G11 & G12).
  { reflexivity. }
  { reflexivity. }
  { unfold Js.nl. rewrite append_cons, append_nil_l. cbn [allChars]. rewrite Hl1. reflexivity. }
  { rewrite !append_assoc. exact Sh. }
  { rewrite noBacktick_app, Bh. reflexivity. }
  destruct (matchAt_block pre2 "c" "ss" (Js.nl +:+ lead2) (C1 +:+ Js.nl) "")
    as (m2 & M2 & I2 & S2 & G21 & G22).
  { reflexivity. }
  { reflexivity. }
  { unfold Js.nl. rewrite append_cons, append_nil_l. cbn [allChars]. rewrite Hl2. reflexivity. }
  { rewrite !append_assoc. exact Sc. }
  { rewrite noBacktick_app, Bc. reflexivity. }
  cbv zeta in M1, S1, G11, G12, M2, S2, G21, G22.
  rewrite <- E1 in M1, G11, G12. rewrite <- E2 in M2, G21, G22.
  set (input := synthetic html css) in *.
  assert (L : String.length input
              = 7 + 1 + String.length html + 1 + 3 + 1 + 6 + 1 + String.length css + 1 + 3).
  { subst input. unfold synthetic. string_length. }
  assert (Lh : String.length html = String.length lead1 + String.length H1)
    by (rewrite Hh; apply append_length).
  assert (Lc : String.length css = String.length lead2 + String.length C1)
    by (rewrite Hc; apply append_length).
  assert (P2 : String.length pre2 = 7 + 1 + String.length html + 1 + 3 + 1).
  { subst pre2. string_length. }
  assert (S1' : stop m1 = 7 + 1 + String.length html + 1 + 3).
  { rewrite S1. string_length. }
  assert (S2' : stop m2 = String.length input).
  { rewrite S2, L, P2. string_length. }
  assert (N1 : matchAt Gemini.codeBlockRegex input (stop m1) = None).
  { subst input. rewrite E3.
    replace (stop m1)
      with (String.length ("```html" +:+ Js.nl +:+ html +:+ Js.nl +:+ "```"))
      by (rewrite S1'; string_length).
    apply matchAt_no_fence. reflexivity. }
  assert (N2 : matchAt Gemini.codeBlockRegex input (String.length input) = None).
  { rewrite <- (append_nil_r input) at 1. apply matchAt_no_fence. exact I. }
  unfold Gemini.findCodeBlocks, matchAll.
  replace (S (String.length input)) with (S (S (S (String.length input - 2)))) by lia.
  rewrite allFrom_S, (exec_here _ _ 0 m1); [| lia | exact M1].
  replace (stop m1 =? index m1) with false
    by (symmetry; apply Nat.eqb_neq; rewrite I1, S1'; cbn [String.length]; lia).
  rewrite allFrom_S, (exec_next _ _ (stop m1) m2);
    [| rewrite S1'; lia | exact N1
     | replace (S (stop m1)) with (String.length pre2) by lia; exact M2].
  replace (stop m2 =? index m2) with false
    by (symmetry; apply Nat.eqb_neq; rewrite I2, S2', P2; lia).
  rewrite allFrom_S, S2', (exec_end _ _ N2).
  cbn [List.map]. rewrite G11, G12, G21, G22. reflexivity.
Qed.

(** Round trip on a synthetic response: a page and a style sheet without
    backticks, fenced and tagged, come back trimmed. *)
Lemma parseGeneratedCode_synthetic (html css : string) :
  noBacktick html = true ->
  noBacktick css = true ->
  Js.trim html <> "" ->
  Js.trim css <> "" ->
  Gemini.parseGeneratedCode (synthetic html css) = (Js.trim html, Js.trim css).
Proof.
  intros Bh Bc Th Tc.
  assert (Hblocks := findCodeBlocks_synthetic html css Bh Bc Th Tc).
  unfold Gemini.parseGeneratedCode.
  replace (Js.truthy (synthetic html css)) with true by reflexivity.
  cbn [negb]. rewrite Hblocks.
  rewrite (taggedStep_fold _ "" "" (Js.trim html) (Js.trim css)).
  - assert (Hh : Js.truthy (Js.trim html) = true)
      by (destruct (Js.trim html); [contradiction | reflexivity]).
    assert (Hc : Js.truthy (Js.trim css) = true)
      by (destruct (Js.trim css); [contradiction | reflexivity]).
    cbv beta iota. rewrite Hh, Hc. cbn [negb orb andb]. rewrite Hh, Hc. reflexivity.
  - right. split; [reflexivity |].
    exists (Gemini.CodeBlock "html" (Js.trimStart html +:+ Js.nl)).
    unfold trimmedBody. cbn [Gemini.blockContent]. rewrite trim_block_body by exact Th.
    split; [reflexivity |]. split; [| reflexivity].
    destruct (Js.trim html); [contradiction | reflexivity].
  - right. split; [reflexivity |].
    exists (Gemini.CodeBlock "css" (Js.trimStart css +:+ Js.nl)).
    unfold trimmedBody. cbn [Gemini.blockContent]. rewrite trim_block_body by exact Tc.
    split; [reflexivity |]. split; [| reflexivity].
    destruct (Js.trim css); [contradiction | reflexivity].
Qed.

End Scanner.



(* ===================================================================== *)
(** ** The prompt optimiser *)
(* ===================================================================== *)

Lemma orElse_empty (s : string) : Js.orElse s "" = s.
Proof. destruct s; reflexivity. Qed.

Lemma loadKeys_truthy (raw k : string) : k ∈ loadKeys raw -> Js.truthy k = true.
Proof.
  unfold loadKeys. rewrite list_elem_of_In, filter_In. intros [_ H].
  destruct k; [discriminate | reflexivity].
Qed.

Lemma rate_limit_not_ok (status : nat) : (status =? 429) = true -> ok status = false.
Proof. intros H. apply Nat.eqb_eq in H. subst. reflexivity. Qed.

Section GeminiFacts.

Variable E : environment.

(** Selecting a key never throws, makes no provider call and leaves the
    call record alone. *)
Lemma getRandomKey_world (excludeKey : option string) (w : world) :
  exists k w', Gemini.getRandomKey E excludeKey w = (Return k, w')
               /\ calls w' = calls w
               /\ geminiFetches w' = geminiFetches w
               /\ sambaNovaFetches w' = sambaNovaFetches w.
Proof.
  unfold Gemini.getRandomKey, Pool.getRandomKey.
  destruct (length (GEMINI_API_KEYS E) =? 0).
  { eexists _, _. split; [reflexivity | auto]. }
  match goal with |- context [length ?a =? 0] => destruct (length a =? 0) end.
  - unfold bind, Pool.clearFailed. cbv beta iota.
    match goal with |- context [length ?a =? 0] => destruct (length a =? 0) end;
      eexists _, _; (split; [reflexivity | auto]).
  - eexists _, _. split; [reflexivity | auto].
Qed.

(** With at least one configured key the selection yields a usable key. *)
Lemma getRandomKey_configured (excludeKey : option string) (w : world) :
  GEMINI_API_KEYS E <> [] ->
  exists k, fst (Gemini.getRandomKey E excludeKey w) = Return (Some k)
            /\ Js.truthy k = true.
Proof.
  intros Hne.
  destruct (getRandomKey_elem (GEMINI_API_KEYS E) E excludeKey w Hne) as (k & Hk & Hin).
  exists k. split; [exact Hk |]. eapply loadKeys_truthy. exact Hin.
Qed.

(** One optimisation attempt: it never throws, makes exactly one provider
    call, and either finishes with a valid design or continues with the
    salvaged text. *)
Lemma optimizeAttempt_spec (userPrompt : string) (images : nat) (key : string)
    (st : Gemini.attempts) (w : world) :
  let a := gemini E (geminiFetches w) key in
  exists s w',
    Gemini.optimizeAttempt E userPrompt images key st w = (Return s, w')
    /\ calls w' = calls w ++ [FetchedGemini key a]
    /\ geminiFetches w' = S (geminiFetches w)
    /\ match s with
       | Finish r =>
           yieldsValidDesign E a = true
           /\ exists raw d v,
                readable a = Some raw
                /\ Gemini.parseOptimizationOutput E raw = (d, Some v)
                /\ Json.truthy v = true
                /\ Gemini.missingRequiredFields v = false
                /\ r = Gemini.OptimizeResult true None d (Some v) userPrompt
                         (Some images) raw
       | Continue st' =>
           yieldsValidDesign E a = false
           /\ (Gemini.lastDisplayText st', Gemini.lastRawOutput st')
              = salvage E (Gemini.lastDisplayText st, Gemini.lastRawOutput st) a
       end.
Proof.
  intros a.
  unfold Gemini.optimizeAttempt, tryCatch, bind, Gemini.request, bind, Gemini.fetch.
  fold a. unfold yieldsValidDesign, salvage, readable.
  destruct a as [m | status b]; cbn -[Gemini.parseOptimizationOutput].
  { eexists _, _. repeat split. }
  destruct (status =? 429) eqn:H429; cbn -[Gemini.parseOptimizationOutput].
  { rewrite (rate_limit_not_ok _ H429).
    eexists _, _. repeat split; destruct b; reflexivity. }
  destruct (ok status) eqn:Hok; cbn -[Gemini.parseOptimizationOutput].
  2:{ eexists _, _. repeat split; destruct b; reflexivity. }
  destruct b as [m | em content]; cbn -[Gemini.parseOptimizationOutput].
  { eexists _, _. repeat split. }
  assert (Hgen : forall raw w0,
    exists s w',
      (let '(displayText, designJSON) := Gemini.parseOptimizationOutput E raw in
       if negb (Json.truthyOpt designJSON)
       then ret (Continue (Gemini.Attempts (Gemini.lastError st) displayText raw))
       else match designJSON with
            | Some v =>
                if Gemini.missingRequiredFields v
                then ret (Continue (Gemini.Attempts (Gemini.lastError st) displayText raw))
                else ret (Finish (Gemini.OptimizeResult true None displayText (Some v)
                                    userPrompt (Some images) raw))
            | None => ret (Continue (Gemini.Attempts (Gemini.lastError st) displayText raw))
            end) w0 = (Return s, w')
      /\ w' = w0
      /\ match s with
         | Finish r =>
             match snd (Gemini.parseOptimizationOutput E raw) with
             | Some v => Json.truthy v && negb (Gemini.missingRequiredFields v)
             | None => false
             end = true
             /\ exists raw' d v,
                  Some raw = Some raw'
                  /\ Gemini.parseOptimizationOutput E raw' = (d, Some v)
                  /\ Json.truthy v = true
                  /\ Gemini.missingRequiredFields v = false
                  /\ r = Gemini.OptimizeResult true None d (Some v) userPrompt
                           (Some images) raw'
         | Continue st' =>
             match snd (Gemini.parseOptimizationOutput E raw) with
             | Some v => Json.truthy v && negb (Gemini.missingRequiredFields v)
             | None => false
             end = false
             /\ (Gemini.lastDisplayText st', Gemini.lastRawOutput st')
                = (fst (Gemini.parseOptimizationOutput E raw), raw)
         end).
  { intros raw w0.
    destruct (Gemini.parseOptimizationOutput E raw) as [d [v|]] eqn:Hp;
      cbn -[Gemini.parseOptimizationOutput].
    - destruct (Json.truthy v) eqn:Hv; cbn -[Gemini.parseOptimizationOutput].
      + destruct (Gemini.missingRequiredFields v) eqn:Hm;
          cbn -[Gemini.parseOptimizationOutput].
        * eexists _, _. repeat split.
        * eexists _, _. split; [reflexivity |]. split; [reflexivity |].
          split; [reflexivity |]. exists raw, d, v. rewrite Hp. auto.
      + eexists _, _. repeat split.
    - eexists _, _. repeat split. }
  destruct content as [| m | t]; cbn -[Gemini.parseOptimizationOutput].
  - destruct (Hgen "" (World (failedKeys w) (randomsDrawn w) (S (geminiFetches w))
                         (sambaNovaFetches w) (spaceCalls w)
                         (calls w ++ [FetchedGemini key (Http status (Json em Missing))])))
      as (s & w' & Hrun & -> & Hs).
    rewrite Hrun. eexists _, _. split; [reflexivity |]. auto.
  - eexists _, _. repeat split.
  - destruct (Hgen t (World (failedKeys w) (randomsDrawn w) (S (geminiFetches w))
                        (sambaNovaFetches w) (spaceCalls w)
                        (calls w ++ [FetchedGemini key (Http status (Json em (Text t)))])))
      as (s & w' & Hrun & -> & Hs).
    rewrite Hrun. eexists _, _. split; [reflexivity |]. auto.
Qed.

End GeminiFacts.

Lemma required_fields_present (v : json) :
  Gemini.missingRequiredFields v = false -> present "layout" v /\ present "colors" v.
Proof.
  unfold Gemini.missingRequiredFields, present. intros H.
  apply orb_false_iff in H as [Hl Hc].
  apply negb_false_iff in Hl, Hc.
  destruct v as [| b | x | s | items | props]; simpl in Hl, Hc; try discriminate.
  destruct (Json.lookup "layout" props) as [l|] eqn:El; [| discriminate].
  destruct (Json.lookup "colors" props) as [c|] eqn:Ec; [| discriminate].
  split; eexists props, _; split; eauto.
Qed.

Section OptimizerFacts.

Variable E : environment.
Variable userPrompt : string.
Variable images : nat.
Variable apiKey : string.

(** The retry loop: it never throws; it makes at most [remaining]
    provider calls; it ends either exhausted, none of the answers having
    yielded a valid design, with the text salvaged from the answers, or
    successfully on an answer that yields a valid design. *)
Lemma optimizeLoop_spec (remaining : nat) :
  forall (jsonAttempt : nat) (st : Gemini.attempts) (w : world),
  exists r w' es,
    Gemini.optimizeLoop E userPrompt images apiKey remaining jsonAttempt st w
    = (Return r, w')
    /\ calls w' = calls w ++ es
    /\ geminiFetches w' = geminiFetches w + length (geminiAnswers es)
    /\ length (geminiAnswers es) <= remaining
    /\ ((Forall (fun a => yieldsValidDesign E a = false) (geminiAnswers es)
         /\ exists st',
              r = Gemini.optimizeExhausted userPrompt st'
              /\ (Gemini.lastDisplayText st', Gemini.lastRawOutput st')
                 = List.fold_left (salvage E) (geminiAnswers es)
                     (Gemini.lastDisplayText st, Gemini.lastRawOutput st))
        \/ (exists a raw d v,
              last (geminiAnswers es) = Some a
              /\ yieldsValidDesign E a = true
              /\ readable a = Some raw
              /\ Gemini.parseOptimizationOutput E raw = (d, Some v)
              /\ Json.truthy v = true
              /\ Gemini.missingRequiredFields v = false
              /\ r = Gemini.OptimizeResult true None d (Some v) userPrompt
                       (Some images) raw)).
Proof.
  induction remaining as [|remaining' IH]; intros jsonAttempt st w.
  - exists (Gemini.optimizeExhausted userPrompt st), w, [].
    simpl. rewrite app_nil_r. repeat split; try lia.
    left. split; [constructor | exists st; auto].
  - assert (Hexhausted : forall w1,
              calls w1 = calls w -> geminiFetches w1 = geminiFetches w ->
              exists r w' es,
                (Return (Gemini.optimizeExhausted userPrompt st), w1) = (Return r, w')
                /\ calls w' = calls w ++ es
                /\ geminiFetches w' = geminiFetches w + length (geminiAnswers es)
                /\ length (geminiAnswers es) <= S remaining'
                /\ ((Forall (fun a => yieldsValidDesign E a = false) (geminiAnswers es)
                     /\ exists st',
                          r = Gemini.optimizeExhausted userPrompt st'
                          /\ (Gemini.lastDisplayText st', Gemini.lastRawOutput st')
                             = List.fold_left (salvage E) (geminiAnswers es)
                                 (Gemini.lastDisplayText st, Gemini.lastRawOutput st))
                    \/ (exists a raw d v,
                          last (geminiAnswers es) = Some a
                          /\ yieldsValidDesign E a = true
                          /\ readable a = Some raw
                          /\ Gemini.parseOptimizationOutput E raw = (d, Some v)
                          /\ Json.truthy v = true
                          /\ Gemini.missingRequiredFields v = false
                          /\ r = Gemini.OptimizeResult true None d (Some v) userPrompt
                                   (Some images) raw))).
    { intros w1 Hc Hf. exists (Gemini.optimizeExhausted userPrompt st), w1, [].
      simpl. rewrite app_nil_r. repeat split; try lia; try assumption.
      left. split; [constructor | exists st; auto]. }
    assert (Hkey : exists k w1,
              (if jsonAttempt =? 0 then ret (Some apiKey)
               else Gemini.getRandomKey E (Some apiKey)) w = (Return k, w1)
              /\ calls w1 = calls w /\ geminiFetches w1 = geminiFetches w).
    { destruct (jsonAttempt =? 0).
      - exists (Some apiKey), w. auto.
      - destruct (getRandomKey_world E (Some apiKey) w) as (k & w1 & Hk & Hc & Hf & _).
        exists k, w1. auto. }
    destruct Hkey as (k & w1 & Hk & Hc1 & Hf1).
    cbn [Gemini.optimizeLoop]. unfold bind at 1. rewrite Hk.
    destruct k as [key|]; [| apply Hexhausted; assumption].
    destruct (Js.truthy key); cbn [negb]; [| apply Hexhausted; assumption].
    unfold bind at 1.
    destruct (optimizeAttempt_spec E userPrompt images key st w1)
      as (s & w2 & Hrun & Hc2 & Hf2 & Hs).
    rewrite Hrun. rewrite Hc1 in Hc2. rewrite Hf1 in Hf2.
    destruct s as [st' | r].
    + destruct Hs as [Hinvalid Hsalvage].
      destruct (IH (S jsonAttempt) st' w2) as (r & w' & es & Hloop & Hc & Hf & Hlen & Hres).
      exists r, w', (FetchedGemini key (gemini E (geminiFetches w1) key) :: es).
      split; [exact Hloop |].
      split; [rewrite Hc, Hc2, <- app_assoc; reflexivity |].
      split; [rewrite Hf, Hf2; simpl; lia |].
      split; [simpl; lia |].
      destruct Hres as [[Hall (st'' & Hr & Hst'')] | (a & raw & d & v & Hlast & Hrest)].
      * left. split; [simpl; constructor; assumption |].
        exists st''. split; [exact Hr |]. simpl. rewrite <- Hsalvage. exact Hst''.
      * right. exists a, raw, d, v. split; [| exact Hrest].
        simpl. rewrite last_cons, Hlast. reflexivity.
    + destruct Hs as [Hvalid (raw & d & v & Hrest)].
      exists r, w2, [FetchedGemini key (gemini E (geminiFetches w1) key)].
      split; [reflexivity |].
      split; [exact Hc2 |].
      split; [rewrite Hf2; simpl; lia |].
      split; [simpl; lia |].
      right. exists (gemini E (geminiFetches w1) key), raw, d, v.
      split; [reflexivity |]. split; [exact Hvalid | exact Hrest].
Qed.

End OptimizerFacts.

(** Whatever the configuration, one optimise request makes at most three
    provider calls. *)
Lemma optimizePrompt_at_most_three_fetches (E : environment) (userPrompt : string)
    (assets : list asset) (w : world) :
  geminiFetches (snd (Gemini.optimizePrompt E userPrompt assets w))
  <= geminiFetches w + 3.
Proof.
  unfold Gemini.optimizePrompt, bind.
  destruct (getRandomKey_world E None w) as (k & w1 & Hk & _ & Hf & _).
  rewrite Hk. destruct k as [key|]; [| simpl; lia].
  destruct (Js.truthy key); cbn [negb]; [| simpl; lia].
  destruct (optimizeLoop_spec E userPrompt (length (List.filter isImage assets)) key
              Gemini.maxJsonRetries 0 (Gemini.Attempts None "" "") w1)
    as (r & w' & es & Hrun & _ & Hf' & Hlen & _).
  rewrite Hrun. simpl. unfold Gemini.maxJsonRetries in Hlen. lia.
Qed.

(** With at least one configured credential an optimise request returns. *)
Lemma optimizePrompt_returns_when_configured (E : environment) (userPrompt : string)
    (assets : list asset) (w : world) :
  GEMINI_API_KEYS E <> [] ->
  exists r w', Gemini.optimizePrompt E userPrompt assets w = (Return r, w').
Proof.
  intros Hkeys. unfold Gemini.optimizePrompt, bind.
  destruct (getRandomKey_world E None w) as (k & w1 & Hk & _).
  destruct (getRandomKey_configured E None w Hkeys) as (key & Hkey & Htruthy).
  rewrite Hk in Hkey. simpl in Hkey. injection Hkey as ->.
  rewrite Hk, Htruthy. cbn [negb].
  destruct (optimizeLoop_spec E userPrompt (length (List.filter isImage assets)) key
              Gemini.maxJsonRetries 0 (Gemini.Attempts None "" "") w1)
    as (r & w' & es & Hrun & _).
  exists r, w'. exact Hrun.
Qed.

(** C7.  With at least one configured credential an optimise request
    makes at most three provider calls and returns; when none of the
    answers yields a valid design the result is a failure that carries, as
    [optimizedPrompt] and [rawOutput], the display text and the raw output
    of the most recent readable answer (both empty when there was none). *)
Theorem optimizePrompt_bounded_retries (E : environment) (userPrompt : string)
    (assets : list asset) (w : world) :
  GEMINI_API_KEYS E <> [] ->
  exists r w' es,
    Gemini.optimizePrompt E userPrompt assets w = (Return r, w')
    /\ calls w' = calls w ++ es
    /\ geminiFetches w' = geminiFetches w + length (geminiAnswers es)
    /\ length (geminiAnswers es) <= 3
    /\ (Forall (fun a => yieldsValidDesign E a = false) (geminiAnswers es) ->
        Gemini.success r = false
        /\ Gemini.designJSON r = None
        /\ (Gemini.optimizedPrompt r, Gemini.rawOutput r)
           = List.fold_left (salvage E) (geminiAnswers es) ("", "")).
Proof.
  intros Hkeys. unfold Gemini.optimizePrompt, bind.
  destruct (getRandomKey_world E None w) as (k & w1 & Hk & Hc & Hf & _).
  destruct (getRandomKey_configured E None w Hkeys) as (key & Hkey & Htruthy).
  rewrite Hk in Hkey. simpl in Hkey. injection Hkey as ->.
  rewrite Hk, Htruthy. cbn [negb].
  destruct (optimizeLoop_spec E userPrompt (length (List.filter isImage assets)) key
              Gemini.maxJsonRetries 0 (Gemini.Attempts None "" "") w1)
    as (r & w' & es & Hrun & Hc' & Hf' & Hlen & Hres).
  exists r, w', es. rewrite Hrun.
  split; [reflexivity |].
  split; [rewrite Hc', Hc; reflexivity |].
  split; [rewrite Hf', Hf; reflexivity |].
  split; [exact Hlen |].
  intros Hall.
  destruct Hres as [[_ (st' & -> & Hst')] | (a & raw & d & v & Hlast & Hvalid & _)].
  - simpl. rewrite orElse_empty. repeat split. exact Hst'.
  - exfalso. rewrite Forall_forall in Hall.
    assert (Hin : a ∈ geminiAnswers es).
    { rewrite last_Some in Hlast. destruct Hlast as [l' ->]. set_solver. }
    rewrite (Hall a Hin) in Hvalid. discriminate.
Qed.

Lemma optimizePrompt_bounded_retries_witness :
  exists r w' es,
    Gemini.optimizePrompt
      (Sample.designEnvironment "A,B" (Sample.optimizerOutput Sample.layoutOnlyJson))
      "dark portfolio hero section" [] initialWorld = (Return r, w')
    /\ calls w' = calls initialWorld ++ es
    /\ geminiFetches w' = geminiFetches initialWorld + length (geminiAnswers es)
    /\ length (geminiAnswers es) <= 3
    /\ (Forall (fun a => yieldsValidDesign
                           (Sample.designEnvironment "A,B"
                              (Sample.optimizerOutput Sample.layoutOnlyJson)) a = false)
               (geminiAnswers es) ->
        Gemini.success r = false
        /\ Gemini.designJSON r = None
        /\ (Gemini.optimizedPrompt r, Gemini.rawOutput r)
           = List.fold_left
               (salvage (Sample.designEnvironment "A,B"
                           (Sample.optimizerOutput Sample.layoutOnlyJson)))
               (geminiAnswers es) ("", "")).
Proof.
  apply optimizePrompt_bounded_retries.
  vm_compute. discriminate.
Defined.

(** A request in an environment whose model always leaves the colors out:
    three provider calls, then a failure that still carries the prose. *)
Example optimizePrompt_exhausted_example :
  let r := Gemini.optimizePrompt
             (Sample.designEnvironment "A,B" (Sample.optimizerOutput Sample.layoutOnlyJson))
             "dark portfolio hero section" [] initialWorld in
  geminiFetches (snd r) = 3
  /\ fst r = Return (Gemini.OptimizeResult false
                       (Some "Failed to extract design JSON after multiple attempts. Please try again.")
                       "A dark portfolio page." None "dark portfolio hero section" None
                       (Sample.optimizerOutput Sample.layoutOnlyJson)).
Proof. vm_compute. split; reflexivity. Qed.

Section RetryAfterRejection.

Variable E : environment.
Variable userPrompt : string.
Variable images : nat.
Variable apiKey : string.

(** With a configured pool the retry loop never stops early: it makes a
    provider call whenever an attempt remains, and a rejected answer is
    followed by a further call unless it was the answer of the last
    attempt, in which case the loop ends in the failure. *)
Lemma optimizeLoop_retries (remaining : nat) :
  GEMINI_API_KEYS E <> [] ->
  Js.truthy apiKey = true ->
  forall (jsonAttempt : nat) (st : Gemini.attempts) (w : world),
  exists r w' es,
    Gemini.optimizeLoop E userPrompt images apiKey remaining jsonAttempt st w
    = (Return r, w')
    /\ calls w' = calls w ++ es
    /\ (0 < remaining -> is_Some (geminiAnswers es !! 0))
    /\ (remaining = 0 -> Gemini.success r = false /\ Gemini.designJSON r = None)
    /\ forall i a,
         geminiAnswers es !! i = Some a ->
         yieldsValidDesign E a = false ->
         (S i < remaining /\ is_Some (geminiAnswers es !! S i))
         \/ (S i = remaining /\ Gemini.success r = false /\ Gemini.designJSON r = None).
Proof.
  intros configured usable.
  induction remaining as [|remaining' IH]; intros jsonAttempt st w.
  - exists (Gemini.optimizeExhausted userPrompt st), w, [].
    cbn [Gemini.optimizeLoop]. rewrite app_nil_r.
    split; [reflexivity |]. split; [reflexivity |]. split; [lia |].
    split; [intros _; split; reflexivity |].
    intros i a Hi. discriminate Hi.
  - assert (Hkey : exists key w1,
              (if jsonAttempt =? 0 then ret (Some apiKey)
               else Gemini.getRandomKey E (Some apiKey)) w = (Return (Some key), w1)
              /\ calls w1 = calls w /\ Js.truthy key = true).
    { destruct (jsonAttempt =? 0).
      - exists apiKey, w. auto.
      - destruct (getRandomKey_world E (Some apiKey) w) as (k & w1 & Hk & Hc & _).
        destruct (getRandomKey_configured E (Some apiKey) w configured)
          as (key & Hkey & Htruthy).
        rewrite Hk in Hkey. simpl in Hkey. injection Hkey as ->.
        exists key, w1. auto. }
    destruct Hkey as (key & w1 & Hk & Hc1 & Htruthy).
    cbn [Gemini.optimizeLoop]. unfold bind at 1. rewrite Hk, Htruthy. cbn [negb].
    unfold bind at 1.
    destruct (optimizeAttempt_spec E userPrompt images key st w1)
      as (s & w2 & Hrun & Hc2 & _ & Hs).
    rewrite Hrun. rewrite Hc1 in Hc2.
    destruct s as [st' | r].
    + destruct (IH (S jsonAttempt) st' w2)
        as (r & w' & es & Hloop & Hc & Hfirst & Hnone & Hnext).
      exists r, w', (FetchedGemini key (gemini E (geminiFetches w1) key) :: es).
      split; [exact Hloop |].
      split; [rewrite Hc, Hc2, <- app_assoc; reflexivity |].
      split; [intros _; eexists; reflexivity |].
      split; [intros Hz; discriminate Hz |].
      intros i a Hi Hinvalid. cbn [geminiAnswers] in Hi |- *.
      destruct i as [|i].
      * destruct remaining' as [|remaining''].
        -- right. split; [reflexivity | exact (Hnone eq_refl)].
        -- left. split; [lia |]. apply Hfirst. lia.
      * destruct (Hnext i a Hi Hinvalid) as [[Hlt Hsome] | [Heq Hfail]].
        -- left. split; [lia | exact Hsome].
        -- right. split; [lia | exact Hfail].
    + destruct Hs as [Hvalid _].
      exists r, w2, [FetchedGemini key (gemini E (geminiFetches w1) key)].
      split; [reflexivity |].
      split; [exact Hc2 |].
      split; [intros _; eexists; reflexivity |].
      split; [intros Hz; discriminate Hz |].
      intros i a Hi Hinvalid. cbn [geminiAnswers] in Hi.
      destruct i as [|i]; [| discriminate Hi].
      injection Hi as <-. rewrite Hvalid in Hinvalid. discriminate.
Qed.

End RetryAfterRejection.

(** An answer whose JSON value lacks [layout] or [colors] does not yield
    a valid design. *)
Lemma incomplete_design_rejected (E : environment) (a : response) (raw d : string)
    (v : json) :
  readable a = Some raw ->
  Gemini.parseOptimizationOutput E raw = (d, Some v) ->
  ~ (present "layout" v /\ present "colors" v) ->
  yieldsValidDesign E a = false.
Proof.
  intros Hread Hparse Hmissing. unfold yieldsValidDesign. rewrite Hread, Hparse. cbn [snd].
  destruct (Gemini.missingRequiredFields v) eqn:Hm; [apply andb_false_r |].
  exfalso. apply Hmissing. exact (required_fields_present v Hm).
Qed.

(** A rejected answer of an optimise request is followed by a further
    provider call, unless it was the third answer: then the request
    returns the failure. *)
Lemma optimizePrompt_retries (E : environment) (userPrompt : string)
    (assets : list asset) (w w' : world) (o : outcome Gemini.optimizeResult)
    (es : list event) (i : nat) (a : response) :
  Gemini.optimizePrompt E userPrompt assets w = (o, w') ->
  calls w' = calls w ++ es ->
  geminiAnswers es !! i = Some a ->
  yieldsValidDesign E a = false ->
  (i < 2 /\ is_Some (geminiAnswers es !! S i))
  \/ (i = 2 /\ exists r, o = Return r /\ Gemini.success r = false
                         /\ Gemini.designJSON r = None).
Proof.
  intros Hrun Hcalls Hi Hinvalid.
  unfold Gemini.optimizePrompt, bind in Hrun.
  destruct (getRandomKey_world E None w) as (k & w1 & Hk & Hc & _).
  rewrite Hk in Hrun.
  assert (Hquiet : forall m, (Throw m : outcome Gemini.optimizeResult, w1) = (o, w') -> False).
  { intros m Hthrow. injection Hthrow as <- <-.
    rewrite Hc in Hcalls. rewrite <- (app_nil_r (calls w)) in Hcalls at 1.
    apply app_inv_head in Hcalls. subst es. discriminate Hi. }
  destruct (decide (GEMINI_API_KEYS E = [])) as [Hnil | Hkeys].
  { unfold Gemini.getRandomKey, Pool.getRandomKey in Hk. rewrite Hnil in Hk.
    injection Hk as <- <-. exfalso. exact (Hquiet _ Hrun). }
  destruct (getRandomKey_configured E None w Hkeys) as (key & Hkey & Htruthy).
  rewrite Hk in Hkey. simpl in Hkey. injection Hkey as ->.
  rewrite Htruthy in Hrun. cbn [negb] in Hrun.
  destruct (optimizeLoop_retries E userPrompt (length (List.filter isImage assets)) key
              Gemini.maxJsonRetries Hkeys Htruthy 0 (Gemini.Attempts None "" "") w1)
    as (r & w0 & es0 & Hloop & Hc0 & _ & _ & Hnext).
  rewrite Hloop in Hrun. injection Hrun as <- <-.
  rewrite Hc0, Hc in Hcalls. apply app_inv_head in Hcalls. subst es0.
  destruct (Hnext i a Hi Hinvalid) as [[Hlt Hsome] | [Heq Hfail]].
  - left. unfold Gemini.maxJsonRetries in Hlt. split; [lia | exact Hsome].
  - right. unfold Gemini.maxJsonRetries in Heq. split; [lia |]. exists r. auto.
Qed.

(** C2.  A successful result of the optimiser carries a parsed JSON
    object, extracted from the raw output it reports, in which [layout]
    and [colors] are both present.  An attempt whose answer gives a JSON
    value that lacks one of the two does not return: it continues the
    retry loop, keeping the display text and the raw output.  And in
    every optimise request such an answer triggers a retry: it is
    followed by a further provider call, unless it was the answer of the
    third and last attempt, after which the request returns the failure
    without a design. *)
Theorem optimizePrompt_success_has_layout_and_colors (E : environment)
    (userPrompt : string) (assets : list asset) (w : world) :
  (forall r w',
      Gemini.optimizePrompt E userPrompt assets w = (Return r, w') ->
      Gemini.success r = true ->
      exists v, Gemini.designJSON r = Some v
                /\ present "layout" v /\ present "colors" v
                /\ Gemini.parseOptimizationOutput E (Gemini.rawOutput r)
                   = (Gemini.optimizedPrompt r, Some v))
  /\ (forall images key st raw d v,
         readable (gemini E (geminiFetches w) key) = Some raw ->
         Gemini.parseOptimizationOutput E raw = (d, Some v) ->
         ~ (present "layout" v /\ present "colors" v) ->
         exists st' w',
           Gemini.optimizeAttempt E userPrompt images key st w = (Return (Continue st'), w')
           /\ Gemini.lastDisplayText st' = d
           /\ Gemini.lastRawOutput st' = raw)
  /\ (forall o w' es i a raw d v,
         Gemini.optimizePrompt E userPrompt assets w = (o, w') ->
         calls w' = calls w ++ es ->
         geminiAnswers es !! i = Some a ->
         readable a = Some raw ->
         Gemini.parseOptimizationOutput E raw = (d, Some v) ->
         ~ (present "layout" v /\ present "colors" v) ->
         (i < 2 /\ is_Some (geminiAnswers es !! S i))
         \/ (i = 2 /\ exists r, o = Return r /\ Gemini.success r = false
                                /\ Gemini.designJSON r = None)).
Proof.
  split; [| split].
  - intros r w' Hrun Hsuccess.
    unfold Gemini.optimizePrompt, bind in Hrun.
    destruct (getRandomKey_world E None w) as (k & w1 & Hk & _).
    rewrite Hk in Hrun. destruct k as [key|]; [| discriminate].
    destruct (Js.truthy key); cbn [negb] in Hrun; [| discriminate].
    destruct (optimizeLoop_spec E userPrompt (length (List.filter isImage assets)) key
                Gemini.maxJsonRetries 0 (Gemini.Attempts None "" "") w1)
      as (r0 & w0 & es & Hloop & _ & _ & _ & Hres).
    rewrite Hloop in Hrun. injection Hrun as -> ->.
    destruct Hres as [[_ (st' & -> & _)] | (a & raw & d & v & _ & _ & _ & Hp & _ & Hm & ->)].
    + discriminate.
    + exists v. simpl. destruct (required_fields_present v Hm) as [Hl Hc]. auto.
  - intros images key st raw d v Hread Hparse Hmissing.
    destruct (optimizeAttempt_spec E userPrompt images key st w)
      as (s & w' & Hrun & _ & _ & Hs).
    destruct s as [st' | r].
    + exists st', w'. split; [exact Hrun |].
      destruct Hs as [_ Hsalvage]. unfold salvage in Hsalvage.
      rewrite Hread, Hparse in Hsalvage. simpl in Hsalvage.
      injection Hsalvage as -> ->. auto.
    + exfalso. destruct Hs as [_ (raw' & d' & v' & Hread' & Hparse' & _ & Hm & _)].
      rewrite Hread in Hread'. injection Hread' as <-.
      rewrite Hparse in Hparse'. injection Hparse' as <- <-.
      apply Hmissing. apply required_fields_present. exact Hm.
  - intros o w' es i a raw d v Hrun Hcalls Hi Hread Hparse Hmissing.
    apply (optimizePrompt_retries E userPrompt assets w w' o es i a Hrun Hcalls Hi).
    exact (incomplete_design_rejected E a raw d v Hread Hparse Hmissing).
Qed.

Lemma optimizePrompt_success_has_layout_and_colors_witness :
  (exists v,
      Gemini.designJSON Sample.successfulResult = Some v
      /\ present "layout" v /\ present "colors" v
      /\ Gemini.parseOptimizationOutput Sample.completeEnvironment
           (Gemini.rawOutput Sample.successfulResult)
         = (Gemini.optimizedPrompt Sample.successfulResult, Some v))
  /\ (exists st' w',
        Gemini.optimizeAttempt Sample.incompleteEnvironment
          "dark portfolio hero section" 0 "A" (Gemini.Attempts None "" "") initialWorld
        = (Return (Continue st'), w')
        /\ Gemini.lastDisplayText st' = "A dark portfolio page."
        /\ Gemini.lastRawOutput st' = Sample.optimizerOutput Sample.layoutOnlyJson)
  /\ is_Some (geminiAnswers
                (calls (snd (Gemini.optimizePrompt Sample.incompleteEnvironment
                               "dark portfolio hero section" [] initialWorld))) !! 1).
Proof.
  assert (Hread : readable (gemini Sample.incompleteEnvironment
                              (geminiFetches initialWorld) "A")
                  = Some (Sample.optimizerOutput Sample.layoutOnlyJson))
    by (vm_compute; reflexivity).
  assert (Hparse : Gemini.parseOptimizationOutput Sample.incompleteEnvironment
                     (Sample.optimizerOutput Sample.layoutOnlyJson)
                   = ("A dark portfolio page.", Some (JObj [("layout", JObj [])])))
    by (vm_compute; reflexivity).
  assert (Hmissing : ~ (present "layout" (JObj [("layout", JObj [])])
                        /\ present "colors" (JObj [("layout", JObj [])]))).
  { intros [_ (props & x & Hv & Hl)]. injection Hv as <-. discriminate Hl. }
  split; [| split].
  - assert (Hrun : Gemini.optimizePrompt Sample.completeEnvironment
                     "dark portfolio hero section" [] initialWorld
                   = (Return Sample.successfulResult,
                      World ∅ 1 1 0 0
                        [FetchedGemini "A"
                           (Sample.answer (Sample.optimizerOutput Sample.completeJson))]))
      by (vm_compute; reflexivity).
    exact (proj1 (optimizePrompt_success_has_layout_and_colors
                    Sample.completeEnvironment "dark portfolio hero section" []
                    initialWorld) _ _ Hrun eq_refl).
  - exact (proj1 (proj2 (optimizePrompt_success_has_layout_and_colors
                           Sample.incompleteEnvironment "dark portfolio hero section" []
                           initialWorld))
             0 "A" (Gemini.Attempts None "" "") _ _ _ Hread Hparse Hmissing).
  - assert (Hfirst : geminiAnswers
                        (calls (snd (Gemini.optimizePrompt Sample.incompleteEnvironment
                                       "dark portfolio hero section" [] initialWorld))) !! 0
                      = Some (Sample.answer (Sample.optimizerOutput Sample.layoutOnlyJson)))
      by (vm_compute; reflexivity).
    destruct (proj2 (proj2 (optimizePrompt_success_has_layout_and_colors
                              Sample.incompleteEnvironment "dark portfolio hero section" []
                              initialWorld))
                (fst (Gemini.optimizePrompt Sample.incompleteEnvironment
                        "dark portfolio hero section" [] initialWorld))
                (snd (Gemini.optimizePrompt Sample.incompleteEnvironment
                        "dark portfolio hero section" [] initialWorld))
                (calls (snd (Gemini.optimizePrompt Sample.incompleteEnvironment
                               "dark portfolio hero section" [] initialWorld)))
                0 (Sample.answer (Sample.optimizerOutput Sample.layoutOnlyJson))
                (Sample.optimizerOutput Sample.layoutOnlyJson)
                "A dark portfolio page." (JObj [("layout", JObj [])])
                (surjective_pairing _) eq_refl Hfirst Hread Hparse Hmissing)
      as [[_ Hnext] | [Hlast _]]; [exact Hnext | discriminate Hlast].
Defined.

(* ===================================================================== *)
(** ** Page generation through the vision pipeline *)
(* ===================================================================== *)

Lemma long_is_truthy (s : string) (n : nat) :
  (String.length s <? S n) = false -> Js.truthy s = true.
Proof. destruct s; simpl; [discriminate | reflexivity]. Qed.

Section GenerationFacts.

Variable E : environment.
Variable images : nat.
Variable usedJSON : bool.

(** One generation attempt: it never throws, makes exactly one provider
    call, and finishes exactly when the answer passes the validation. *)
Lemma generateAttempt_spec (key : string) (lastError : option string) (w : world) :
  let a := gemini E (geminiFetches w) key in
  exists s w',
    Gemini.generateAttempt E images usedJSON key lastError w = (Return s, w')
    /\ calls w' = calls w ++ [FetchedGemini key a]
    /\ geminiFetches w' = S (geminiFetches w)
    /\ match s with
       | Finish r =>
           accepted a = true
           /\ exists content html css,
                readable a = Some content
                /\ Gemini.parseGeneratedCode content = (html, css)
                /\ 100 <= String.length html
                /\ 50 <= String.length css
                /\ r = flatSuccess html css content images usedJSON
       | Continue _ => accepted a = false
       end.
Proof.
  intros a.
  unfold Gemini.generateAttempt, tryCatch, bind, Gemini.request, bind, Gemini.fetch.
  fold a. unfold accepted, readable.
  destruct a as [m | status b]; cbn -[Gemini.parseGeneratedCode Nat.ltb Nat.leb].
  { eexists _, _. repeat split. }
  destruct (status =? 429) eqn:H429; cbn -[Gemini.parseGeneratedCode Nat.ltb Nat.leb].
  { rewrite (rate_limit_not_ok _ H429).
    eexists _, _. repeat split; destruct b; reflexivity. }
  destruct (ok status) eqn:Hok; cbn -[Gemini.parseGeneratedCode Nat.ltb Nat.leb].
  2:{ eexists _, _. repeat split; destruct b; reflexivity. }
  destruct b as [m | em content]; cbn -[Gemini.parseGeneratedCode Nat.ltb Nat.leb].
  { eexists _, _. repeat split. }
  assert (Hgen : forall content w0,
    exists s w',
      (let '(html, css) := Gemini.parseGeneratedCode content in
       if negb (Js.truthy html) || (String.length html <? 100)
       then ret (Continue lastError)
       else if negb (Js.truthy css) || (String.length css <? 50)
            then ret (Continue lastError)
            else ret (Finish (Generation.Build true None (Some html) (Some css) None
                                (Some content) (Some images) (Some usedJSON)
                                None None None None None None))) w0 = (Return s, w')
      /\ w' = w0
      /\ match s with
         | Finish r =>
             (let '(html, css) := Gemini.parseGeneratedCode content in
              (100 <=? String.length html) && (50 <=? String.length css)) = true
             /\ exists content' html css,
                  Some content = Some content'
                  /\ Gemini.parseGeneratedCode content' = (html, css)
                  /\ 100 <= String.length html
                  /\ 50 <= String.length css
                  /\ r = flatSuccess html css content' images usedJSON
         | Continue _ =>
             (let '(html, css) := Gemini.parseGeneratedCode content in
              (100 <=? String.length html) && (50 <=? String.length css)) = false
         end).
  { intros content0 w0.
    destruct (Gemini.parseGeneratedCode content0) as [html css] eqn:Hp.
    destruct (String.length html <? 100) eqn:Hh.
    - rewrite orb_true_r. eexists _, _. split; [reflexivity |]. split; [reflexivity |].
      apply Nat.ltb_lt in Hh.
      destruct (100 <=? String.length html) eqn:Hh'; [apply Nat.leb_le in Hh'; lia |].
      reflexivity.
    - rewrite (long_is_truthy _ _ Hh). cbn [negb orb].
      apply Nat.ltb_ge in Hh.
      destruct (String.length css <? 50) eqn:Hc.
      + rewrite orb_true_r. eexists _, _. split; [reflexivity |]. split; [reflexivity |].
        apply Nat.ltb_lt in Hc.
        destruct (50 <=? String.length css) eqn:Hc'; [apply Nat.leb_le in Hc'; lia |].
        apply andb_false_r.
      + rewrite (long_is_truthy _ _ Hc). cbn [negb orb].
        apply Nat.ltb_ge in Hc.
        eexists _, _. split; [reflexivity |]. split; [reflexivity |].
        split.
        * apply andb_true_iff. split; apply Nat.leb_le; assumption.
        * exists content0, html, css. rewrite Hp. auto. }
  destruct content as [| m | t]; cbn -[Gemini.parseGeneratedCode Nat.ltb Nat.leb].
  - destruct (Hgen "" (World (failedKeys w) (randomsDrawn w) (S (geminiFetches w))
                         (sambaNovaFetches w) (spaceCalls w)
                         (calls w ++ [FetchedGemini key (Http status (Json em Missing))])))
      as (s & w' & Hrun & -> & Hs).
    rewrite Hrun. eexists _, _. split; [reflexivity |]. auto.
  - eexists _, _. repeat split.
  - destruct (Hgen t (World (failedKeys w) (randomsDrawn w) (S (geminiFetches w))
                        (sambaNovaFetches w) (spaceCalls w)
                        (calls w ++ [FetchedGemini key (Http status (Json em (Text t)))])))
      as (s & w' & Hrun & -> & Hs).
    rewrite Hrun. eexists _, _. split; [reflexivity |]. auto.
Qed.

Lemma generateLoop_spec (apiKey : string) (remaining : nat) :
  forall (attempt : nat) (lastError : option string) (w : world),
  exists r w' es,
    Gemini.generateLoop E images usedJSON apiKey remaining attempt lastError w
    = (Return r, w')
    /\ calls w' = calls w ++ es
    /\ Forall (fun e => isGeminiFetch e = true) es
    /\ length es <= remaining
    /\ loopEnded images usedJSON r es.
Proof.
  induction remaining as [|remaining' IH]; intros attempt lastError w.
  - exists (Gemini.generateExhausted lastError), w, [].
    simpl. rewrite app_nil_r. repeat split; try lia; [constructor |].
    left. split; [constructor | eauto].
  - assert (Hexhausted : forall w1,
              calls w1 = calls w ->
              exists r w' es,
                (Return (Gemini.generateExhausted lastError), w1) = (Return r, w')
                /\ calls w' = calls w ++ es
                /\ Forall (fun e => isGeminiFetch e = true) es
                /\ length es <= S remaining'
                /\ loopEnded images usedJSON r es).
    { intros w1 Hc. exists (Gemini.generateExhausted lastError), w1, [].
      simpl. rewrite app_nil_r. repeat split; try lia; try assumption; [constructor |].
      left. split; [constructor | eauto]. }
    assert (Hkey : exists k w1,
              (if attempt =? 0 then ret (Some apiKey)
               else Gemini.getRandomKey E (Some apiKey)) w = (Return k, w1)
              /\ calls w1 = calls w).
    { destruct (attempt =? 0).
      - exists (Some apiKey), w. auto.
      - destruct (getRandomKey_world E (Some apiKey) w) as (k & w1 & Hk & Hc & _).
        exists k, w1. auto. }
    destruct Hkey as (k & w1 & Hk & Hc1).
    cbn [Gemini.generateLoop]. unfold bind at 1. rewrite Hk.
    destruct k as [key|]; [| apply Hexhausted; assumption].
    destruct (Js.truthy key); cbn [negb]; [| apply Hexhausted; assumption].
    unfold bind at 1.
    destruct (generateAttempt_spec key lastError w1) as (s & w2 & Hrun & Hc2 & _ & Hs).
    rewrite Hrun. rewrite Hc1 in Hc2.
    destruct s as [lastError' | r].
    + destruct (IH (S attempt) lastError' w2) as (r & w' & es & Hloop & Hc & Hall & Hlen & Hres).
      exists r, w', (FetchedGemini key (gemini E (geminiFetches w1) key) :: es).
      split; [exact Hloop |].
      split; [rewrite Hc, Hc2, <- app_assoc; reflexivity |].
      split; [constructor; [reflexivity | exact Hall] |].
      split; [simpl; lia |].
      destruct Hres as [[Hrej Hr] | (a & content & html & css & Hlast & Hrest)].
      * left. split; [simpl; constructor; assumption | exact Hr].
      * right. exists a, content, html, css. split; [| exact Hrest].
        simpl. rewrite last_cons, Hlast. reflexivity.
    + destruct Hs as [_ (content & html & css & Hrest)].
      exists r, w2, [FetchedGemini key (gemini E (geminiFetches w1) key)].
      split; [reflexivity |].
      split; [exact Hc2 |].
      split; [repeat constructor |].
      split; [simpl; lia |].
      right. exists (gemini E (geminiFetches w1) key), content, html, css.
      split; [reflexivity | exact Hrest].
Qed.

End GenerationFacts.

Section VisionFacts.

Variable E : environment.

Lemma getRandomKey_unconfigured (excludeKey : option string) (w : world) :
  GEMINI_API_KEYS E = [] -> Gemini.getRandomKey E excludeKey w = (Return None, w).
Proof.
  intros H. unfold Gemini.getRandomKey, Pool.getRandomKey. rewrite H. reflexivity.
Qed.

(** The vision pipeline records its call, then either throws the
    configuration error, exactly when no key is configured, or makes at
    most three provider calls and returns as the retry loop ended. *)
Lemma generateWebPageWithImages_spec (prompt : string) (assets : list asset)
    (designJSON : option json) (excludeKey : option string) (w : world) :
  exists o w' es,
    Gemini.generateWebPageWithImages E prompt assets designJSON excludeKey w = (o, w')
    /\ calls w' = calls w ++ CalledGenerateWebPageWithImages :: es
    /\ Forall (fun e => isGeminiFetch e = true) es
    /\ length es <= 3
    /\ match o with
       | Throw message =>
           message = Gemini.noKeysMessage /\ GEMINI_API_KEYS E = [] /\ es = []
       | Return r =>
           GEMINI_API_KEYS E <> []
           /\ loopEnded (length (List.filter isImage assets)) (Json.truthyOpt designJSON) r es
       end.
Proof.
  unfold Gemini.generateWebPageWithImages, bind, record. cbv beta iota.
  set (w0 := World (failedKeys w) (randomsDrawn w) (geminiFetches w) (sambaNovaFetches w)
                   (spaceCalls w) (calls w ++ [CalledGenerateWebPageWithImages])).
  destruct (GEMINI_API_KEYS E) as [|k0 ks] eqn:Hkeys.
  - rewrite (getRandomKey_unconfigured excludeKey w0 Hkeys).
    exists (Throw Gemini.noKeysMessage), w0, [].
    repeat split; [constructor | simpl; lia].
  - assert (Hne : GEMINI_API_KEYS E <> []) by (rewrite Hkeys; discriminate).
    destruct (getRandomKey_world E excludeKey w0) as (k & w1 & Hk & Hc & _).
    destruct (getRandomKey_configured E excludeKey w0 Hne) as (key & Hkey & Htruthy).
    rewrite Hk in Hkey. simpl in Hkey. injection Hkey as ->.
    rewrite Hk, Htruthy. cbn [negb].
    destruct (generateLoop_spec E (length (List.filter isImage assets))
                (Json.truthyOpt designJSON) key (Nat.min 3 (length (k0 :: ks))) 0 None w1)
      as (r & w' & es & Hrun & Hc' & Hall & Hlen & Hres).
    exists (Return r), w', es. rewrite Hrun.
    split; [reflexivity |].
    split; [rewrite Hc', Hc; subst w0; simpl; rewrite <- app_assoc; reflexivity |].
    split; [exact Hall |].
    split; [lia |].
    split; [discriminate | exact Hres].
Qed.

(** The pre-processing step of the router never throws and records
    exactly [preprocessingCalls]. *)
Lemma preprocessing_spec (assets : list asset) (w : world) :
  exists designJSON w',
    (match Router.imageData (List.find isImage assets) with
     | Some d =>
         tryCatch
           (let! hfResult := Space.preprocessImage E d in
            ret (Space.buildDesignJSON hfResult))
           (fun _ => ret None)
     | None => ret None
     end) w = (Return designJSON, w')
    /\ calls w' = calls w ++ preprocessingCalls assets
    /\ geminiFetches w' = geminiFetches w.
Proof.
  unfold preprocessingCalls.
  destruct (Router.imageData (List.find isImage assets)) as [d|].
  - unfold tryCatch, bind, Space.preprocessImage, bind, record, ret. cbv beta iota.
    eexists _, _. split; [reflexivity |]. split; reflexivity.
  - eexists _, _. split; [reflexivity |]. simpl. rewrite app_nil_r. auto.
Qed.

(** The multi-file generation of the vision pipeline returns whenever the
    flat stage does. *)
Lemma generateReactWithGemini_spec (prompt : string) (assets : list asset)
    (designJSON : option json) (w : world) :
  exists o w' es,
    Router.generateReactWithGemini E prompt assets designJSON w = (o, w')
    /\ calls w' = calls w ++ CalledGenerateWebPageWithImages :: es
    /\ Forall (fun e => isGeminiFetch e = true) es
    /\ match o with
       | Throw message => message = Gemini.noKeysMessage /\ GEMINI_API_KEYS E = []
       | Return _ => GEMINI_API_KEYS E <> []
       end.
Proof.
  unfold Router.generateReactWithGemini, bind.
  destruct (generateWebPageWithImages_spec prompt assets designJSON None w)
    as (o & w' & es & Hrun & Hc & Hall & _ & Ho).
  rewrite Hrun. destruct o as [r | message].
  - destruct Ho as [Hne _].
    destruct (negb (Generation.success r)).
    { exists (Return (Router.reactFailure (Generation.error r))), w', es. auto. }
    destruct (0 <? length (parseReactOutput E (default "" (Generation.rawContent r)))).
    { eexists (Return _), w', es. split; [reflexivity | auto]. }
    destruct (Gemini.parseGeneratedCode (default "" (Generation.rawContent r))) as [html css].
    destruct (Js.truthy html || Js.truthy css);
      eexists (Return _), w', es; (split; [reflexivity | auto]).
  - destruct Ho as (-> & Hnil & _).
    exists (Throw Gemini.noKeysMessage), w', es. auto.
Qed.

End VisionFacts.

Lemma loopEnded_success (images : nat) (usedJSON : bool) (r : generation)
    (es : list event) :
  loopEnded images usedJSON r es ->
  Generation.success r = true ->
  exists content html css,
    Generation.rawContent r = Some content
    /\ Gemini.parseGeneratedCode content = (html, css)
    /\ Generation.html r = Some html
    /\ Generation.css r = Some css
    /\ 100 <= String.length html
    /\ 50 <= String.length css.
Proof.
  intros [[_ (lastError & ->)] | (a & content & html & css & _ & _ & Hp & Hh & Hc & ->)] Hs.
  - discriminate.
  - exists content, html, css. simpl. repeat split; assumption.
Qed.

(** The image path of the router is the pre-processing step followed by
    the vision pipeline: its multi-file generation, or its flat
    generation with the result relabelled. *)
Lemma generateCode_image (E : environment) (prompt : string) (assets : list asset)
    (framework : string) (w : world) :
  List.existsb isImage assets = true ->
  exists designJSON w1,
    geminiFetches w1 = geminiFetches w
    /\ calls w1 = calls w ++ preprocessingCalls assets
    /\ Router.generateCode E prompt assets framework w
       = if Router.isReact framework
         then Router.generateReactWithGemini E prompt assets designJSON w1
         else match Gemini.generateWebPageWithImages E prompt assets designJSON None w1 with
              | (Return result, w') =>
                  (Return (Generation.withUsedHF (Generation.routed result "gemini" "html")
                                                 (Json.truthyOpt designJSON)), w')
              | (Throw message, w') => (Throw message, w')
              end.
Proof.
  intros Himg.
  unfold Router.generateCode. rewrite Himg.
  unfold Router.generateWithImage. unfold bind at 1.
  destruct (preprocessing_spec E assets w) as (designJSON & w1 & Hpre & Hc & Hf).
  rewrite Hpre. exists designJSON, w1.
  split; [exact Hf |]. split; [exact Hc |].
  destruct (Router.isReact framework); reflexivity.
Qed.

(** C1, as the specification words it, fails on the fast text pipeline:
    a 2xx answer with a nine-character page and a three-character style
    sheet comes back with [success = true]. *)
Lemma fast_text_success_below_floor_counterexample :
  exists r,
    fst (Router.generateCode (Sample.environmentWith "" Sample.shortPair)
           "dark portfolio hero section" [] "html" initialWorld) = Return r
    /\ Generation.success r = true
    /\ Generation.html r = Some "<p>hi</p>"
    /\ Generation.css r = Some "p{}"
    /\ Generation.htmlLength r < 100
    /\ Generation.cssLength r < 50.
Proof.
  eexists. vm_compute. repeat split; lia.
Qed.

(** C1, amended.  A flat-mode generation through the vision pipeline,
    called directly or reached through the router, that returns
    [success = true] returns the page and the style sheet parsed from the
    raw content it reports, and these have at least 100 and at least 50
    characters. *)
Theorem vision_success_meets_floors (E : environment) (prompt : string)
    (assets : list asset) (designJSON : option json) (excludeKey : option string)
    (framework : string) (w : world) (run : outcome generation * world)
    (r : generation) (w' : world) :
  run = Gemini.generateWebPageWithImages E prompt assets designJSON excludeKey w
  \/ (List.existsb isImage assets = true /\ Router.isReact framework = false
      /\ run = Router.generateCode E prompt assets framework w) ->
  run = (Return r, w') ->
  Generation.success r = true ->
  exists content html css,
    Generation.rawContent r = Some content
    /\ Gemini.parseGeneratedCode content = (html, css)
    /\ Generation.html r = Some html
    /\ Generation.css r = Some css
    /\ 100 <= String.length html
    /\ 50 <= String.length css.
Proof.
  intros [-> | (Himg & Hflat & ->)] Hrun Hsuccess.
  - destruct (generateWebPageWithImages_spec E prompt assets designJSON excludeKey w)
      as (o & w0 & es & Hspec & _ & _ & _ & Ho).
    rewrite Hspec in Hrun. injection Hrun as -> ->.
    destruct Ho as [_ Hended]. eapply loopEnded_success; eauto.
  - destruct (generateCode_image E prompt assets framework w Himg)
      as (dj & w1 & _ & _ & Heq).
    rewrite Hflat in Heq. rewrite Heq in Hrun.
    destruct (generateWebPageWithImages_spec E prompt assets dj None w1)
      as (o & w0 & es & Hspec & _ & _ & _ & Ho).
    rewrite Hspec in Hrun. destruct o as [r0 | message]; [| discriminate].
    injection Hrun as <- <-. simpl in Hsuccess.
    destruct Ho as [_ Hended].
    destruct (loopEnded_success _ _ _ _ Hended Hsuccess)
      as (content & html & css & H1 & H2 & H3 & H4 & H5 & H6).
    exists content, html, css. simpl. repeat split; assumption.
Qed.

Lemma vision_success_meets_floors_witness :
  exists content html css,
    Generation.rawContent Sample.flatResult = Some content
    /\ Gemini.parseGeneratedCode content = (html, css)
    /\ Generation.html Sample.flatResult = Some html
    /\ Generation.css Sample.flatResult = Some css
    /\ 100 <= String.length html
    /\ 50 <= String.length css.
Proof.
  assert (Hrun : Gemini.generateWebPageWithImages Sample.longEnvironment
                   "dark portfolio hero section" [] None None initialWorld
                 = (Return Sample.flatResult,
                    World ∅ 1 1 0 0
                      [CalledGenerateWebPageWithImages;
                       FetchedGemini "A" (Sample.answer Sample.longPair)]))
    by (vm_compute; reflexivity).
  exact (vision_success_meets_floors Sample.longEnvironment
           "dark portfolio hero section" [] None None "html" initialWorld _ _ _
           (or_introl eq_refl) Hrun eq_refl).
Defined.

(* ===================================================================== *)
(** ** Multi-file generation *)
(* ===================================================================== *)

Lemma geminiAnswers_app (l1 l2 : list event) :
  geminiAnswers (l1 ++ l2) = geminiAnswers l1 ++ geminiAnswers l2.
Proof.
  induction l1 as [|e l1 IH]; [reflexivity |].
  destruct e; simpl; rewrite IH; reflexivity.
Qed.

Lemma geminiAnswers_preprocessing (assets : list asset) :
  geminiAnswers (preprocessingCalls assets) = [].
Proof.
  unfold preprocessingCalls.
  destruct (Router.imageData (List.find isImage assets)); reflexivity.
Qed.

(** C5, as the specification words it, fails: the flat parser recovers a
    page and a style sheet from this response, which has no file marker,
    and yet multi-file generation reports failure, because the vision
    pipeline first puts the response through the flat validation. *)
Lemma react_short_pair_counterexample :
  let E := Sample.environmentWith "A" Sample.shortPair in
  parseReactOutput E Sample.shortPair = []
  /\ Gemini.parseGeneratedCode Sample.shortPair = ("<p>hi</p>", "p{}")
  /\ fst (Router.generateCode E "dark portfolio hero section" [Sample.image] "react"
            initialWorld)
     = Return (Router.reactFailure (Some "All API keys exhausted"))
  /\ Generation.success (Router.reactFailure (Some "All API keys exhausted")) = false.
Proof. vm_compute. repeat split. Qed.

(** C5, amended.  In multi-file mode with an image attached: whenever
    the last raw model response the generation received (a readable 2xx
    answer) has no file markers and the page and style sheet the flat
    parser recovers from it reach the floors of the flat validation (100
    and 50 characters), the generation returns [success = true] with two
    files, an [App.tsx] that wraps the recovered page and an [index.css]
    that holds the recovered style sheet. *)
Theorem react_fallback_wraps_flat_pair (E : environment) (prompt : string)
    (assets : list asset) (w : world) (es : list event) (a : response)
    (raw html css : string) :
  List.existsb isImage assets = true ->
  calls (snd (Router.generateCode E prompt assets "react" w)) = calls w ++ es ->
  last (geminiAnswers es) = Some a ->
  readable a = Some raw ->
  parseReactOutput E raw = [] ->
  Gemini.parseGeneratedCode raw = (html, css) ->
  100 <= String.length html ->
  50 <= String.length css ->
  exists r,
    fst (Router.generateCode E prompt assets "react" w) = Return r
    /\ Generation.success r = true
    /\ Generation.fallback r = Some true
    /\ Generation.rawContent r = Some raw
    /\ Generation.files r
       = Some [File "App.tsx" (Router.appSource html) "typescript";
               File "index.css" css "css"].
Proof.
  intros Himg Hcalls Hlast Hread Hfiles Hparse Hh Hc.
  destruct (generateCode_image E prompt assets "react" w Himg)
    as (designJSON & w1 & _ & Hc1 & Heq).
  change (Router.isReact "react") with true in Heq. cbv iota in Heq.
  rewrite Heq in Hcalls |- *. clear Heq.
  unfold Router.generateReactWithGemini, bind in *.
  destruct (generateWebPageWithImages_spec E prompt assets designJSON None w1)
    as (o & w' & es0 & Hrun & Hc' & _ & _ & Ho).
  rewrite Hrun in Hcalls |- *.
  assert (Hanswers : forall w2, calls w2 = calls w' ->
                                calls w2 = calls w ++ es ->
                                last (geminiAnswers es0) = Some a).
  { intros w2 Hw2 Hes. rewrite Hw2, Hc', Hc1, <- app_assoc in Hes.
    apply app_inv_head in Hes. subst es.
    rewrite geminiAnswers_app, geminiAnswers_preprocessing in Hlast. exact Hlast. }
  assert (Haccepted : accepted a = true).
  { unfold accepted. rewrite Hread, Hparse.
    apply andb_true_iff. split; apply Nat.leb_le; assumption. }
  destruct o as [r0 | message].
  - destruct Ho as [_ Hended].
    destruct Hended as [[Hrejected (lastError & ->)]
                       | (a' & content & html' & css' & Hlast' & Hread' & Hparse' & _ & _ & ->)].
    + exfalso. simpl in Hcalls.
      pose proof (Hanswers w' eq_refl Hcalls) as Hl.
      rewrite last_Some in Hl. destruct Hl as [l' Hl].
      rewrite Hl in Hrejected. apply Forall_app in Hrejected as [_ Hrejected].
      inversion Hrejected as [| ? ? Hrej _]; subst. congruence.
    + cbn [flatSuccess Generation.success negb Generation.rawContent default] in Hcalls |- *.
      unfold id in *.
      assert (Hsame : a' = a /\ content = raw).
      { assert (Hw : exists w2, calls w2 = calls w' /\ calls w2 = calls w ++ es).
        { destruct (0 <? length (parseReactOutput E content)).
          - eexists. split; [| exact Hcalls]. reflexivity.
          - destruct (Gemini.parseGeneratedCode content) as [h c].
            destruct (Js.truthy h || Js.truthy c);
              (eexists; split; [| exact Hcalls]; reflexivity). }
        destruct Hw as (w2 & Hw2 & Hes).
        pose proof (Hanswers w2 Hw2 Hes) as Hl. rewrite Hlast' in Hl.
        injection Hl as ->. rewrite Hread in Hread'. injection Hread' as <-. auto. }
      destruct Hsame as [-> ->].
      rewrite Hparse in Hparse'. injection Hparse' as <- <-.
      rewrite Hfiles. cbn [length Nat.ltb Nat.leb]. rewrite Hparse.
      assert (Th : Js.truthy html = true)
        by (destruct html; [simpl in Hh; lia | reflexivity]).
      assert (Tc : Js.truthy css = true)
        by (destruct css; [simpl in Hc; lia | reflexivity]).
      rewrite Th. cbn [orb].
      eexists. split; [reflexivity |].
      unfold Router.reactSuccess, Router.fallbackFiles, Js.orElse. rewrite Tc.
      repeat split.
  - exfalso. destruct Ho as (_ & _ & ->). simpl in Hcalls.
    pose proof (Hanswers w' eq_refl Hcalls) as Hl. discriminate Hl.
Qed.

Lemma react_fallback_wraps_flat_pair_witness :
  exists r,
    fst (Router.generateCode Sample.longEnvironment "dark portfolio hero section"
           [Sample.image] "react" initialWorld) = Return r
    /\ Generation.success r = true
    /\ Generation.fallback r = Some true
    /\ Generation.rawContent r = Some Sample.longPair
    /\ Generation.files r
       = Some [File "App.tsx" (Router.appSource Sample.longHtml) "typescript";
               File "index.css" (Js.trim Sample.longCss) "css"].
Proof.
  apply (react_fallback_wraps_flat_pair Sample.longEnvironment
           "dark portfolio hero section" [Sample.image] initialWorld
           [CalledPreprocessImage "data:image/png;base64,iVBORw0KGgo=";
            CalledGenerateWebPageWithImages;
            FetchedGemini "A" (Sample.answer Sample.longPair)]
           (Sample.answer Sample.longPair) Sample.longPair Sample.longHtml
           (Js.trim Sample.longCss)).
  - reflexivity.
  - vm_compute. reflexivity.
  - reflexivity.
  - reflexivity.
  - reflexivity.
  - vm_compute. reflexivity.
  - vm_compute. lia.
  - vm_compute. lia.
Defined.

(* ===================================================================== *)
(** ** The fast text pipeline *)
(* ===================================================================== *)

Section TextFacts.

Variable E : environment.

(** A call to the provider makes at most one fetch and touches nothing
    else in the call record. *)
Lemma callSambaNova_calls (model : string) (w : world) :
  exists o w' es,
    SambaNova.callSambaNova E model w = (o, w')
    /\ calls w' = calls w ++ es
    /\ Forall (fun e => isSambaNovaFetch e = true) es.
Proof.
  unfold SambaNova.callSambaNova.
  destruct (negb (Js.truthy (VITE_SAMBANOVA_API_KEY E))).
  { exists (Throw SambaNova.notConfiguredMessage), w, [].
    rewrite app_nil_r. repeat split. constructor. }
  unfold bind, SambaNova.fetch. cbv beta iota zeta.
  set (a := sambaNova E (sambaNovaFetches w)).
  assert (Hone : Forall (fun e => isSambaNovaFetch e = true) [FetchedSambaNova a])
    by (repeat constructor).
  destruct a as [m | status b].
  { eexists _, _, _. split; [reflexivity |]. split; [reflexivity | exact Hone]. }
  destruct (negb (ok status)).
  { eexists _, _, _. split; [reflexivity |]. split; [reflexivity | exact Hone]. }
  destruct b; eexists _, _, _; (split; [reflexivity |]; split; [reflexivity | exact Hone]).
Qed.

(** The chat functions catch whatever the call throws. *)
Lemma ask_returns (model : string) (w : world) :
  returned (SambaNova.ask E model w) = true.
Proof.
  unfold returned, SambaNova.ask, tryCatch, bind.
  destruct (SambaNova.callSambaNova E model w) as [[p | message] w1]; [| reflexivity].
  destruct p; reflexivity.
Qed.

(** The flat generation of the fast text pipeline always returns, having
    recorded its own call and at most one fetch. *)
Lemma generateWebPage_spec (prompt : string) (w : world) :
  exists r w' es,
    SambaNova.generateWebPage E prompt w = (Return r, w')
    /\ calls w' = calls w ++ CalledGenerateWebPage :: es
    /\ Forall (fun e => isSambaNovaFetch e = true) es.
Proof.
  unfold SambaNova.generateWebPage, bind at 1, record. cbv beta iota.
  set (w0 := World (failedKeys w) (randomsDrawn w) (geminiFetches w) (sambaNovaFetches w)
                   (spaceCalls w) (calls w ++ [CalledGenerateWebPage])).
  unfold tryCatch, bind.
  destruct (callSambaNova_calls SambaNova.CODE_GENERATION w0) as (o & w1 & es & Hcall & Hc & Hall).
  rewrite Hcall.
  assert (Hcalls : calls w1 = calls w ++ CalledGenerateWebPage :: es).
  { rewrite Hc. subst w0. simpl. rewrite <- app_assoc. reflexivity. }
  destruct o as [p | message].
  - destruct p as [| m | t]; cbn -[SambaNova.parseGeneratedCode].
    + destruct (SambaNova.parseGeneratedCode "") as [html css].
      eexists _, w1, es. split; [reflexivity | auto].
    + eexists _, w1, es. split; [reflexivity | auto].
    + destruct (SambaNova.parseGeneratedCode t) as [html css].
      eexists _, w1, es. split; [reflexivity | auto].
  - eexists _, w1, es. split; [reflexivity | auto].
Qed.

End TextFacts.

(* ===================================================================== *)
(** ** The generation router *)
(* ===================================================================== *)





(* ===================================================================== *)
(** ** Exceptions at the entry points *)
(* ===================================================================== *)

(** C6, as the specification words it, fails: with no Gemini credential
    configured the optimiser, the vision pipeline and the image path of
    the router each throw instead of returning a result. *)
Lemma entry_points_throw_without_keys_counterexample :
  let E := Sample.environmentWith "" Sample.longPair in
  GEMINI_API_KEYS E = []
  /\ fst (Gemini.optimizePrompt E "dark portfolio hero section" [] initialWorld)
     = Throw Gemini.noKeysMessage
  /\ fst (Gemini.generateWebPageWithImages E "dark portfolio hero section" [] None None
            initialWorld)
     = Throw Gemini.noKeysMessage
  /\ fst (Router.generateCode E "dark portfolio hero section" [Sample.image] "html"
            initialWorld)
     = Throw Gemini.noKeysMessage
  /\ returned (Gemini.optimizePrompt E "dark portfolio hero section" [] initialWorld)
     = false.
Proof. vm_compute. repeat split. Qed.

(** C6, amended.  The chat entry point and the text-only flat path of the
    router return a result for every input and every behaviour of the
    provider.  The optimiser, the vision pipeline and the image path of
    the router return a result whenever at least one Gemini credential is
    configured; with none configured each of them throws the
    configuration error. *)
Theorem entry_points_return_unless_unconfigured (E : environment) :
  (forall message taskType context w,
      returned (SambaNova.chat E message taskType context w) = true)
  /\ (forall prompt assets framework w,
         List.existsb isImage assets = false ->
         Router.isReact framework = false ->
         returned (Router.generateCode E prompt assets framework w) = true)
  /\ (GEMINI_API_KEYS E <> [] ->
      forall prompt assets designJSON excludeKey framework w,
        returned (Gemini.optimizePrompt E prompt assets w) = true
        /\ returned (Gemini.generateWebPageWithImages E prompt assets designJSON
                       excludeKey w) = true
        /\ (List.existsb isImage assets = true ->
            returned (Router.generateCode E prompt assets framework w) = true))
  /\ (GEMINI_API_KEYS E = [] ->
      forall prompt assets designJSON excludeKey framework w,
        fst (Gemini.optimizePrompt E prompt assets w) = Throw Gemini.noKeysMessage
        /\ fst (Gemini.generateWebPageWithImages E prompt assets designJSON
                  excludeKey w) = Throw Gemini.noKeysMessage
        /\ (List.existsb isImage assets = true ->
            fst (Router.generateCode E prompt assets framework w)
            = Throw Gemini.noKeysMessage)).
Proof.
  assert (Hvision : forall prompt assets designJSON excludeKey w,
             (GEMINI_API_KEYS E <> [] ->
              returned (Gemini.generateWebPageWithImages E prompt assets designJSON
                          excludeKey w) = true)
             /\ (GEMINI_API_KEYS E = [] ->
                 fst (Gemini.generateWebPageWithImages E prompt assets designJSON
                        excludeKey w) = Throw Gemini.noKeysMessage)).
  { intros prompt assets designJSON excludeKey w.
    destruct (generateWebPageWithImages_spec E prompt assets designJSON excludeKey w)
      as (o & w' & es & Hrun & _ & _ & _ & Ho).
    unfold returned. rewrite Hrun. simpl.
    destruct o as [r | message].
    - destruct Ho as [Hne _]. split; [reflexivity | contradiction].
    - destruct Ho as (-> & Hnil & _). split; [contradiction | reflexivity]. }
  assert (Himage : forall prompt assets framework w,
             List.existsb isImage assets = true ->
             (GEMINI_API_KEYS E <> [] ->
              returned (Router.generateCode E prompt assets framework w) = true)
             /\ (GEMINI_API_KEYS E = [] ->
                 fst (Router.generateCode E prompt assets framework w)
                 = Throw Gemini.noKeysMessage)).
  { intros prompt assets framework w Himg.
    destruct (generateCode_image E prompt assets framework w Himg)
      as (designJSON & w1 & _ & _ & Heq).
    rewrite Heq. clear Heq.
    destruct (Router.isReact framework).
    - destruct (generateReactWithGemini_spec E prompt assets designJSON w1)
        as (o & w' & es & Hrun & _ & _ & Ho).
      unfold returned. rewrite !Hrun. simpl.
      destruct o as [r | message].
      + split; [reflexivity | contradiction].
      + destruct Ho as [-> Hnil]. split; [contradiction | reflexivity].
    - destruct (generateWebPageWithImages_spec E prompt assets designJSON None w1)
        as (o & w' & es & Hrun & _ & _ & _ & Ho).
      unfold returned. rewrite !Hrun.
      destruct o as [r | message]; simpl.
      + destruct Ho as [Hne _]. split; [reflexivity | contradiction].
      + destruct Ho as (-> & Hnil & _). split; [contradiction | reflexivity]. }
  split; [| split; [| split]].
  - intros message taskType context w. unfold SambaNova.chat.
    destruct (String.eqb taskType "code"); [apply ask_returns |].
    destruct (String.eqb taskType "syllabus"); [apply ask_returns |].
    destruct (String.eqb taskType "boxmodel"); apply ask_returns.
  - intros prompt assets framework w Himg Hflat.
    unfold Router.generateCode. rewrite Himg.
    unfold Router.generateTextOnly. rewrite Hflat. unfold bind.
    destruct (generateWebPage_spec E prompt w) as (r & w' & es & Hrun & _).
    rewrite Hrun. reflexivity.
  - intros Hne prompt assets designJSON excludeKey framework w.
    split; [| split].
    + destruct (optimizePrompt_returns_when_configured E prompt assets w Hne) as (r & w' & Hrun).
      unfold returned. rewrite Hrun. reflexivity.
    + apply Hvision. exact Hne.
    + intros Himg. apply Himage; assumption.
  - intros Hnil prompt assets designJSON excludeKey framework w.
    split; [| split].
    + unfold Gemini.optimizePrompt, bind.
      rewrite (getRandomKey_unconfigured E None w Hnil). reflexivity.
    + apply Hvision. exact Hnil.
    + intros Himg. apply Himage; assumption.
Qed.

Lemma entry_points_return_unless_unconfigured_witness :
  returned (SambaNova.chat Sample.longEnvironment "What is flexbox?" "explanation"
              (SambaNova.ChatContext None None None None) initialWorld) = true
  /\ returned (Router.generateCode Sample.longEnvironment "dark portfolio hero section"
                 [] "html" initialWorld) = true
  /\ returned (Gemini.optimizePrompt Sample.longEnvironment "dark portfolio hero section"
                 [Sample.image] initialWorld) = true
  /\ fst (Gemini.optimizePrompt (Sample.environmentWith "" Sample.longPair)
            "dark portfolio hero section" [Sample.image] initialWorld)
     = Throw Gemini.noKeysMessage.
Proof.
  destruct (entry_points_return_unless_unconfigured Sample.longEnvironment)
    as (Hchat & Htext & Hconfigured & _).
  destruct (entry_points_return_unless_unconfigured
              (Sample.environmentWith "" Sample.longPair)) as (_ & _ & _ & Hunconfigured).
  split; [apply Hchat |].
  split; [apply Htext; reflexivity |].
  split.
  - exact (proj1 (Hconfigured ltac:(vm_compute; discriminate)
                    "dark portfolio hero section" [Sample.image] None None "html"
                    initialWorld)).
  - exact (proj1 (Hunconfigured ltac:(vm_compute; reflexivity)
                    "dark portfolio hero section" [Sample.image] None None "html"
                    initialWorld)).
Defined.

(* ===================================================================== *)
(** ** The key list and the failed set *)
(* ===================================================================== *)

Lemma split_without_separator (sep : ascii) (s x : string) :
  In x (Js.split sep s) -> allChars (fun c => negb (Js.ascii_eqb c sep)) x = true.
Proof.
  revert x. induction s as [|c s IH]; intros x Hx.
  - simpl in Hx. destruct Hx as [<- | []]. reflexivity.
  - simpl in Hx. destruct (Js.ascii_eqb c sep) eqn:Hc.
    + destruct Hx as [<- | Hx]; [reflexivity | exact (IH x Hx)].
    + destruct (Js.split sep s) as [|y ys] eqn:Hs.
      * destruct Hx as [<- | []]. simpl. rewrite Hc. reflexivity.
      * destruct Hx as [<- | Hx].
        -- simpl. rewrite Hc. simpl. apply IH. left. reflexivity.
        -- apply IH. right. exact Hx.
Qed.

Lemma allChars_trimStart (p : ascii -> bool) (s : string) :
  allChars p s = true -> allChars p (Js.trimStart s) = true.
Proof.
  induction s as [|c s IH]; [reflexivity |].
  simpl. intros H. apply andb_true_iff in H as [Hc Hs].
  destruct (Js.isWhiteSpace c); [exact (IH Hs) |].
  simpl. rewrite Hc, Hs. reflexivity.
Qed.

Lemma allChars_trimEnd (p : ascii -> bool) (s : string) :
  allChars p s = true -> allChars p (Js.trimEnd s) = true.
Proof.
  induction s as [|c s IH]; [reflexivity |].
  simpl. intros H. apply andb_true_iff in H as [Hc Hs].
  specialize (IH Hs).
  destruct (Js.trimEnd s) as [|d t].
  - destruct (Js.isWhiteSpace c); [reflexivity |]. simpl. rewrite Hc. reflexivity.
  - change (allChars p (String c (String d t)) = true).
    simpl. simpl in IH. rewrite Hc, IH. reflexivity.
Qed.

Lemma trimEnd_idempotent (s : string) : Js.trimEnd (Js.trimEnd s) = Js.trimEnd s.
Proof.
  induction s as [|c s IH]; [reflexivity |].
  simpl. destruct (Js.trimEnd s) as [|d t] eqn:Ht.
  - destruct (Js.isWhiteSpace c) eqn:Hc; [reflexivity |].
    simpl. rewrite Hc. reflexivity.
  - change (Js.trimEnd (String c (String d t)) = String c (String d t)).
    change (Js.trimEnd (String c (String d t)))
      with (match Js.trimEnd (String d t) with
            | EmptyString => if Js.isWhiteSpace c then EmptyString else String c EmptyString
            | t' => String c t'
            end).
    rewrite IH. reflexivity.
Qed.

Lemma trimEnd_keeps_head (s : string) :
  stopsAt Js.isWhiteSpace s = true -> stopsAt Js.isWhiteSpace (Js.trimEnd s) = true.
Proof.
  destruct s as [|c s]; [reflexivity |].
  simpl. intros Hc. destruct (Js.trimEnd s).
  - destruct (Js.isWhiteSpace c) eqn:Hw; [reflexivity |].
    cbn [stopsAt]. rewrite Hw. reflexivity.
  - exact Hc.
Qed.

Lemma trimStart_stopsAt (s : string) : stopsAt Js.isWhiteSpace (Js.trimStart s) = true.
Proof.
  induction s as [|c s IH]; [reflexivity |].
  cbn [Js.trimStart]. destruct (Js.isWhiteSpace c) eqn:Hc; [exact IH |].
  cbn [stopsAt]. rewrite Hc. reflexivity.
Qed.

(** Trimming twice is trimming once. *)
Lemma trim_idempotent (s : string) : Js.trim (Js.trim s) = Js.trim s.
Proof.
  unfold Js.trim.
  rewrite (trimStart_fixed (Js.trimEnd (Js.trimStart s))).
  - apply trimEnd_idempotent.
  - apply trimEnd_keeps_head, trimStart_stopsAt.
Qed.

Lemma includes_char_false (c : ascii) (s : string) :
  allChars (fun x => negb (Js.ascii_eqb x c)) s = true ->
  Js.includes (String c EmptyString) s = false.
Proof.
  unfold Js.includes.
  induction s as [|d s IH]; [reflexivity |].
  simpl. intros H. apply andb_true_iff in H as [Hd Hs].
  apply negb_true_iff in Hd.
  assert (Hcd : Js.ascii_eqb c d = false).
  { unfold Js.ascii_eqb in *. rewrite Ascii.eqb_sym. exact Hd. }
  rewrite Hcd. simpl.
  specialize (IH Hs). destruct (Js.indexOf (String c "") s); [discriminate | reflexivity].
Qed.

(** X1.  Every key of the pool read from the environment variable is not
    empty, carries no white space at either end and contains no comma:
    blank entries of the comma-separated list are dropped and the others
    are trimmed. *)
Theorem loadKeys_entries_clean (raw k : string) :
  k ∈ loadKeys raw ->
  k <> "" /\ Js.trim k = k /\ Js.includes "," k = false.
Proof.
  unfold loadKeys. rewrite list_elem_of_In, filter_In, in_map_iff.
  intros [(x & <- & Hx) Hlen]. split; [| split].
  - intros Heq. rewrite Heq in Hlen. discriminate.
  - apply trim_idempotent.
  - apply includes_char_false. unfold Js.trim.
    apply allChars_trimEnd, allChars_trimStart.
    exact (split_without_separator "," raw x Hx).
Qed.

Lemma loadKeys_entries_clean_witness :
  "sk-1" ∈ loadKeys " sk-1 , ,sk-2"
  /\ ("sk-1" <> "" /\ Js.trim "sk-1" = "sk-1" /\ Js.includes "," "sk-1" = false).
Proof.
  assert (H : "sk-1" ∈ loadKeys " sk-1 , ,sk-2") by (vm_compute; left).
  split; [exact H | exact (loadKeys_entries_clean " sk-1 , ,sk-2" "sk-1" H)].
Defined.

Section SelectionFacts.

Variable keys : list string.
Variable E : environment.

Lemma pickRandom_run (arr : list string) (w : world) :
  arr <> [] ->
  exists k, k ∈ arr
    /\ Pool.pickRandom E arr w
       = (Return (Some k),
          World (failedKeys w) (S (randomsDrawn w)) (geminiFetches w)
                (sambaNovaFetches w) (spaceCalls w) (calls w)).
Proof.
  intros Hne.
  destruct (pickRandom_elem E arr w Hne) as (k & Hk & Hin).
  exists k. split; [exact Hin |].
  unfold Pool.pickRandom, bind, mathRandom, ret in *. simpl in *.
  injection Hk as Hk. rewrite Hk. reflexivity.
Qed.

(** X2.  While some key of the pool is neither marked failed nor
    excluded, the selection returns such a key and leaves the failed set
    as it is: a key marked failed is not handed out again before the pool
    is exhausted. *)
Theorem getRandomKey_avoids_failed_keys (excludeKey : option string) (w : world) :
  (exists k, k ∈ keys /\ (k ∉ failedKeys w) /\ differs k excludeKey = true) ->
  exists k w',
    Pool.getRandomKey keys E excludeKey w = (Return (Some k), w')
    /\ k ∈ keys /\ (k ∉ failedKeys w) /\ differs k excludeKey = true
    /\ failedKeys w' = failedKeys w.
Proof.
  intros (k0 & Hin & Hok & Hdiff).
  unfold Pool.getRandomKey.
  destruct (length keys =? 0) eqn:Hk.
  { apply length_zero_nil in Hk. subst keys. inversion Hin. }
  set (available := List.filter
         (fun k => negb (bool_decide (k ∈ failedKeys w)) && differs k excludeKey) keys).
  assert (Hk0 : k0 ∈ available).
  { apply elem_of_bool_filter. split; [exact Hin |].
    rewrite Hdiff, andb_true_r. apply negb_true_iff, bool_decide_eq_false. exact Hok. }
  assert (Hne : available <> []) by (intros Hnil; rewrite Hnil in Hk0; inversion Hk0).
  destruct (length available =? 0) eqn:Ha.
  { apply length_zero_nil in Ha. contradiction. }
  destruct (pickRandom_run available w Hne) as (k & Hkin & Hrun).
  exists k. eexists. split; [exact Hrun |].
  apply elem_of_bool_filter in Hkin as [Hkin Hf].
  apply andb_true_iff in Hf as [Hf1 Hf2].
  apply negb_true_iff, bool_decide_eq_false in Hf1.
  repeat split; assumption.
Qed.

End SelectionFacts.

Lemma getRandomKey_avoids_failed_keys_witness :
  let w := World {["B"]} 0 0 0 0 [] in
  exists k w',
    Pool.getRandomKey ["A"; "B"; "C"] (Sample.environmentWith "A,B,C" "") (Some "A") w
    = (Return (Some k), w')
    /\ k ∈ ["A"; "B"; "C"] /\ (k ∉ failedKeys w)
    /\ differs k (Some "A") = true
    /\ failedKeys w' = failedKeys w.
Proof.
  intros w.
  apply (getRandomKey_avoids_failed_keys ["A"; "B"; "C"] (Sample.environmentWith "A,B,C" "")
           (Some "A") w).
  exists "C". split; [set_solver | split; [set_solver | reflexivity]].
Defined.

(* ===================================================================== *)
(** ** Reasoning about calls *)
(* ===================================================================== *)

Lemma triple_ret {A : Type} (P : world -> Prop) (a : A) (Q : outcome A -> world -> Prop) :
  (forall w, P w -> Q (Return a) w) -> triple P (ret a) Q.
Proof. intros H w Hw. exact (H w Hw). Qed.

Lemma triple_throw {A : Type} (P : world -> Prop) (m : string)
    (Q : outcome A -> world -> Prop) :
  (forall w, P w -> Q (Throw m) w) -> triple P (throw m) Q.
Proof. intros H w Hw. exact (H w Hw). Qed.

Lemma triple_bind {A B : Type} (P : world -> Prop) (c : M A) (k : A -> M B)
    (R : outcome A -> world -> Prop) (Q : outcome B -> world -> Prop) :
  triple P c R ->
  (forall a, triple (R (Return a)) (k a) Q) ->
  (forall m w, R (Throw m) w -> Q (Throw m) w) ->
  triple P (bind c k) Q.
Proof.
  intros Hc Hk Ht w Hw. specialize (Hc w Hw). unfold bind.
  destruct (c w) as [[a | m] w1]; simpl in Hc.
  - exact (Hk a w1 Hc).
  - simpl. exact (Ht m w1 Hc).
Qed.

Lemma triple_tryCatch {A : Type} (P : world -> Prop) (c : M A) (h : string -> M A)
    (R : outcome A -> world -> Prop) (Q : outcome A -> world -> Prop) :
  triple P c R ->
  (forall a w, R (Return a) w -> Q (Return a) w) ->
  (forall m, triple (R (Throw m)) (h m) Q) ->
  triple P (tryCatch c h) Q.
Proof.
  intros Hc Hr Hh w Hw. specialize (Hc w Hw). unfold tryCatch.
  destruct (c w) as [[a | m] w1]; simpl in Hc.
  - simpl. exact (Hr a w1 Hc).
  - exact (Hh m w1 Hc).
Qed.

Lemma triple_weaken {A : Type} (P P' : world -> Prop) (c : M A)
    (Q Q' : outcome A -> world -> Prop) :
  triple P' c Q' ->
  (forall w, P w -> P' w) ->
  (forall o w, Q' o w -> Q o w) ->
  triple P c Q.
Proof. intros Hc HP HQ w Hw. apply HQ, Hc, HP, Hw. Qed.

(** Recording a call changes the call record only. *)
Lemma record_failedKeys (e : event) (w : world) :
  failedKeys (snd (record e w)) = failedKeys w.
Proof. reflexivity. Qed.

(* ===================================================================== *)
(** ** The failed set stays within the pool *)
(* ===================================================================== *)

Section FailedSetFacts.

Variable E : environment.

Local Abbreviation I := (failedWithin (GEMINI_API_KEYS E)).

(** Selection keeps the failed set within the pool and returns a key of
    the pool. *)
Lemma getRandomKey_within (excludeKey : option string) :
  triple I (Gemini.getRandomKey E excludeKey)
    (fun o w => I w /\ exists r, o = Return r
                                /\ forall k, r = Some k -> k ∈ GEMINI_API_KEYS E).
Proof.
  intros w Hw. unfold Gemini.getRandomKey, Pool.getRandomKey.
  destruct (length (GEMINI_API_KEYS E) =? 0) eqn:Hk.
  { simpl. split; [exact Hw |]. exists None. split; [reflexivity | discriminate]. }
  assert (Hne : GEMINI_API_KEYS E <> []).
  { intros Hnil. rewrite Hnil in Hk. discriminate. }
  assert (Hpick : forall (f : string -> bool) w0,
             I w0 -> List.filter f (GEMINI_API_KEYS E) <> [] ->
             let r := Pool.pickRandom E (List.filter f (GEMINI_API_KEYS E)) w0 in
             I (snd r) /\ exists o, fst r = Return o
                                   /\ forall k, o = Some k -> k ∈ GEMINI_API_KEYS E).
  { intros f w0 Hw0 Hnn.
    destruct (pickRandom_run E (List.filter f (GEMINI_API_KEYS E)) w0 Hnn)
      as (k & Hin & Hrun).
    cbv zeta. rewrite Hrun. simpl. split; [exact Hw0 |].
    exists (Some k). split; [reflexivity |].
    intros k' [= <-]. apply elem_of_bool_filter in Hin. tauto. }
  match goal with |- context [length ?a =? 0] => destruct (length a =? 0) eqn:Ha end.
  - unfold bind, Pool.clearFailed. cbv beta iota.
    set (w0 := World ∅ (randomsDrawn w) (geminiFetches w) (sambaNovaFetches w)
                     (spaceCalls w) (calls w)).
    assert (Hw0 : I w0) by (intros k Hk'; simpl in Hk'; set_solver).
    match goal with |- context [length ?a =? 0] => destruct (length a =? 0) eqn:Hr end.
    + simpl. split; [exact Hw0 |].
      exists (GEMINI_API_KEYS E !! 0). split; [reflexivity |].
      intros k Hk'. eapply list_elem_of_lookup_2. exact Hk'.
    + apply Hpick; [exact Hw0 |].
      intros Hnil. apply length_zero_nil in Hnil. congruence.
  - apply Hpick; [exact Hw |].
    intros Hnil. apply length_zero_nil in Hnil. congruence.
Qed.

Lemma request_within (key : string) :
  key ∈ GEMINI_API_KEYS E ->
  triple I (Gemini.request E key) (fun _ w => I w).
Proof.
  intros Hkey w Hw. unfold Gemini.request, bind, Gemini.fetch. cbv beta iota.
  set (w1 := World (failedKeys w) _ _ _ _ _).
  assert (Hw1 : I w1) by exact Hw.
  destruct (gemini E (geminiFetches w) key) as [m | status b]; [exact Hw1 |].
  destruct (status =? 429).
  - simpl. intros k Hk. simpl in Hk.
    apply elem_of_union in Hk as [Hk | Hk]; [| exact (Hw k Hk)].
    apply elem_of_singleton in Hk. subst k. exact Hkey.
  - destruct (negb (ok status)); [exact Hw1 |].
    destruct b as [m | e [ | m | s]]; exact Hw1.
Qed.

Lemma optimizeAttempt_within (userPrompt : string) (images : nat) (key : string)
    (st : Gemini.attempts) :
  key ∈ GEMINI_API_KEYS E ->
  triple I (Gemini.optimizeAttempt E userPrompt images key st) (fun _ w => I w).
Proof.
  intros Hkey. unfold Gemini.optimizeAttempt.
  eapply triple_tryCatch with (R := fun _ w => I w).
  - eapply triple_bind with (R := fun _ w => I w).
    + exact (request_within key Hkey).
    + intros [raw |]; [| apply triple_ret; auto].
      destruct (Gemini.parseOptimizationOutput E raw) as [d j].
      destruct (negb (Json.truthyOpt j)); [apply triple_ret; auto |].
      destruct j as [v |]; [| apply triple_ret; auto].
      destruct (Gemini.missingRequiredFields v); apply triple_ret; auto.
    + auto.
  - auto.
  - intros m. apply triple_ret. auto.
Qed.

Lemma generateAttempt_within (images : nat) (usedJSON : bool) (key : string)
    (lastError : option string) :
  key ∈ GEMINI_API_KEYS E ->
  triple I (Gemini.generateAttempt E images usedJSON key lastError) (fun _ w => I w).
Proof.
  intros Hkey. unfold Gemini.generateAttempt.
  eapply triple_tryCatch with (R := fun _ w => I w).
  - eapply triple_bind with (R := fun _ w => I w).
    + exact (request_within key Hkey).
    + intros [content |]; [| apply triple_ret; auto].
      destruct (Gemini.parseGeneratedCode content) as [html css].
      destruct (negb (Js.truthy html) || (String.length html <? 100));
        [apply triple_ret; auto |].
      destruct (negb (Js.truthy css) || (String.length css <? 50));
        apply triple_ret; auto.
    + auto.
  - auto.
  - intros m. apply triple_ret. auto.
Qed.

(** The key of a round: the first key, or a fresh selection. *)
Lemma currentKey_within (apiKey : string) (attempt : nat) :
  apiKey ∈ GEMINI_API_KEYS E ->
  triple I (if attempt =? 0 then ret (Some apiKey)
            else Gemini.getRandomKey E (Some apiKey))
    (fun o w => I w /\ exists r, o = Return r
                                /\ forall k, r = Some k -> k ∈ GEMINI_API_KEYS E).
Proof.
  intros Hkey. destruct (attempt =? 0).
  - apply triple_ret. intros w Hw. split; [exact Hw |].
    exists (Some apiKey). split; [reflexivity |]. intros k [= <-]. exact Hkey.
  - apply getRandomKey_within.
Qed.

Lemma optimizeLoop_within (userPrompt : string) (images : nat) (apiKey : string)
    (remaining : nat) :
  apiKey ∈ GEMINI_API_KEYS E ->
  forall jsonAttempt st,
    triple I (Gemini.optimizeLoop E userPrompt images apiKey remaining jsonAttempt st)
      (fun _ w => I w).
Proof.
  intros Hkey. induction remaining as [|remaining IH]; intros jsonAttempt st.
  - apply triple_ret. auto.
  - cbn [Gemini.optimizeLoop].
    eapply triple_bind; [exact (currentKey_within apiKey jsonAttempt Hkey) | |].
    + intros [key |].
      * destruct (negb (Js.truthy key)).
        { apply triple_ret. intros w [Hw _]. exact Hw. }
        intros w (Hw & r & Hr & Hin). injection Hr as <-.
        revert w Hw. change (triple I (let! s := Gemini.optimizeAttempt E userPrompt images key st in
                                       match s with
                                       | Finish r => ret r
                                       | Continue st' =>
                                           Gemini.optimizeLoop E userPrompt images apiKey
                                             remaining (S jsonAttempt) st'
                                       end) (fun _ w => I w)).
        eapply triple_bind with (R := fun _ w => I w).
        -- apply optimizeAttempt_within. apply Hin. reflexivity.
        -- intros [st' | r]; [apply IH | apply triple_ret; auto].
        -- auto.
      * apply triple_ret. intros w [Hw _]. exact Hw.
    + intros m w [Hw _]. exact Hw.
Qed.

Lemma generateLoop_within (images : nat) (usedJSON : bool) (apiKey : string)
    (remaining : nat) :
  apiKey ∈ GEMINI_API_KEYS E ->
  forall attempt lastError,
    triple I (Gemini.generateLoop E images usedJSON apiKey remaining attempt lastError)
      (fun _ w => I w).
Proof.
  intros Hkey. induction remaining as [|remaining IH]; intros attempt lastError.
  - apply triple_ret. auto.
  - cbn [Gemini.generateLoop].
    eapply triple_bind; [exact (currentKey_within apiKey attempt Hkey) | |].
    + intros [key |].
      * destruct (negb (Js.truthy key)).
        { apply triple_ret. intros w [Hw _]. exact Hw. }
        intros w (Hw & r & Hr & Hin). injection Hr as <-.
        revert w Hw.
        change (triple I (let! s := Gemini.generateAttempt E images usedJSON key lastError in
                          match s with
                          | Finish r => ret r
                          | Continue lastError' =>
                              Gemini.generateLoop E images usedJSON apiKey remaining
                                (S attempt) lastError'
                          end) (fun _ w => I w)).
        eapply triple_bind with (R := fun _ w => I w).
        -- apply generateAttempt_within. apply Hin. reflexivity.
        -- intros [e | r]; [apply IH | apply triple_ret; auto].
        -- auto.
      * apply triple_ret. intros w [Hw _]. exact Hw.
    + intros m w [Hw _]. exact Hw.
Qed.

Lemma optimizePrompt_within (userPrompt : string) (assets : list asset) :
  triple I (Gemini.optimizePrompt E userPrompt assets) (fun _ w => I w).
Proof.
  unfold Gemini.optimizePrompt.
  eapply triple_bind; [exact (getRandomKey_within None) | |].
  - intros [key |].
    + destruct (negb (Js.truthy key)).
      { apply triple_throw. intros w [Hw _]. exact Hw. }
      intros w (Hw & r & Hr & Hin). injection Hr as <-.
      apply optimizeLoop_within; [apply Hin; reflexivity | exact Hw].
    + apply triple_throw. intros w [Hw _]. exact Hw.
  - intros m w [Hw _]. exact Hw.
Qed.

Lemma generateWebPageWithImages_within (prompt : string) (assets : list asset)
    (designJSON : option json) (excludeKey : option string) :
  triple I (Gemini.generateWebPageWithImages E prompt assets designJSON excludeKey)
    (fun _ w => I w).
Proof.
  unfold Gemini.generateWebPageWithImages.
  eapply triple_bind with (R := fun _ w => I w).
  - intros w Hw. exact Hw.
  - intros _. eapply triple_bind; [exact (getRandomKey_within excludeKey) | |].
    + intros [key |].
      * destruct (negb (Js.truthy key)).
        { apply triple_throw. intros w [Hw _]. exact Hw. }
        intros w (Hw & r & Hr & Hin). injection Hr as <-.
        apply generateLoop_within; [apply Hin; reflexivity | exact Hw].
      * apply triple_throw. intros w [Hw _]. exact Hw.
    + intros m w [Hw _]. exact Hw.
  - auto.
Qed.

(** The fast text pipeline leaves the failed set alone. *)
Lemma callSambaNova_failedKeys (J : gset string -> Prop) (model : string) :
  triple (fun w => J (failedKeys w)) (SambaNova.callSambaNova E model)
    (fun _ w => J (failedKeys w)).
Proof.
  unfold SambaNova.callSambaNova.
  destruct (negb (Js.truthy (VITE_SAMBANOVA_API_KEY E))); [apply triple_throw; auto |].
  eapply triple_bind with (R := fun _ w => J (failedKeys w)).
  - intros w Hw. exact Hw.
  - intros [m | status b]; [apply triple_throw; auto |].
    destruct (negb (ok status)); [apply triple_throw; auto |].
    destruct b as [m | e c]; [apply triple_throw; auto | apply triple_ret; auto].
  - auto.
Qed.

Lemma generateWebPage_failedKeys (J : gset string -> Prop) (prompt : string) :
  triple (fun w => J (failedKeys w)) (SambaNova.generateWebPage E prompt)
    (fun _ w => J (failedKeys w)).
Proof.
  unfold SambaNova.generateWebPage.
  eapply triple_bind with (R := fun _ w => J (failedKeys w)).
  - intros w Hw. exact Hw.
  - intros _. eapply triple_tryCatch with (R := fun _ w => J (failedKeys w)).
    + eapply triple_bind; [apply callSambaNova_failedKeys | | auto].
      intros p. eapply triple_bind with (R := fun _ w => J (failedKeys w)).
      * unfold SambaNova.contentOf.
        destruct p; [apply triple_ret | apply triple_throw | apply triple_ret]; auto.
      * intros content. destruct (SambaNova.parseGeneratedCode content).
        apply triple_ret. auto.
      * auto.
    + auto.
    + intros m. apply triple_ret. auto.
  - auto.
Qed.

Lemma generateCode_within (prompt : string) (assets : list asset) (framework : string) :
  triple I (Router.generateCode E prompt assets framework) (fun _ w => I w).
Proof.
  unfold Router.generateCode.
  destruct (List.existsb isImage assets).
  - unfold Router.generateWithImage.
    eapply triple_bind with (R := fun _ w => I w).
    + destruct (Router.imageData (List.find isImage assets)) as [d |];
        [| apply triple_ret; auto].
      intros w Hw. exact Hw.
    + intros designJSON. destruct (Router.isReact framework).
      * unfold Router.generateReactWithGemini.
        eapply triple_bind with (R := fun _ w => I w);
          [apply generateWebPageWithImages_within | | auto].
        intros result. destruct (negb (Generation.success result));
          [apply triple_ret; auto |].
        destruct (0 <? length _); [apply triple_ret; auto |].
        destruct (Gemini.parseGeneratedCode _) as [html css].
        destruct (Js.truthy html || Js.truthy css); apply triple_ret; auto.
      * eapply triple_bind with (R := fun _ w => I w);
          [apply generateWebPageWithImages_within | | auto].
        intros result. apply triple_ret. auto.
    + auto.
  - unfold Router.generateTextOnly. destruct (Router.isReact framework).
    + intros w Hw. unfold bind, SambaNova.generateReactApp, bind, record. cbv beta iota.
      destruct (reactApp E prompt); exact Hw.
    + eapply triple_bind with (R := fun _ w => I w).
      * exact (generateWebPage_failedKeys
                 (fun X => forall k, k ∈ X -> k ∈ GEMINI_API_KEYS E) prompt).
      * intros r. apply triple_ret. auto.
      * auto.
Qed.

End FailedSetFacts.

Lemma size_list_to_set_le (l : list string) :
  size (list_to_set l : gset string) <= length l.
Proof.
  induction l as [|x l IH]; [rewrite list_to_set_nil, size_empty; lia |].
  rewrite list_to_set_cons, size_union_alt, size_singleton. simpl.
  assert (size (list_to_set l ∖ {[x]} : gset string) <= size (list_to_set l : gset string)).
  { apply subseteq_size, subseteq_difference_l. reflexivity. }
  lia.
Qed.

Lemma size_within_length (X : gset string) (l : list string) :
  (forall k, k ∈ X -> k ∈ l) -> size X <= length l.
Proof.
  intros H.
  assert (Hs : X ⊆ list_to_set l) by (intros k Hk; apply elem_of_list_to_set, H, Hk).
  apply subseteq_size in Hs. pose proof (size_list_to_set_le l). lia.
Qed.

(** X3.  The failed set only ever holds configured keys: if it does
    before an optimise request, a vision generation or a routed
    generation, it does afterwards, however the providers answer; so the
    number of failed keys never exceeds the number of keys. *)
Theorem failed_keys_stay_within_pool (E : environment) (w : world) :
  failedWithin (GEMINI_API_KEYS E) w ->
  forall prompt assets designJSON excludeKey framework,
    let after_optimize := snd (Gemini.optimizePrompt E prompt assets w) in
    let after_vision :=
      snd (Gemini.generateWebPageWithImages E prompt assets designJSON excludeKey w) in
    let after_routed := snd (Router.generateCode E prompt assets framework w) in
    failedWithin (GEMINI_API_KEYS E) after_optimize
    /\ failedWithin (GEMINI_API_KEYS E) after_vision
    /\ failedWithin (GEMINI_API_KEYS E) after_routed
    /\ Keys.getFailedKeyCount after_optimize <= Keys.getKeyCount E
    /\ Keys.getFailedKeyCount after_vision <= Keys.getKeyCount E
    /\ Keys.getFailedKeyCount after_routed <= Keys.getKeyCount E.
Proof.
  intros Hw prompt assets designJSON excludeKey framework.
  pose proof (optimizePrompt_within E prompt assets w Hw) as H1.
  pose proof (generateWebPageWithImages_within E prompt assets designJSON excludeKey w Hw)
    as H2.
  pose proof (generateCode_within E prompt assets framework w Hw) as H3.
  cbv zeta. unfold Keys.getFailedKeyCount, Keys.getKeyCount.
  repeat split; try assumption; apply size_within_length; assumption.
Qed.

Lemma failed_keys_stay_within_pool_witness :
  let E := Sample.throttledEnvironment in
  let before := World {["C"]} 0 0 0 0 [] in
  let after_vision :=
    snd (Gemini.generateWebPageWithImages E "dark portfolio hero section" [] None None
           before) in
  failedKeys after_vision = {["A"; "C"]}
  /\ failedWithin (GEMINI_API_KEYS E) after_vision
  /\ Keys.getFailedKeyCount after_vision <= Keys.getKeyCount E.
Proof.
  intros E before after_vision.
  assert (H0 : failedWithin (GEMINI_API_KEYS E) before).
  { intros k Hk. cbn [failedKeys before] in Hk. apply elem_of_singleton in Hk. subst k.
    vm_compute. set_solver. }
  pose proof (failed_keys_stay_within_pool E before H0
                "dark portfolio hero section" [] None None "html") as H.
  cbv zeta in H.
  split; [| split; [exact (proj1 (proj2 H)) | exact (proj1 (proj2 (proj2 (proj2 (proj2 H)))))]].
  subst after_vision. vm_compute. reflexivity.
Defined.

(* ===================================================================== *)
(** ** Retries and their keys *)
(* ===================================================================== *)

Section RetryFacts.

Variable E : environment.

(** Selecting with a key excluded: no provider call, the call record
    untouched, and a key other than the excluded one whenever the pool
    has one. *)
Lemma getRandomKey_other (x : string) (w : world) :
  (exists k, k ∈ GEMINI_API_KEYS E /\ k <> x) ->
  exists k w1,
    Gemini.getRandomKey E (Some x) w = (Return (Some k), w1)
    /\ calls w1 = calls w /\ k <> x /\ Js.truthy k = true.
Proof.
  intros (k0 & Hin & Hneq).
  assert (Hne : GEMINI_API_KEYS E <> []) by (intros Hnil; rewrite Hnil in Hin; inversion Hin).
  assert (Hreset : List.filter (fun k => differs k (Some x)) (GEMINI_API_KEYS E) <> []).
  { intros Hnil.
    assert (Hk0 : k0 ∈ List.filter (fun k => differs k (Some x)) (GEMINI_API_KEYS E)).
    { apply elem_of_bool_filter. split; [exact Hin |].
      simpl. apply negb_true_iff, String.eqb_neq. exact Hneq. }
    rewrite Hnil in Hk0. inversion Hk0. }
  assert (Hpick : forall (f : string -> bool) w0,
             (forall k, f k = true -> differs k (Some x) = true) ->
             List.filter f (GEMINI_API_KEYS E) <> [] ->
             exists k w1,
               Pool.pickRandom E (List.filter f (GEMINI_API_KEYS E)) w0
               = (Return (Some k), w1)
               /\ calls w1 = calls w0 /\ k <> x /\ Js.truthy k = true).
  { intros f w0 Hf Hnn.
    destruct (pickRandom_run E (List.filter f (GEMINI_API_KEYS E)) w0 Hnn)
      as (k & Hk2 & Hrun).
    exists k. eexists. split; [exact Hrun |]. split; [reflexivity |].
    apply elem_of_bool_filter in Hk2 as [Hk2 Hk3]. split.
    - apply Hf in Hk3. simpl in Hk3. apply negb_true_iff, String.eqb_neq in Hk3. exact Hk3.
    - eapply loadKeys_truthy. exact Hk2. }
  unfold Gemini.getRandomKey, Pool.getRandomKey.
  destruct (length (GEMINI_API_KEYS E) =? 0) eqn:Hk.
  { apply length_zero_nil in Hk. contradiction. }
  match goal with |- context [length ?a =? 0] => destruct (length a =? 0) eqn:Ha end.
  - unfold bind, Pool.clearFailed. cbv beta iota.
    match goal with |- context [length ?a =? 0] => destruct (length a =? 0) eqn:Hr end.
    { apply length_zero_nil in Hr. contradiction. }
    match goal with |- context [Pool.pickRandom E _ ?w0] =>
      destruct (Hpick (fun k => differs k (Some x)) w0) as (k & w1 & H1 & H2 & H3)
    end; [tauto | exact Hreset |].
    exists k, w1. split; [exact H1 |]. split; [exact H2 | exact H3].
  - apply Hpick.
    + intros k Hk'. apply andb_true_iff in Hk'. tauto.
    + intros Hnil. apply length_zero_nil in Hnil. congruence.
Qed.

(** A selection from a configured pool, whatever is excluded. *)
Lemma getRandomKey_some (excludeKey : option string) (w : world) :
  GEMINI_API_KEYS E <> [] ->
  exists k w1,
    Gemini.getRandomKey E excludeKey w = (Return (Some k), w1)
    /\ calls w1 = calls w /\ k ∈ GEMINI_API_KEYS E /\ Js.truthy k = true.
Proof.
  intros Hne.
  destruct (getRandomKey_world E excludeKey w) as (o & w1 & Hrun & Hc & _).
  destruct (getRandomKey_elem (GEMINI_API_KEYS E) E excludeKey w Hne) as (k & Hk & Hin).
  unfold Gemini.getRandomKey in Hrun. rewrite Hrun in Hk. simpl in Hk.
  injection Hk as ->. exists k, w1. split; [exact Hrun |].
  split; [exact Hc |]. split; [exact Hin |]. eapply loadKeys_truthy. exact Hin.
Qed.

Lemma keysOfRounds_cons (apiKey key : string) (attempt : nat) (ks : list string) :
  (if attempt =? 0 then key = apiKey else key <> apiKey) ->
  Forall (fun k => k <> apiKey) ks ->
  keysOfRounds apiKey attempt (key :: ks).
Proof.
  unfold keysOfRounds. destruct (attempt =? 0); intros Hk Hks.
  - split; assumption.
  - constructor; assumption.
Qed.

Lemma currentKey_other (apiKey : string) (attempt : nat) (w : world) :
  (exists k, k ∈ GEMINI_API_KEYS E /\ k <> apiKey) ->
  Js.truthy apiKey = true ->
  exists key w1,
    (if attempt =? 0 then ret (Some apiKey)
     else Gemini.getRandomKey E (Some apiKey)) w = (Return (Some key), w1)
    /\ calls w1 = calls w
    /\ Js.truthy key = true
    /\ (if attempt =? 0 then key = apiKey else key <> apiKey).
Proof.
  intros Hother Htruthy. destruct (attempt =? 0).
  - exists apiKey, w. auto.
  - destruct (getRandomKey_other apiKey w Hother) as (k & w1 & H1 & H2 & H3 & H4).
    exists k, w1. auto.
Qed.

Lemma optimizeLoop_keys (userPrompt : string) (images : nat) (apiKey : string)
    (remaining : nat) :
  (exists k, k ∈ GEMINI_API_KEYS E /\ k <> apiKey) ->
  Js.truthy apiKey = true ->
  forall (jsonAttempt : nat) (st : Gemini.attempts) (w : world),
  exists r w' es,
    Gemini.optimizeLoop E userPrompt images apiKey remaining jsonAttempt st w
    = (Return r, w')
    /\ calls w' = calls w ++ es
    /\ keysOfRounds apiKey jsonAttempt (geminiKeys es).
Proof.
  intros Hother Htruthy.
  induction remaining as [|remaining' IH]; intros jsonAttempt st w.
  - exists (Gemini.optimizeExhausted userPrompt st), w, [].
    simpl. rewrite app_nil_r. repeat split.
    unfold keysOfRounds. destruct (jsonAttempt =? 0); constructor.
  - destruct (currentKey_other apiKey jsonAttempt w Hother Htruthy)
      as (key & w1 & Hk & Hc1 & Hkt & Hkey).
    cbn [Gemini.optimizeLoop]. unfold bind at 1. rewrite Hk, Hkt. cbn [negb].
    unfold bind at 1.
    destruct (optimizeAttempt_spec E userPrompt images key st w1)
      as (s & w2 & Hrun & Hc2 & _ & _).
    rewrite Hrun. rewrite Hc1 in Hc2.
    destruct s as [st' | r].
    + destruct (IH (S jsonAttempt) st' w2) as (r & w' & es & Hloop & Hc & Hkeys).
      exists r, w', (FetchedGemini key (gemini E (geminiFetches w1) key) :: es).
      split; [exact Hloop |].
      split; [rewrite Hc, Hc2, <- app_assoc; reflexivity |].
      simpl. apply keysOfRounds_cons; [exact Hkey | exact Hkeys].
    + exists r, w2, [FetchedGemini key (gemini E (geminiFetches w1) key)].
      split; [reflexivity |]. split; [exact Hc2 |].
      simpl. apply keysOfRounds_cons; [exact Hkey | constructor].
Qed.

Lemma generateLoop_keys (images : nat) (usedJSON : bool) (apiKey : string)
    (remaining : nat) :
  (exists k, k ∈ GEMINI_API_KEYS E /\ k <> apiKey) ->
  Js.truthy apiKey = true ->
  forall (attempt : nat) (lastError : option string) (w : world),
  exists r w' es,
    Gemini.generateLoop E images usedJSON apiKey remaining attempt lastError w
    = (Return r, w')
    /\ calls w' = calls w ++ es
    /\ keysOfRounds apiKey attempt (geminiKeys es).
Proof.
  intros Hother Htruthy.
  induction remaining as [|remaining' IH]; intros attempt lastError w.
  - exists (Gemini.generateExhausted lastError), w, [].
    simpl. rewrite app_nil_r. repeat split.
    unfold keysOfRounds. destruct (attempt =? 0); constructor.
  - destruct (currentKey_other apiKey attempt w Hother Htruthy)
      as (key & w1 & Hk & Hc1 & Hkt & Hkey).
    cbn [Gemini.generateLoop]. unfold bind at 1. rewrite Hk, Hkt. cbn [negb].
    unfold bind at 1.
    destruct (generateAttempt_spec E images usedJSON key lastError w1)
      as (s & w2 & Hrun & Hc2 & _ & _).
    rewrite Hrun. rewrite Hc1 in Hc2.
    destruct s as [lastError' | r].
    + destruct (IH (S attempt) lastError' w2) as (r & w' & es & Hloop & Hc & Hkeys).
      exists r, w', (FetchedGemini key (gemini E (geminiFetches w1) key) :: es).
      split; [exact Hloop |].
      split; [rewrite Hc, Hc2, <- app_assoc; reflexivity |].
      simpl. apply keysOfRounds_cons; [exact Hkey | exact Hkeys].
    + exists r, w2, [FetchedGemini key (gemini E (geminiFetches w1) key)].
      split; [reflexivity |]. split; [exact Hc2 |].
      simpl. apply keysOfRounds_cons; [exact Hkey | constructor].
Qed.

Lemma keysOfRounds_laterDiffer (apiKey : string) (ks : list string) :
  keysOfRounds apiKey 0 ks -> laterDiffer ks.
Proof.
  unfold keysOfRounds, laterDiffer. simpl.
  destruct ks as [|first later]; [auto |]. intros [-> H]. exact H.
Qed.

Lemma another_key (k : string) :
  (exists a b, a ∈ GEMINI_API_KEYS E /\ b ∈ GEMINI_API_KEYS E /\ a <> b) ->
  exists k', k' ∈ GEMINI_API_KEYS E /\ k' <> k.
Proof.
  intros (a & b & Ha & Hb & Hab).
  destruct (String.eqb a k) eqn:Hak.
  - apply String.eqb_eq in Hak. subst a. exists b. split; [exact Hb | congruence].
  - apply String.eqb_neq in Hak. exists a. split; assumption.
Qed.

End RetryFacts.

(** X4.  When at least two different keys are configured, every retry of
    an optimise request and of a vision generation uses a key other than
    the one its first attempt used. *)
Theorem retries_use_another_key (E : environment) (prompt : string)
    (assets : list asset) (designJSON : option json) (excludeKey : option string)
    (w : world) :
  (exists a b, a ∈ GEMINI_API_KEYS E /\ b ∈ GEMINI_API_KEYS E /\ a <> b) ->
  (exists es,
      calls (snd (Gemini.optimizePrompt E prompt assets w)) = calls w ++ es
      /\ laterDiffer (geminiKeys es))
  /\ (exists es,
        calls (snd (Gemini.generateWebPageWithImages E prompt assets designJSON
                      excludeKey w)) = calls w ++ es
        /\ laterDiffer (geminiKeys es)).
Proof.
  intros Htwo.
  assert (Hne : GEMINI_API_KEYS E <> []).
  { destruct Htwo as (a & _ & Ha & _). intros Hnil. rewrite Hnil in Ha. inversion Ha. }
  split.
  - unfold Gemini.optimizePrompt, bind.
    destruct (getRandomKey_some E None w Hne) as (key & w1 & Hrun & Hc & _ & Hkt).
    rewrite Hrun, Hkt. cbn [negb].
    destruct (optimizeLoop_keys E prompt (length (List.filter isImage assets)) key
                Gemini.maxJsonRetries (another_key E key Htwo) Hkt 0
                (Gemini.Attempts None "" "") w1)
      as (r & w' & es & Hloop & Hc' & Hkeys).
    rewrite Hloop. exists es. simpl. split; [rewrite Hc', Hc; reflexivity |].
    eapply keysOfRounds_laterDiffer. exact Hkeys.
  - unfold Gemini.generateWebPageWithImages, bind, record. cbv beta iota.
    match goal with |- context [Gemini.getRandomKey E excludeKey ?w0] =>
      destruct (getRandomKey_some E excludeKey w0 Hne) as (key & w1 & Hrun & Hc & _ & Hkt)
    end.
    rewrite Hrun, Hkt. cbn [negb].
    destruct (generateLoop_keys E (length (List.filter isImage assets))
                (Json.truthyOpt designJSON) key
                (Nat.min 3 (length (GEMINI_API_KEYS E))) (another_key E key Htwo) Hkt 0
                None w1)
      as (r & w' & es & Hloop & Hc' & Hkeys).
    rewrite Hloop. exists (CalledGenerateWebPageWithImages :: es). simpl.
    split; [rewrite Hc', Hc; simpl; rewrite <- app_assoc; reflexivity |].
    eapply keysOfRounds_laterDiffer. exact Hkeys.
Qed.

Lemma retries_use_another_key_witness :
  let E := Sample.environmentWith "A,B" Sample.shortPair in
  (exists es,
      calls (snd (Gemini.optimizePrompt E "dark portfolio hero section" [] initialWorld))
      = calls initialWorld ++ es
      /\ laterDiffer (geminiKeys es))
  /\ (exists es,
        calls (snd (Gemini.generateWebPageWithImages E "dark portfolio hero section" []
                      None None initialWorld)) = calls initialWorld ++ es
        /\ laterDiffer (geminiKeys es)).
Proof.
  intros E.
  apply (retries_use_another_key E "dark portfolio hero section" [] None None initialWorld).
  exists "A", "B". split; [vm_compute; left |].
  split; [vm_compute; right; left | discriminate].
Defined.

(* ===================================================================== *)
(** ** The vision pipeline: attempts and results *)
(* ===================================================================== *)

(** X5.  A vision generation makes at most [min(3, number of keys)]
    provider calls, and nothing else is added to the call record: with a
    single configured key a rejected answer is never retried. *)
Theorem generateWebPageWithImages_attempts_bounded_by_pool (E : environment)
    (prompt : string) (assets : list asset) (designJSON : option json)
    (excludeKey : option string) (w : world) :
  exists es,
    calls (snd (Gemini.generateWebPageWithImages E prompt assets designJSON excludeKey w))
    = calls w ++ CalledGenerateWebPageWithImages :: es
    /\ Forall (fun e => isGeminiFetch e = true) es
    /\ length es <= Nat.min 3 (Keys.getKeyCount E).
Proof.
  unfold Gemini.generateWebPageWithImages, bind, record, Keys.getKeyCount. cbv beta iota.
  set (w0 := World (failedKeys w) (randomsDrawn w) (geminiFetches w) (sambaNovaFetches w)
                   (spaceCalls w) (calls w ++ [CalledGenerateWebPageWithImages])).
  destruct (GEMINI_API_KEYS E) as [|k0 ks] eqn:Hkeys.
  - rewrite (getRandomKey_unconfigured E excludeKey w0 Hkeys).
    exists []. simpl. repeat split; [constructor | lia].
  - assert (Hne : GEMINI_API_KEYS E <> []) by (rewrite Hkeys; discriminate).
    destruct (getRandomKey_some E excludeKey w0 Hne) as (key & w1 & Hk & Hc & _ & Htruthy).
    rewrite Hk, Htruthy. cbn [negb].
    destruct (generateLoop_spec E (length (List.filter isImage assets))
                (Json.truthyOpt designJSON) key (Nat.min 3 (length (k0 :: ks))) 0 None w1)
      as (r & w' & es & Hrun & Hc' & Hall & Hlen & _).
    exists es. rewrite Hrun. simpl.
    split; [rewrite Hc', Hc; subst w0; simpl; rewrite <- app_assoc; reflexivity |].
    split; [exact Hall | exact Hlen].
Qed.

Lemma exhausted_message (lastError : option string) :
  exists m, Generation.error (Gemini.generateExhausted lastError) = Some m /\ m <> "".
Proof.
  unfold Gemini.generateExhausted, Generation.failed. simpl.
  destruct lastError as [[|c m] |]; eexists; (split; [reflexivity | discriminate]).
Qed.

(** X6.  What a vision generation returns is either a success without an
    error, or a failure whose page, style sheet and raw content are
    empty strings and whose error message is not empty. *)
Theorem generateWebPageWithImages_result_shape (E : environment) (prompt : string)
    (assets : list asset) (designJSON : option json) (excludeKey : option string)
    (w w' : world) (r : generation) :
  Gemini.generateWebPageWithImages E prompt assets designJSON excludeKey w = (Return r, w') ->
  if Generation.success r
  then Generation.error r = None
  else Generation.html r = Some "" /\ Generation.css r = Some ""
       /\ Generation.rawContent r = Some ""
       /\ exists m, Generation.error r = Some m /\ m <> "".
Proof.
  intros Hrun.
  destruct (generateWebPageWithImages_spec E prompt assets designJSON excludeKey w)
    as (o & w1 & es & Hrun' & _ & _ & _ & Ho).
  rewrite Hrun in Hrun'. injection Hrun' as <- <-.
  destruct Ho as [_ [[_ (lastError & ->)] | (a & content & html & css & _ & _ & _ & _ & _ & ->)]].
  - simpl. repeat split. apply exhausted_message.
  - reflexivity.
Qed.

Lemma generateWebPageWithImages_result_shape_witness :
  match fst (Gemini.generateWebPageWithImages (Sample.environmentWith "A" Sample.shortPair)
               "dark portfolio hero section" [] None None initialWorld) with
  | Return r =>
      if Generation.success r
      then Generation.error r = None
      else Generation.html r = Some "" /\ Generation.css r = Some ""
           /\ Generation.rawContent r = Some ""
           /\ exists m, Generation.error r = Some m /\ m <> ""
  | Throw _ => False
  end.
Proof.
  destruct (Gemini.generateWebPageWithImages (Sample.environmentWith "A" Sample.shortPair)
              "dark portfolio hero section" [] None None initialWorld)
    as [[r | m] w'] eqn:Hrun; cbn [fst].
  - exact (generateWebPageWithImages_result_shape _ _ _ _ _ _ _ _ Hrun).
  - vm_compute in Hrun. discriminate.
Defined.

(* ===================================================================== *)
(** ** The router: labels and flags *)
(* ===================================================================== *)

Lemma orElse_truthy (v : option json) (d : json) :
  Json.truthy d = true -> Json.truthy (Json.orElse v d) = true.
Proof.
  intros Hd. unfold Json.orElse. destruct v as [v |]; [| exact Hd].
  destruct (Json.truthy v) eqn:Hv; [exact Hv | exact Hd].
Qed.

(** X7.  The design built from pre-processed data is [null] exactly for
    falsy data; otherwise it is complete: its layout has a type, sections
    and columns, its colors has all five entries, each of them truthy, so
    it passes the check the optimiser applies to a design. *)
Theorem buildDesignJSON_complete (hfData : json) :
  match Space.buildDesignJSON hfData with
  | None => Json.truthy hfData = false
  | Some d =>
      Json.truthy hfData = true
      /\ Gemini.missingRequiredFields d = false
      /\ truthyAt "layout" "type" d = true
      /\ truthyAt "layout" "sections" d = true
      /\ truthyAt "layout" "columns" d = true
      /\ truthyAt "colors" "background" d = true
      /\ truthyAt "colors" "primary" d = true
      /\ truthyAt "colors" "secondary" d = true
      /\ truthyAt "colors" "accent" d = true
      /\ truthyAt "colors" "text" d = true
  end.
Proof.
  unfold Space.buildDesignJSON.
  destruct (Json.truthy hfData) eqn:Ht; cbn [negb]; [| reflexivity].
  split; [reflexivity |]. split; [reflexivity |].
  unfold truthyAt. cbn [Json.get Json.lookup Json.getOpt String.eqb Ascii.eqb Bool.eqb
                        Json.truthyOpt].
  repeat split; apply orElse_truthy; reflexivity.
Qed.

Section RouterFacts.

Variable E : environment.

(** What the pre-processing step hands on: a design exactly when the
    first image carries data, whatever the Space answers. *)
Lemma preprocessing_design (assets : list asset) (w : world) :
  exists designJSON w',
    (match Router.imageData (List.find isImage assets) with
     | Some d =>
         tryCatch
           (let! hfResult := Space.preprocessImage E d in
            ret (Space.buildDesignJSON hfResult))
           (fun _ => ret None)
     | None => ret None
     end) w = (Return designJSON, w')
    /\ Json.truthyOpt designJSON = carriesData assets.
Proof.
  unfold carriesData.
  destruct (Router.imageData (List.find isImage assets)) as [d |].
  - unfold tryCatch, bind, Space.preprocessImage, bind, record, ret. cbv beta iota.
    eexists _, _. split; [reflexivity |].
    match goal with |- context [huggingFace E ?n d] =>
      destruct (huggingFace E n d) as [props | m] end.
    + unfold Space.withSuccess. destruct (Json.lookup "success" props); reflexivity.
    + reflexivity.
  - eexists _, _. split; reflexivity.
Qed.

(** The image path, after the pre-processing step. *)
Lemma generateWithImage_run (prompt : string) (assets : list asset) (framework : string)
    (w : world) :
  exists designJSON w1,
    Json.truthyOpt designJSON = carriesData assets
    /\ Router.generateWithImage E prompt assets framework w
       = if Router.isReact framework
         then Router.generateReactWithGemini E prompt assets designJSON w1
         else match Gemini.generateWebPageWithImages E prompt assets designJSON None w1 with
              | (Return result, w') =>
                  (Return (Generation.withUsedHF (Generation.routed result "gemini" "html")
                                                 (Json.truthyOpt designJSON)), w')
              | (Throw message, w') => (Throw message, w')
              end.
Proof.
  unfold Router.generateWithImage. unfold bind at 1.
  destruct (preprocessing_design assets w) as (designJSON & w1 & Hpre & Hd).
  rewrite Hpre. exists designJSON, w1. split; [exact Hd |].
  destruct (Router.isReact framework); reflexivity.
Qed.

End RouterFacts.

(** X8.  On the image path the flag [usedHF] of a flat result, and of a
    successful multi-file result, tells whether the first image carried
    data, that is, whether pre-processing was attempted: it is [true]
    also when the Space failed and its defaults were used. *)
Theorem usedHF_reports_attempt (E : environment) (prompt : string) (assets : list asset)
    (framework : string) (w w' : world) (r : generation) :
  List.existsb isImage assets = true ->
  Router.generateCode E prompt assets framework w = (Return r, w') ->
  Router.isReact framework = false \/ Generation.success r = true ->
  Generation.usedHF r = Some (carriesData assets).
Proof.
  intros Himg Hrun Hmode.
  unfold Router.generateCode in Hrun. rewrite Himg in Hrun.
  destruct (generateWithImage_run E prompt assets framework w)
    as (designJSON & w1 & Hd & Hpre).
  rewrite Hpre in Hrun. rewrite <- Hd.
  destruct (Router.isReact framework).
  - destruct Hmode as [Hmode | Hsucc]; [discriminate |].
    unfold Router.generateReactWithGemini, bind in Hrun.
    destruct (Gemini.generateWebPageWithImages E prompt assets designJSON None w1)
      as [[result | m] w2]; [| discriminate].
    destruct (negb (Generation.success result)).
    { injection Hrun as <- _. discriminate. }
    destruct (0 <? length _).
    { injection Hrun as <- _. reflexivity. }
    destruct (Gemini.parseGeneratedCode _) as [html css].
    destruct (Js.truthy html || Js.truthy css); injection Hrun as <- _;
      [reflexivity | discriminate].
  - destruct (Gemini.generateWebPageWithImages E prompt assets designJSON None w1)
      as [[result | m] w2]; [| discriminate].
    injection Hrun as <- _. reflexivity.
Qed.

Lemma usedHF_reports_attempt_witness :
  match fst (Router.generateCode Sample.longEnvironment "dark portfolio hero section"
               [Sample.image] "html" initialWorld) with
  | Return r => Generation.usedHF r = Some (carriesData [Sample.image])
  | Throw _ => False
  end.
Proof.
  destruct (Router.generateCode Sample.longEnvironment "dark portfolio hero section"
              [Sample.image] "html" initialWorld) as [[r | m] w'] eqn:Hrun; cbn [fst].
  - exact (usedHF_reports_attempt Sample.longEnvironment "dark portfolio hero section"
             [Sample.image] "html" initialWorld w' r eq_refl Hrun (or_introl eq_refl)).
  - vm_compute in Hrun. discriminate.
Defined.

(** X9.  Every result the router returns is labelled with the pipeline
    that produced it and with the output mode: [gemini] exactly when an
    image is attached, [react] exactly when the framework is the string
    [react]. *)
Theorem generateCode_labels_result (E : environment) (prompt : string)
    (assets : list asset) (framework : string) (w w' : world) (r : generation) :
  Router.generateCode E prompt assets framework w = (Return r, w') ->
  Generation.pipeline r
  = Some (if List.existsb isImage assets then "gemini" else "sambanova")
  /\ Generation.framework r = Some (if Router.isReact framework then "react" else "html").
Proof.
  intros Hrun. unfold Router.generateCode in Hrun.
  destruct (List.existsb isImage assets).
  - destruct (generateWithImage_run E prompt assets framework w)
      as (designJSON & w1 & _ & Hpre).
    rewrite Hpre in Hrun.
    destruct (Router.isReact framework).
    + unfold Router.generateReactWithGemini, bind in Hrun.
      destruct (Gemini.generateWebPageWithImages E prompt assets designJSON None w1)
        as [[result | m] w2]; [| discriminate].
      destruct (negb (Generation.success result)).
      { injection Hrun as <- _. split; reflexivity. }
      destruct (0 <? length _).
      { injection Hrun as <- _. split; reflexivity. }
      destruct (Gemini.parseGeneratedCode _) as [html css].
      destruct (Js.truthy html || Js.truthy css); injection Hrun as <- _; split; reflexivity.
    + destruct (Gemini.generateWebPageWithImages E prompt assets designJSON None w1)
        as [[result | m] w2]; [| discriminate].
      injection Hrun as <- _. split; reflexivity.
  - unfold Router.generateTextOnly in Hrun.
    destruct (Router.isReact framework); unfold bind in Hrun.
    + destruct (SambaNova.generateReactApp E prompt w) as [[result | m] w2];
        [| discriminate].
      injection Hrun as <- _. split; reflexivity.
    + destruct (SambaNova.generateWebPage E prompt w) as [[result | m] w2];
        [| discriminate].
      injection Hrun as <- _. split; reflexivity.
Qed.

Lemma generateCode_labels_result_witness :
  match fst (Router.generateCode Sample.longEnvironment "dark portfolio hero section"
               [Sample.image] "html" initialWorld) with
  | Return r =>
      Generation.pipeline r
      = Some (if List.existsb isImage [Sample.image] then "gemini" else "sambanova")
      /\ Generation.framework r = Some (if Router.isReact "html" then "react" else "html")
  | Throw _ => False
  end.
Proof.
  destruct (Router.generateCode Sample.longEnvironment "dark portfolio hero section"
              [Sample.image] "html" initialWorld) as [[r | m] w'] eqn:Hrun; cbn [fst].
  - exact (generateCode_labels_result _ _ _ _ _ _ _ Hrun).
  - vm_compute in Hrun. discriminate.
Defined.

(** X10.  On the image path in multi-file mode a result never carries a
    flat page or style sheet, always carries a file list, and succeeds
    exactly when that list is not empty. *)
Theorem react_success_has_files (E : environment) (prompt : string)
    (assets : list asset) (w w' : world) (r : generation) :
  List.existsb isImage assets = true ->
  Router.generateCode E prompt assets "react" w = (Return r, w') ->
  Generation.html r = None /\ Generation.css r = None
  /\ exists files, Generation.files r = Some files
                   /\ (Generation.success r = true <-> files <> []).
Proof.
  intros Himg Hrun. unfold Router.generateCode in Hrun. rewrite Himg in Hrun.
  destruct (generateWithImage_run E prompt assets "react" w)
    as (designJSON & w1 & _ & Hpre).
  rewrite Hpre in Hrun.
  change (Router.isReact "react") with true in Hrun. cbv iota in Hrun.
  unfold Router.generateReactWithGemini, bind in Hrun.
  destruct (Gemini.generateWebPageWithImages E prompt assets designJSON None w1)
    as [[result | m] w2]; [| discriminate].
  assert (Hfail : forall e, let r0 := Router.reactFailure e in
            Generation.html r0 = None /\ Generation.css r0 = None
            /\ exists files, Generation.files r0 = Some files
                             /\ (Generation.success r0 = true <-> files <> [])).
  { intros e. simpl. repeat split. exists []. split; [reflexivity |].
    split; [discriminate | congruence]. }
  destruct (negb (Generation.success result)).
  { injection Hrun as <- _. apply Hfail. }
  destruct (0 <? length (parseReactOutput E (default "" (Generation.rawContent result))))
    eqn:Hlen.
  { injection Hrun as <- _. simpl. repeat split.
    eexists. split; [reflexivity |]. split; [| reflexivity].
    intros _ Hnil. rewrite Hnil in Hlen. discriminate. }
  destruct (Gemini.parseGeneratedCode _) as [html css].
  destruct (Js.truthy html || Js.truthy css); injection Hrun as <- _; [| apply Hfail].
  simpl. repeat split. eexists. split; [reflexivity |].
  split; [discriminate | reflexivity].
Qed.

Lemma react_success_has_files_witness :
  match fst (Router.generateCode Sample.longEnvironment "dark portfolio hero section"
               [Sample.image] "react" initialWorld) with
  | Return r =>
      Generation.html r = None /\ Generation.css r = None
      /\ exists files, Generation.files r = Some files
                       /\ (Generation.success r = true <-> files <> [])
  | Throw _ => False
  end.
Proof.
  destruct (Router.generateCode Sample.longEnvironment "dark portfolio hero section"
              [Sample.image] "react" initialWorld) as [[r | m] w'] eqn:Hrun; cbn [fst].
  - exact (react_success_has_files Sample.longEnvironment "dark portfolio hero section"
             [Sample.image] initialWorld w' r eq_refl Hrun).
  - vm_compute in Hrun. discriminate.
Defined.

(* ===================================================================== *)
(** ** The fast text pipeline *)
(* ===================================================================== *)

(** X11.  A flat generation of the fast text pipeline never throws and
    never retries.  Without a key it makes no provider call and reports
    the configuration error; with a key it makes exactly one call, and
    succeeds exactly when the answer can be read, returning whatever the
    parser finds in it. *)
Theorem generateWebPage_single_call (E : environment) (prompt : string) (w : world) :
  let a := sambaNova E (sambaNovaFetches w) in
  exists r w',
    SambaNova.generateWebPage E prompt w = (Return r, w')
    /\ if Js.truthy (VITE_SAMBANOVA_API_KEY E) then
         calls w' = calls w ++ [CalledGenerateWebPage; FetchedSambaNova a]
         /\ sambaNovaFetches w' = S (sambaNovaFetches w)
         /\ match readable a with
            | Some raw =>
                r = Generation.Build true None
                      (Some (fst (SambaNova.parseGeneratedCode raw)))
                      (Some (snd (SambaNova.parseGeneratedCode raw)))
                      None (Some raw) None None (Some SambaNova.CODE_GENERATION)
                      None None None None None
            | None => exists m, r = Generation.failed m
            end
       else
         calls w' = calls w ++ [CalledGenerateWebPage]
         /\ sambaNovaFetches w' = sambaNovaFetches w
         /\ r = Generation.failed SambaNova.notConfiguredMessage.
Proof.
  intros a. unfold SambaNova.generateWebPage.
  remember SambaNova.parseGeneratedCode as parse eqn:Hparse. clear Hparse.
  unfold bind at 1, record. cbv beta iota.
  unfold tryCatch, bind at 1, SambaNova.callSambaNova.
  destruct (Js.truthy (VITE_SAMBANOVA_API_KEY E)); cbn [negb].
  2:{ eexists _, _. split; [reflexivity |]. repeat split. }
  unfold bind at 1, SambaNova.fetch. cbv beta iota. cbn [sambaNovaFetches].
  fold a. cbn [calls]. rewrite <- app_assoc. cbn [app].
  destruct a as [m | status b]; cbn [readable].
  { eexists _, _. split; [reflexivity |]. repeat split. eexists. reflexivity. }
  destruct (ok status); cbn [negb].
  2:{ eexists _, _. split; [reflexivity |]. repeat split.
      destruct b; eexists; reflexivity. }
  destruct b as [m | e [ | m | s]].
  - eexists _, _. split; [reflexivity |]. repeat split. eexists. reflexivity.
  - unfold SambaNova.contentOf, bind, ret. cbn [textOf].
    destruct (parse "") as [html css]. cbv beta iota.
    eexists _, _. split; [reflexivity |]. repeat split.
  - eexists _, _. split; [reflexivity |]. repeat split. eexists. reflexivity.
  - unfold SambaNova.contentOf, bind, ret. cbn [textOf].
    destruct (parse s) as [html css]. cbv beta iota.
    eexists _, _. split; [reflexivity |]. repeat split.
Qed.

(* ===================================================================== *)
(** ** The preview document *)
(* ===================================================================== *)

Lemma getSubstitution_noDollar (matched before after repl : string) :
  noDollar repl = true -> Js.getSubstitution matched before after repl = repl.
Proof.
  unfold noDollar. induction repl as [|c r IH]; [reflexivity |].
  cbn [allChars Js.getSubstitution]. intros H. apply andb_true_iff in H as [Hc Hr].
  apply negb_true_iff in Hc. unfold Js.ascii_eqb. rewrite Hc, (IH Hr). reflexivity.
Qed.

Lemma allChars_app (p : ascii -> bool) (a b : string) :
  allChars p (a +:+ b) = allChars p a && allChars p b.
Proof.
  induction a as [|c a IH]; [reflexivity |].
  rewrite append_cons. cbn [allChars]. rewrite IH, andb_assoc. reflexivity.
Qed.

Lemma startsWith_split (p s : string) :
  Js.startsWith p s = true -> s = p +:+ Js.drop (String.length p) s.
Proof.
  revert s. induction p as [|a p IH]; intros s H; [reflexivity |].
  destruct s as [|b s]; [discriminate |].
  cbn [Js.startsWith] in H. apply andb_true_iff in H as [Hab Hp].
  unfold Js.ascii_eqb in Hab. apply Ascii.eqb_eq in Hab. subst b.
  rewrite append_cons. cbn [String.length Js.drop]. rewrite <- (IH s Hp). reflexivity.
Qed.

Lemma take_drop (i : nat) (s : string) : Js.take i s +:+ Js.drop i s = s.
Proof.
  revert s. induction i as [|i IH]; intros s; [reflexivity |].
  destruct s as [|c s]; [reflexivity |].
  cbn [Js.take Js.drop]. rewrite append_cons, IH. reflexivity.
Qed.

Lemma drop_drop (i j : nat) (s : string) : Js.drop j (Js.drop i s) = Js.drop (i + j) s.
Proof.
  revert s. induction i as [|i IH]; intros s; [reflexivity |].
  destruct s as [|c s]; [destruct j; reflexivity |].
  cbn [Js.drop Nat.add]. apply IH.
Qed.

(** Where [indexOf] finds the pattern, the pattern is. *)
Lemma indexOf_split (p s : string) (i : nat) :
  Js.indexOf p s = Some i ->
  Js.drop i s = p +:+ Js.drop (i + String.length p) s.
Proof.
  revert i. induction s as [|c s IH]; intros i H.
  - cbn [Js.indexOf] in H. destruct (Js.startsWith p "") eqn:Hp; [| discriminate].
    injection H as <-. rewrite (startsWith_split p "" Hp) at 1. reflexivity.
  - cbn [Js.indexOf] in H. destruct (Js.startsWith p (String c s)) eqn:Hp.
    + injection H as <-. rewrite (startsWith_split p _ Hp) at 1. reflexivity.
    + destruct (Js.indexOf p s) as [j |]; [| discriminate].
      injection H as <-. cbn [Js.drop Nat.add]. apply IH. reflexivity.
Qed.

Lemma replace_noDollar (p repl s : string) (i : nat) :
  noDollar repl = true ->
  Js.indexOf p s = Some i ->
  Js.replace p repl s = Js.take i s +:+ repl +:+ Js.drop (i + String.length p) s.
Proof.
  intros Hd Hi. unfold Js.replace. rewrite Hi.
  rewrite getSubstitution_noDollar by exact Hd. reflexivity.
Qed.

(** X12.  For a full document and a style sheet that is not empty and
    holds no dollar sign, the preview is the page itself with one
    [style] element, holding the style sheet, inserted in front of the
    first [</head>], or, when the page has none, in front of the first
    [<body]. *)
Theorem compileLivePreview_inserts_style (html css : string) (i : nat) :
  Js.includes "<!DOCTYPE" html = true \/ Js.includes "<html" html = true ->
  css <> "" ->
  noDollar css = true ->
  Js.indexOf (if Js.includes "</head>" html then "</head>" else "<body") html = Some i ->
  Gemini.compileLivePreview html css
  = Js.take i html +:+ "<style>" +:+ css +:+ "</style>" +:+ Js.drop i html.
Proof.
  intros Hdoc Hcss Hd Hi. unfold Gemini.compileLivePreview.
  assert (Hfull : Js.includes "<!DOCTYPE" html || Js.includes "<html" html = true).
  { destruct Hdoc as [-> | ->]; [reflexivity | apply orb_true_r]. }
  rewrite Hfull.
  assert (Ht : Js.truthy css = true) by (destruct css; [congruence | reflexivity]).
  rewrite Ht.
  assert (Hrepl : forall marker,
             noDollar marker = true ->
             Js.indexOf marker html = Some i ->
             Js.replace marker ("<style>" +:+ css +:+ "</style>" +:+ marker) html
             = Js.take i html +:+ "<style>" +:+ css +:+ "</style>" +:+ Js.drop i html).
  { intros marker Hm Him.
    rewrite (replace_noDollar marker _ html i); [| | exact Him].
    - rewrite (indexOf_split marker html i Him).
      rewrite !append_assoc. reflexivity.
    - unfold noDollar in *. rewrite !allChars_app, Hd, Hm. reflexivity. }
  destruct (Js.includes "</head>" html) eqn:Hhead.
  - exact (Hrepl "</head>" eq_refl Hi).
  - assert (Hbody : Js.includes "<body" html = true).
    { unfold Js.includes. rewrite Hi. reflexivity. }
    rewrite Hbody. exact (Hrepl "<body" eq_refl Hi).
Qed.

Lemma compileLivePreview_inserts_style_witness :
  Gemini.compileLivePreview "<html><head></head><body></body></html>" "p{}"
  = Js.take 12 "<html><head></head><body></body></html>" +:+ "<style>" +:+ "p{}"
    +:+ "</style>" +:+ Js.drop 12 "<html><head></head><body></body></html>".
Proof.
  apply (compileLivePreview_inserts_style "<html><head></head><body></body></html>" "p{}" 12).
  - right. reflexivity.
  - discriminate.
  - reflexivity.
  - reflexivity.
Defined.

(* ===================================================================== *)
(** ** Key pairs and key tests *)
(* ===================================================================== *)

(** X13.  With at least two different keys configured, [getDualKeys]
    returns two different keys of the pool without any provider call;
    with a pool of exactly one key it returns that key twice. *)
Theorem getDualKeys_distinct (E : environment) (w : world) :
  ((exists a b, a ∈ GEMINI_API_KEYS E /\ b ∈ GEMINI_API_KEYS E /\ a <> b) ->
   exists a b w',
     Keys.getDualKeys E w = (Return (Some a, Some b), w')
     /\ a ∈ GEMINI_API_KEYS E /\ b ∈ GEMINI_API_KEYS E /\ a <> b
     /\ calls w' = calls w)
  /\ (forall k, GEMINI_API_KEYS E = [k] ->
        fst (Keys.getDualKeys E w) = Return (Some k, Some k)).
Proof.
  split.
  - intros Htwo.
    assert (Hne : GEMINI_API_KEYS E <> []).
    { destruct Htwo as (a & _ & Ha & _). intros Hnil. rewrite Hnil in Ha. inversion Ha. }
    unfold Keys.getDualKeys, bind.
    destruct (getRandomKey_some E None w Hne) as (a & w1 & Hrun & Hc & Hin & _).
    rewrite Hrun.
    destruct (getRandomKey_other E a w1 (another_key E a Htwo))
      as (b & w2 & Hrun2 & Hc2 & Hneq & _).
    rewrite Hrun2. exists a, b, w2.
    split; [reflexivity |]. split; [exact Hin |].
    split.
    + destruct (getRandomKey_elem (GEMINI_API_KEYS E) E (Some a) w1 Hne) as (b' & Hb & Hin').
      unfold Gemini.getRandomKey in Hrun2. rewrite Hrun2 in Hb. simpl in Hb.
      injection Hb as ->. exact Hin'.
    + split; [congruence | congruence].
  - intros k Hk.
    assert (Hne : GEMINI_API_KEYS E <> []) by (rewrite Hk; discriminate).
    assert (Honly : forall x w0, exists w1,
               Gemini.getRandomKey E x w0 = (Return (Some k), w1)).
    { intros x w0.
      destruct (getRandomKey_some E x w0 Hne) as (k' & w1 & Hrun & _ & Hin & _).
      rewrite Hk in Hin. apply list_elem_of_singleton in Hin. subst k'.
      exists w1. exact Hrun. }
    unfold Keys.getDualKeys, bind.
    destruct (Honly None w) as (w1 & ->).
    destruct (Honly (Some k) w1) as (w2 & ->).
    reflexivity.
Qed.

Lemma getDualKeys_distinct_witness :
  exists a b w',
    Keys.getDualKeys (Sample.environmentWith "A,B" "") initialWorld
    = (Return (Some a, Some b), w')
    /\ a ∈ GEMINI_API_KEYS (Sample.environmentWith "A,B" "")
    /\ b ∈ GEMINI_API_KEYS (Sample.environmentWith "A,B" "")
    /\ a <> b
    /\ calls w' = calls initialWorld.
Proof.
  apply (proj1 (getDualKeys_distinct (Sample.environmentWith "A,B" "") initialWorld)).
  exists "A", "B". split; [vm_compute; left |].
  split; [vm_compute; right; left | discriminate].
Defined.

Section KeyTestFacts.

Variable E : environment.

(** An index within bounds names a key. *)
Lemma key_at_index (index : Z) :
  (index <? 0)%Z || (Z.of_nat (length (GEMINI_API_KEYS E)) <=? index)%Z = false ->
  exists key, GEMINI_API_KEYS E !! Z.to_nat index = Some key.
Proof.
  intros H. apply orb_false_iff in H as [H1 H2].
  apply Z.ltb_ge in H1. apply Z.leb_gt in H2.
  apply lookup_lt_is_Some_2. lia.
Qed.

End KeyTestFacts.

(** X14.  [testApiKey] never throws for an integer index.  For an index
    out of range it answers [Invalid key index] without any provider
    call; otherwise it makes exactly one call with the key at that index.
    It never changes the failed set, not even on a 429 answer, and it
    succeeds exactly when the answer can be read, replying its trimmed
    text. *)
Theorem testApiKey_contained (E : environment) (index : Z) (w : world) :
  exists r w',
    Keys.testApiKey E index w = (Return r, w')
    /\ failedKeys w' = failedKeys w
    /\ if (index <? 0)%Z || (Z.of_nat (Keys.getKeyCount E) <=? index)%Z then
         w' = w /\ r = Keys.KeyTest false (Some "Invalid key index") None None None
       else
         exists key,
           GEMINI_API_KEYS E !! Z.to_nat index = Some key
           /\ let a := gemini E (geminiFetches w) key in
              calls w' = calls w ++ [FetchedGemini key a]
              /\ Keys.maskedKey r = Some (Keys.maskKey key)
              /\ if rateLimited a then
                   Keys.success r = false /\ Keys.error r = Some "Rate limited"
                 else
                   match readable a with
                   | Some raw => Keys.success r = true
                                 /\ Keys.reply r = Some (Js.trim raw)
                   | None => Keys.success r = false
                   end.
Proof.
  unfold Keys.testApiKey, Keys.getKeyCount.
  destruct ((index <? 0)%Z || (Z.of_nat (length (GEMINI_API_KEYS E)) <=? index)%Z) eqn:Hb.
  - exists (Keys.KeyTest false (Some "Invalid key index") None None None), w.
    repeat split.
  - destruct (key_at_index E index Hb) as (key & Hkey). rewrite Hkey.
    unfold tryCatch, bind, Gemini.fetch. cbv beta iota zeta.
    destruct (gemini E (geminiFetches w) key) as [m | status b] eqn:Ha.
    { eexists _, _. split; [reflexivity |]. split; [reflexivity |].
      exists key. rewrite Ha. repeat split. }
    destruct (status =? 429) eqn:H429.
    { eexists _, _. split; [reflexivity |]. split; [reflexivity |].
      exists key. rewrite Ha. cbn [rateLimited]. rewrite H429. repeat split. }
    destruct (ok status) eqn:Hok; cbn [negb].
    2:{ eexists _, _. split; [reflexivity |]. split; [reflexivity |].
        exists key. rewrite Ha. cbn [rateLimited]. rewrite H429.
        destruct b; cbn [readable]; rewrite ?Hok; repeat split. }
    destruct b as [m | e [ | m | s]];
      (eexists _, _; split; [reflexivity |]; split; [reflexivity |];
       exists key; rewrite Ha; cbn [rateLimited readable]; rewrite H429, ?Hok;
       repeat split).
Qed.

(* ===================================================================== *)
(** ** Session ids and the session store *)
(* ===================================================================== *)

Section SessionFacts.

Variable E : environment.

Lemma charAt_chars (i : nat) :
  i < String.length Session.chars ->
  exists c, Session.charAt i Session.chars = String c EmptyString /\ isIdChar c = true.
Proof.
  intros Hi. unfold Session.charAt.
  do 36 (destruct i as [|i]; [eexists; split; reflexivity |]).
  simpl in Hi. lia.
Qed.

(** The loop appends one character of the alphabet per round and draws
    one random number for each. *)
Lemma appendRandomChars_spec (rounds : nat) :
  forall (w : world),
  exists suffix w',
    (forall id, Session.appendRandomChars E rounds id w = (Return (id +:+ suffix), w'))
    /\ String.length suffix = rounds
    /\ allChars isIdChar suffix = true
    /\ randomsDrawn w' = randomsDrawn w + rounds.
Proof.
  induction rounds as [|rounds IH]; intros w.
  - exists "", w. split; [| split; [reflexivity | split; [reflexivity | lia]]].
    intros id. rewrite append_nil_r. reflexivity.
  - cbn [Session.appendRandomChars]. unfold bind, mathRandom. cbv beta iota.
    set (w1 := World (failedKeys w) (S (randomsDrawn w)) (geminiFetches w)
                     (sambaNovaFetches w) (spaceCalls w) (calls w)).
    destruct (charAt_chars (floorMul (random E (randomsDrawn w))
                              (String.length Session.chars)))
      as (c & Hc & Hid).
    { apply floorMul_lt. simpl. lia. }
    destruct (IH w1) as (suffix & w' & Hrun & Hlen & Hall & Hdrawn).
    exists (String c suffix), w'. split; [| split; [| split]].
    + intros id. rewrite Hc, Hrun, append_assoc. reflexivity.
    + simpl. rewrite Hlen. reflexivity.
    + simpl. rewrite Hid, Hall. reflexivity.
    + rewrite Hdrawn. subst w1. simpl. lia.
Qed.

End SessionFacts.

(** X15.  A generated session id is [DSY-] followed by exactly six
    characters, each a capital letter or a digit; it takes six random
    draws, and the generator of the context produces the same id from the
    same draws. *)
Theorem generateSessionId_format (E : environment) (w : world) :
  exists suffix w',
    Session.generateSessionId E w = (Return ("DSY-" +:+ suffix), w')
    /\ Session.generateDSYId E w = (Return ("DSY-" +:+ suffix), w')
    /\ String.length suffix = 6
    /\ allChars isIdChar suffix = true
    /\ randomsDrawn w' = randomsDrawn w + 6.
Proof.
  destruct (appendRandomChars_spec E 6 w) as (suffix & w' & Hrun & Hlen & Hall & Hdrawn).
  exists suffix, w'. split; [| split; [| auto]].
  - unfold Session.generateSessionId. apply Hrun.
  - unfold Session.generateDSYId, bind. rewrite (Hrun ""). reflexivity.
Qed.

Section StoreFacts.

Import Session.

Lemma lookup_assign_same (k : string) (v : json) (props : list (string * json)) :
  Json.lookup k (assign k v props) = Some v.
Proof.
  induction props as [|[k' v'] ps IH]; cbn [assign Json.lookup].
  - rewrite String.eqb_refl. reflexivity.
  - destruct (String.eqb k k') eqn:Hk; cbn [Json.lookup].
    + rewrite String.eqb_refl. reflexivity.
    + rewrite Hk. exact IH.
Qed.

Lemma lookup_assign_other (k k0 : string) (v : json) (props : list (string * json)) :
  k0 <> k -> Json.lookup k0 (assign k v props) = Json.lookup k0 props.
Proof.
  intros Hne. induction props as [|[k' v'] ps IH]; cbn [assign Json.lookup].
  - apply String.eqb_neq in Hne. rewrite Hne. reflexivity.
  - destruct (String.eqb k k') eqn:Hk; cbn [Json.lookup].
    + apply String.eqb_eq in Hk. subst k'.
      apply String.eqb_neq in Hne. rewrite Hne. reflexivity.
    + destruct (String.eqb k0 k'); [reflexivity | exact IH].
Qed.

(** The properties of a spread: those of the second object, then those
    of the first. *)
Lemma lookup_spread (k : string) (b : list (string * json)) :
  distinctNames b ->
  forall a, Json.lookup k (spread a b)
            = match Json.lookup k b with
              | Some v => Some v
              | None => Json.lookup k a
              end.
Proof.
  unfold spread, distinctNames.
  induction b as [|[k' v'] b IH]; intros Hnd a; [reflexivity |].
  cbn [List.fold_left fst snd Json.lookup]. cbn [List.map fst] in Hnd.
  apply NoDup_cons in Hnd as [Hnotin Hnd].
  rewrite (IH Hnd).
  destruct (String.eqb k k') eqn:Hk.
  - apply String.eqb_eq in Hk. subst k'.
    assert (Hnone : Json.lookup k b = None).
    { clear - Hnotin. induction b as [|[k1 v1] b IH]; [reflexivity |].
      cbn [Json.lookup]. cbn [List.map fst] in Hnotin.
      apply not_elem_of_cons in Hnotin as [Hne Hnotin].
      apply String.eqb_neq in Hne. rewrite Hne. exact (IH Hnotin). }
    rewrite Hnone. apply lookup_assign_same.
  - destruct (Json.lookup k b); [reflexivity |].
    apply lookup_assign_other. apply String.eqb_neq. exact Hk.
Qed.

Lemma keyEqb_string (k : json) (s : string) :
  keyEqb k (JStr s) = true -> k = JStr s.
Proof.
  destruct k as [| | | t | |]; try discriminate.
  cbn [keyEqb]. intros H. apply String.eqb_eq in H. subst. reflexivity.
Qed.

Lemma dbGet_dbPut_same (s : string) (r : list (string * json))
    (rs : list (json * list (string * json))) :
  dbGet (JStr s) (dbPut (JStr s) r rs) = Some r.
Proof.
  induction rs as [|[k r'] rs IH]; cbn [dbPut dbGet].
  - cbn [keyEqb]. rewrite String.eqb_refl. reflexivity.
  - destruct (keyEqb k (JStr s)) eqn:Hk; cbn [dbGet].
    + cbn [keyEqb]. rewrite String.eqb_refl. reflexivity.
    + rewrite Hk. exact IH.
Qed.

Lemma dbGet_dbPut_other (s t : string) (r : list (string * json))
    (rs : list (json * list (string * json))) :
  s <> t -> dbGet (JStr s) (dbPut (JStr t) r rs) = dbGet (JStr s) rs.
Proof.
  intros Hne. induction rs as [|[k r'] rs IH]; cbn [dbPut dbGet].
  - cbn [keyEqb]. apply not_eq_sym, String.eqb_neq in Hne. rewrite Hne. reflexivity.
  - destruct (keyEqb k (JStr t)) eqn:Hk; cbn [dbGet].
    + apply keyEqb_string in Hk. subst k. cbn [keyEqb].
      apply not_eq_sym, String.eqb_neq in Hne. rewrite Hne. reflexivity.
    + destruct (keyEqb k (JStr s)); [reflexivity | exact IH].
Qed.

End StoreFacts.

(** X16.  Round trip of the session store.  When the database accepts
    the request and the data carries no [id] of its own, [saveSession]
    returns [true], and a following [loadSession] with the same id
    returns a record with that [id], with [updatedAt] set to the time of
    saving, and with every other property as the data has it. *)
Theorem saveSession_then_loadSession (B : Session.browser) (sessionId : string)
    (data : list (string * json)) (s : Session.store) :
  Session.rejects B (Session.requests s) = false ->
  Session.rejects B (S (Session.requests s)) = false ->
  distinctNames data ->
  Json.lookup "id" data = None ->
  let saved := Session.saveSession B sessionId data s in
  fst saved = true
  /\ exists r,
       fst (Session.loadSession B sessionId (snd saved)) = Some r
       /\ Json.lookup "id" r = Some (JStr sessionId)
       /\ Json.lookup "updatedAt" r = Some (JStr (Session.now B (Session.requests s)))
       /\ forall k, k <> "id" -> k <> "updatedAt" -> Json.lookup k r = Json.lookup k data.
Proof.
  intros Hacc1 Hacc2 Hnd Hid. unfold Session.saveSession. rewrite Hacc1.
  set (r := Session.sessionRecord sessionId data (Session.now B (Session.requests s))).
  assert (Hrid : Json.lookup "id" r = Some (JStr sessionId)).
  { unfold r, Session.sessionRecord.
    rewrite lookup_assign_other by discriminate.
    rewrite (lookup_spread "id" data Hnd), Hid. reflexivity. }
  rewrite Hrid. cbn [Session.validKey fst snd]. split; [reflexivity |].
  exists r. unfold Session.loadSession. cbn [Session.requests Session.records].
  rewrite Hacc2. cbn [fst]. split; [apply dbGet_dbPut_same |].
  split; [exact Hrid |]. split.
  - unfold r, Session.sessionRecord. apply lookup_assign_same.
  - intros k Hk1 Hk2. unfold r, Session.sessionRecord.
    rewrite lookup_assign_other by exact Hk2.
    rewrite (lookup_spread k data Hnd).
    destruct (Json.lookup k data); [reflexivity |].
    cbn [Json.lookup]. apply String.eqb_neq in Hk1. rewrite Hk1. reflexivity.
Qed.

Lemma saveSession_then_loadSession_witness :
  let B := Session.Browser (fun _ => false) (fun _ => "2026-01-01T00:00:00.000Z") in
  let saved := Session.saveSession B "DSY-AB12CD" [("project", JObj [])]
                 (Session.Store [] 0) in
  fst saved = true
  /\ exists r,
       fst (Session.loadSession B "DSY-AB12CD" (snd saved)) = Some r
       /\ Json.lookup "id" r = Some (JStr "DSY-AB12CD")
       /\ Json.lookup "updatedAt" r
          = Some (JStr (Session.now B (Session.requests (Session.Store [] 0))))
       /\ forall k, k <> "id" -> k <> "updatedAt" ->
                    Json.lookup k r = Json.lookup k [("project", JObj [])].
Proof.
  intros B.
  apply (saveSession_then_loadSession B "DSY-AB12CD" [("project", JObj [])]
           (Session.Store [] 0)).
  - reflexivity.
  - reflexivity.
  - unfold distinctNames. simpl. apply NoDup_singleton.
  - reflexivity.
Defined.

(** X17.  A data object that carries a string [id] of its own is stored
    under that id, not under the session id passed: after a successful
    [saveSession] a [loadSession] with the id of the data returns the
    record, and a [loadSession] with the session id returns what it
    returned before. *)
Theorem saveSession_own_id_wins (B : Session.browser) (sessionId own : string)
    (data : list (string * json)) (s : Session.store) :
  Session.rejects B (Session.requests s) = false ->
  Session.rejects B (S (Session.requests s)) = false ->
  distinctNames data ->
  Json.lookup "id" data = Some (JStr own) ->
  own <> sessionId ->
  let saved := Session.saveSession B sessionId data s in
  fst saved = true
  /\ fst (Session.loadSession B own (snd saved))
     = Some (Session.sessionRecord sessionId data (Session.now B (Session.requests s)))
  /\ Json.lookup "id"
       (Session.sessionRecord sessionId data (Session.now B (Session.requests s)))
     = Some (JStr own)
  /\ fst (Session.loadSession B sessionId (snd saved))
     = Session.dbGet (JStr sessionId) (Session.records s).
Proof.
  intros Hacc1 Hacc2 Hnd Hid Hne. unfold Session.saveSession. rewrite Hacc1.
  set (r := Session.sessionRecord sessionId data (Session.now B (Session.requests s))).
  assert (Hrid : Json.lookup "id" r = Some (JStr own)).
  { unfold r, Session.sessionRecord.
    rewrite lookup_assign_other by discriminate.
    rewrite (lookup_spread "id" data Hnd), Hid. reflexivity. }
  rewrite Hrid. cbn [Session.validKey fst snd]. split; [reflexivity |].
  unfold Session.loadSession. cbn [Session.requests Session.records].
  rewrite Hacc2. cbn [fst]. split; [apply dbGet_dbPut_same |].
  split; [reflexivity |].
  apply dbGet_dbPut_other. congruence.
Qed.

Lemma saveSession_own_id_wins_witness :
  let B := Session.Browser (fun _ => false) (fun _ => "2026-01-01T00:00:00.000Z") in
  let data := [("id", JStr "DSY-OTHER1"); ("project", JObj [])] in
  let s := Session.Store [] 0 in
  let saved := Session.saveSession B "DSY-AB12CD" data s in
  fst saved = true
  /\ fst (Session.loadSession B "DSY-OTHER1" (snd saved))
     = Some (Session.sessionRecord "DSY-AB12CD" data (Session.now B (Session.requests s)))
  /\ Json.lookup "id"
       (Session.sessionRecord "DSY-AB12CD" data (Session.now B (Session.requests s)))
     = Some (JStr "DSY-OTHER1")
  /\ fst (Session.loadSession B "DSY-AB12CD" (snd saved))
     = Session.dbGet (JStr "DSY-AB12CD") (Session.records s).
Proof.
  intros B data s.
  apply (saveSession_own_id_wins B "DSY-AB12CD" "DSY-OTHER1" data s).
  - reflexivity.
  - reflexivity.
  - unfold distinctNames, data. simpl.
    apply NoDup_cons. split; [| apply NoDup_singleton].
    intros H. apply list_elem_of_singleton in H. discriminate.
  - reflexivity.
  - discriminate.
Defined.

(* ===================================================================== *)
(** ** The file tree and the editor tabs *)
(* ===================================================================== *)

Section TreeFacts.

Import Editor.

(** Induction on a tree: a property holds of every entry when it holds
    of an entry as soon as it holds of its children. *)
Lemma node_induction (P : node -> Prop) :
  (forall file,
      (forall cs, children file = Some cs -> Forall P cs) -> P file) ->
  forall file, P file.
Proof.
  intros Hstep. fix IH 1. intros file. apply Hstep.
  destruct file as [i n p t l c [cs |]]; cbn [children]; intros cs' Hcs; [| discriminate].
  injection Hcs as <-.
  induction cs as [|x cs IHcs]; constructor; [apply IH | exact IHcs].
Qed.

Lemma visit_unfold (fileId : string) (file : node) :
  visit fileId file
  = if String.eqb (id file) fileId then Some file
    else if String.eqb (type file) "folder" then
      match children file with
      | Some cs => firstFound (visit fileId) cs
      | None => None
      end
    else None.
Proof. destruct file; reflexivity. Qed.

Lemma updateFile_unfold (fileId c : string) (file : node) :
  updateFile fileId c file
  = if String.eqb (id file) fileId then withContent file c
    else if String.eqb (type file) "folder" then
      match children file with
      | Some cs => withChildren file (List.map (updateFile fileId c) cs)
      | None => file
      end
    else file.
Proof. destruct file; reflexivity. Qed.

Lemma firstFound_map {A : Type} (g : node -> node) (h : node -> A)
    (h' : node -> A) (body body' : node -> option node) (files : list node) :
  Forall (fun f => option_map h' (body' (g f)) = option_map h (body f)) files ->
  option_map h' (firstFound body' (List.map g files))
  = option_map h (firstFound body files).
Proof.
  induction 1 as [|f files Hf _ IH]; [reflexivity |].
  cbn [List.map firstFound].
  destruct (body f) as [x |], (body' (g f)) as [y |]; cbn [option_map] in *;
    try discriminate; [exact Hf | exact IH].
Qed.

Lemma firstFound_map_exact (g h : node -> node) (body body' : node -> option node)
    (files : list node) :
  Forall (fun f => body' (g f) = option_map h (body f)) files ->
  firstFound body' (List.map g files) = option_map h (firstFound body files).
Proof.
  induction 1 as [|f files Hf _ IH]; [reflexivity |].
  cbn [List.map firstFound]. rewrite Hf.
  destruct (body f); [reflexivity | exact IH].
Qed.

(** Searching the updated tree for the updated id finds the entry the
    search found before, with the new content. *)
Lemma visit_updateFile_same (fileId c : string) :
  forall file,
    visit fileId (updateFile fileId c file)
    = option_map (fun f => withContent f c) (visit fileId file).
Proof.
  apply node_induction. intros file IH.
  rewrite (updateFile_unfold fileId c file), (visit_unfold fileId file).
  destruct (String.eqb (id file) fileId) eqn:Hid.
  - rewrite visit_unfold. cbn [withContent id]. rewrite Hid. reflexivity.
  - destruct (String.eqb (type file) "folder") eqn:Hty.
    + destruct (children file) as [cs |] eqn:Hcs.
      * rewrite visit_unfold. cbn [withChildren id type children]. rewrite Hid, Hty.
        apply firstFound_map_exact. exact (IH cs eq_refl).
      * rewrite visit_unfold, Hid, Hty, Hcs. reflexivity.
    + rewrite visit_unfold, Hid, Hty. reflexivity.
Qed.

(** Searching the updated tree for another id finds an entry with the
    same fields of its own as the search found before. *)
Lemma visit_updateFile_other (fileId c other : string) :
  other <> fileId ->
  forall file,
    option_map ownFields (visit other (updateFile fileId c file))
    = option_map ownFields (visit other file).
Proof.
  intros Hne. apply node_induction. intros file IH.
  rewrite (updateFile_unfold fileId c file).
  destruct (String.eqb (id file) fileId) eqn:Hid.
  - apply String.eqb_eq in Hid.
    assert (Ho : String.eqb (id file) other = false).
    { apply String.eqb_neq. congruence. }
    rewrite visit_unfold, (visit_unfold other file).
    cbn [withContent id type children]. rewrite Ho. reflexivity.
  - destruct (String.eqb (type file) "folder") eqn:Hty; [| reflexivity].
    destruct (children file) as [cs |] eqn:Hcs; [| reflexivity].
    rewrite visit_unfold, (visit_unfold other file).
    cbn [withChildren id type children]. rewrite Hty, Hcs.
    destruct (String.eqb (id file) other); [reflexivity |].
    apply firstFound_map. exact (IH cs eq_refl).
Qed.

End TreeFacts.

(** X19.  After [updateFileContent(fileId, content)] the search for
    [fileId] finds the entry it found before, with the new content and
    nothing else changed; so when the file is in the tree, the editor
    reads back exactly what was written. *)
Theorem updateFileContent_read_back (files : list Editor.node) (fileId c : string) :
  Editor.findFileById (Editor.updateFiles fileId c files) fileId
  = option_map (fun f => Editor.withContent f c) (Editor.findFileById files fileId)
  /\ (Editor.findFileById files fileId <> None ->
      Editor.getActiveFileContent (Editor.updateFiles fileId c files) (Some fileId) = c).
Proof.
  assert (Hfind : Editor.findFileById (Editor.updateFiles fileId c files) fileId
                  = option_map (fun f => Editor.withContent f c)
                      (Editor.findFileById files fileId)).
  { unfold Editor.findFileById, Editor.updateFiles. apply firstFound_map_exact.
    apply Forall_forall. intros x _. apply visit_updateFile_same. }
  split; [exact Hfind |].
  intros Hfound. unfold Editor.getActiveFileContent. rewrite Hfind.
  destruct (Editor.findFileById files fileId) as [f |]; [| congruence].
  reflexivity.
Qed.

(** X20.  [updateFileContent(fileId, content)] changes no other file: for
    every other id the search finds an entry with the same id, name,
    path, type, language and content as before, and the editor reads the
    same content. *)
Theorem updateFileContent_leaves_others (files : list Editor.node)
    (fileId c other : string) :
  other <> fileId ->
  option_map ownFields (Editor.findFileById (Editor.updateFiles fileId c files) other)
  = option_map ownFields (Editor.findFileById files other)
  /\ Editor.getActiveFileContent (Editor.updateFiles fileId c files) (Some other)
     = Editor.getActiveFileContent files (Some other).
Proof.
  intros Hne.
  assert (Hfind : option_map ownFields
                    (Editor.findFileById (Editor.updateFiles fileId c files) other)
                  = option_map ownFields (Editor.findFileById files other)).
  { unfold Editor.findFileById, Editor.updateFiles. apply firstFound_map.
    apply Forall_forall. intros x _. apply visit_updateFile_other. exact Hne. }
  split; [exact Hfind |].
  unfold Editor.getActiveFileContent.
  destruct (Editor.findFileById (Editor.updateFiles fileId c files) other) as [f |],
           (Editor.findFileById files other) as [g |]; cbn [option_map] in Hfind;
    try discriminate; [| reflexivity].
  injection Hfind as _ _ _ _ _ Hcontent. rewrite Hcontent. reflexivity.
Qed.

Lemma updateFileContent_leaves_others_witness :
  let files := [Editor.Node "1" "index.html" "/index.html" "file" (Some "html")
                            (Some "<p>old</p>") None;
                Editor.Node "2" "styles.css" "/styles.css" "file" (Some "css")
                            (Some "p{}") None] in
  option_map ownFields (Editor.findFileById (Editor.updateFiles "1" "<p>new</p>" files) "2")
  = option_map ownFields (Editor.findFileById files "2")
  /\ Editor.getActiveFileContent (Editor.updateFiles "1" "<p>new</p>" files) (Some "2")
     = Editor.getActiveFileContent files (Some "2").
Proof.
  intros files. apply (updateFileContent_leaves_others files "1" "<p>new</p>" "2").
  discriminate.
Defined.

Section TabFacts.

Import Editor.

Lemma elem_of_existsb (x : string) (l : list string) :
  List.existsb (String.eqb x) l = true <-> x ∈ l.
Proof.
  rewrite existsb_exists, list_elem_of_In. split.
  - intros (y & Hy & Heq). apply String.eqb_eq in Heq. subst. exact Hy.
  - intros H. exists x. split; [exact H | apply String.eqb_refl].
Qed.

Lemma elem_of_filter_neq (x fileId : string) (l : list string) :
  x ∈ List.filter (fun i => negb (String.eqb i fileId)) l <-> x ∈ l /\ x <> fileId.
Proof.
  rewrite elem_of_bool_filter, negb_true_iff, String.eqb_neq. reflexivity.
Qed.

Lemma NoDup_filter_bool (f : string -> bool) (l : list string) :
  NoDup l -> NoDup (List.filter f l).
Proof.
  induction 1 as [|x l Hx Hl IH]; cbn [List.filter]; [constructor |].
  destruct (f x); [| exact IH].
  constructor; [| exact IH]. rewrite elem_of_bool_filter. tauto.
Qed.

Lemma last_elem_of (l : list string) (a : string) : last l = Some a -> a ∈ l.
Proof.
  apply last_Some_elem_of.
Qed.

End TabFacts.

(** X21.  Opening and closing files keeps the tabs in order: no file is
    open twice and the active file, if any, is one of the open files.
    A file that [openFile] accepts is open and active afterwards; a
    closed file is no longer open, and closing the active file makes the
    last remaining tab active. *)
Theorem tabs_stay_in_order (files : list Editor.node) (fileId : string)
    (t : Editor.tabs) :
  tabsInOrder t ->
  tabsInOrder (Editor.openFile files fileId t)
  /\ tabsInOrder (Editor.closeFile fileId t)
  /\ (fileId ∉ Editor.openFiles (Editor.closeFile fileId t))
  /\ (Editor.activeFileId t = Some fileId ->
      Editor.activeFileId (Editor.closeFile fileId t)
      = last (Editor.openFiles (Editor.closeFile fileId t)))
  /\ (forall file, Editor.findFileById files fileId = Some file ->
        Editor.type file = "file" ->
        fileId ∈ Editor.openFiles (Editor.openFile files fileId t)
        /\ Editor.activeFileId (Editor.openFile files fileId t) = Some fileId).
Proof.
  intros [Hnd Hactive]. split; [| split; [| split; [| split]]].
  - unfold Editor.openFile.
    destruct (Editor.findFileById files fileId) as [file |]; [| split; assumption].
    destruct (String.eqb (Editor.type file) "file"); [| split; assumption].
    destruct (List.existsb (String.eqb fileId) (Editor.openFiles t)) eqn:Hopen.
    + split; [exact Hnd |]. cbn [Editor.openFiles Editor.activeFileId].
      intros a [= <-]. apply elem_of_existsb. exact Hopen.
    + split; cbn [Editor.openFiles Editor.activeFileId].
      * apply NoDup_app. split; [exact Hnd |]. split; [| apply NoDup_singleton].
        intros x Hx Hx'. apply list_elem_of_singleton in Hx'. subst x.
        apply elem_of_existsb in Hx. congruence.
      * intros a [= <-]. apply elem_of_app. right. left.
  - unfold Editor.closeFile. split; cbn [Editor.openFiles Editor.activeFileId].
    + apply NoDup_filter_bool. exact Hnd.
    + intros a Ha. destruct (Editor.activeFileId t) as [b |] eqn:Hb; [| discriminate].
      destruct (String.eqb b fileId) eqn:Hbf.
      * apply last_elem_of. exact Ha.
      * injection Ha as <-. apply elem_of_filter_neq.
        split; [apply Hactive; reflexivity | apply String.eqb_neq; exact Hbf].
  - unfold Editor.closeFile. cbn [Editor.openFiles].
    rewrite elem_of_filter_neq. tauto.
  - intros Ha. unfold Editor.closeFile. cbn [Editor.openFiles Editor.activeFileId].
    rewrite Ha, String.eqb_refl. reflexivity.
  - intros file Hfile Hty. unfold Editor.openFile. rewrite Hfile, Hty.
    cbn [String.eqb Ascii.eqb Bool.eqb Editor.openFiles Editor.activeFileId].
    split; [| reflexivity].
    destruct (List.existsb (String.eqb fileId) (Editor.openFiles t)) eqn:Hopen.
    + apply elem_of_existsb. exact Hopen.
    + apply elem_of_app. right. left.
Qed.

Lemma tabs_stay_in_order_witness :
  let files := [Editor.Node "1" "index.html" "/index.html" "file" (Some "html")
                            (Some "<p>old</p>") None] in
  let t := Editor.Tabs ["2"] (Some "2") in
  tabsInOrder (Editor.openFile files "1" t)
  /\ tabsInOrder (Editor.closeFile "1" t)
  /\ ("1" ∉ Editor.openFiles (Editor.closeFile "1" t))
  /\ (Editor.activeFileId t = Some "1" ->
      Editor.activeFileId (Editor.closeFile "1" t)
      = last (Editor.openFiles (Editor.closeFile "1" t)))
  /\ (forall file, Editor.findFileById files "1" = Some file ->
        Editor.type file = "file" ->
        "1" ∈ Editor.openFiles (Editor.openFile files "1" t)
        /\ Editor.activeFileId (Editor.openFile files "1" t) = Some "1").
Proof.
  intros files t. apply (tabs_stay_in_order files "1" t).
  split; cbn [Editor.openFiles Editor.activeFileId t].
  - apply NoDup_singleton.
  - intros a [= <-]. left.
Defined.

(** X22.  [toggleFolder] flips the membership of that folder in the
    expanded list and of no other: the folder is expanded afterwards
    exactly when it was not before. *)
Theorem toggleFolder_flips (folderId other : string) (expandedFolders : list string) :
  (folderId ∈ Editor.toggleFolder folderId expandedFolders
   <-> folderId ∉ expandedFolders)
  /\ (other <> folderId ->
      (other ∈ Editor.toggleFolder folderId expandedFolders <-> other ∈ expandedFolders)).
Proof.
  unfold Editor.toggleFolder.
  destruct (List.existsb (String.eqb folderId) expandedFolders) eqn:Hin.
  - apply elem_of_existsb in Hin. split.
    + rewrite elem_of_filter_neq. tauto.
    + intros Hne. rewrite elem_of_filter_neq. tauto.
  - assert (Hnotin : folderId ∉ expandedFolders).
    { intros H. apply elem_of_existsb in H. congruence. }
    split.
    + rewrite elem_of_app, list_elem_of_singleton. tauto.
    + intros Hne. rewrite elem_of_app, list_elem_of_singleton. tauto.
Qed.

(* ===================================================================== *)
(** ** Image addresses *)
(* ===================================================================== *)

Lemma ofNat_injective (n m : nat) : Js.ofNat n = Js.ofNat m -> n = m.
Proof.
  assert (H : forall k, Js.ofNat k = NilEmpty.string_of_uint (Nat.to_uint k)).
  { intros [|k]; reflexivity. }
  rewrite !H. intros Heq.
  apply Unsigned.to_uint_inj.
  assert (Hs : Some (Nat.to_uint n) = Some (Nat.to_uint m)).
  { rewrite <- !NilEmpty.usu, Heq. reflexivity. }
  injection Hs as Hs. exact Hs.
Qed.

Lemma append_cancel_l (p a b : string) : p +:+ a = p +:+ b -> a = b.
Proof.
  induction p as [|c p IH]; [auto |]. rewrite !append_cons. intros [= H]. exact (IH H).
Qed.

Lemma append_cancel_r (r a b : string) : a +:+ r = b +:+ r -> a = b.
Proof.
  revert b. induction a as [|c a IH]; intros b H.
  - destruct b as [|d b]; [reflexivity |].
    apply (f_equal String.length) in H. rewrite !append_length in H. simpl in H. lia.
  - destruct b as [|d b].
    + apply (f_equal String.length) in H. rewrite !append_length in H. simpl in H. lia.
    + rewrite !append_cons in H. injection H as -> H. rewrite (IH b H). reflexivity.
Qed.

Lemma arrayFrom_nth {A : Type} (count : nat) (f : nat -> A) (i : nat) :
  i < count -> nth_error (Images.arrayFrom count f) i = Some (f i).
Proof.
  intros Hi. unfold Images.arrayFrom.
  rewrite nth_error_map, nth_error_seq.
  destruct (Nat.ltb_spec i count); [reflexivity | lia].
Qed.

Lemma arrayFrom_length {A : Type} (count : nat) (f : nat -> A) :
  length (Images.arrayFrom count f) = count.
Proof. unfold Images.arrayFrom. rewrite length_map, length_seq. reflexivity. Qed.

Lemma arrayFrom_NoDup {A : Type} (count : nat) (f : nat -> A) :
  (forall i j, f i = f j -> i = j) -> NoDup (Images.arrayFrom count f).
Proof.
  intros Hinj. unfold Images.arrayFrom.
  assert (H : forall start, NoDup (List.map f (List.seq start count))).
  { induction count as [|n IH]; intros start; cbn [List.seq List.map]; [constructor |].
    constructor; [| apply IH].
    rewrite list_elem_of_In, in_map_iff. intros (j & Hj & Hin).
    apply Hinj in Hj. subst j. apply in_seq in Hin. lia. }
  apply H.
Qed.

(** X23.  [generateCardImages(count, width, height)] returns [count]
    addresses, the one at index [i] seeded with [card] and [i + 1], and
    no two of them are the same. *)
Theorem generateCardImages_distinct (count width height : nat) :
  length (Images.generateCardImages count width height) = count
  /\ NoDup (Images.generateCardImages count width height)
  /\ forall i, i < count ->
       nth_error (Images.generateCardImages count width height) i
       = Some (Images.seeded ("card" +:+ Js.ofNat (i + 1)) width height).
Proof.
  unfold Images.generateCardImages. split; [apply arrayFrom_length |]. split.
  - apply arrayFrom_NoDup. intros i j H. unfold Images.seeded in H.
    apply append_cancel_l, append_cancel_r, append_cancel_l, ofNat_injective in H. lia.
  - intros i Hi.
    exact (arrayFrom_nth count
             (fun i => Images.seeded ("card" +:+ Js.ofNat (i + 1)) width height) i Hi).
Qed.

(** X24.  [generateAvatars(count, size)] returns [count] addresses whose
    avatar numbers stay within 1 to 70, and it repeats itself every 70
    entries. *)
Theorem generateAvatars_in_range (count size : nat) :
  length (Images.generateAvatars count size) = count
  /\ (forall i, i < count ->
        exists id, 1 <= id <= 70
                   /\ nth_error (Images.generateAvatars count size) i
                      = Some (Images.specific id size))
  /\ (forall i, i + 70 < count ->
        nth_error (Images.generateAvatars count size) (i + 70)
        = nth_error (Images.generateAvatars count size) i).
Proof.
  unfold Images.generateAvatars. split; [apply arrayFrom_length |]. split.
  - intros i Hi. exists (i mod 70 + 1). split.
    + pose proof (Nat.mod_upper_bound i 70). lia.
    + exact (arrayFrom_nth count (fun i => Images.specific (i mod 70 + 1) size) i Hi).
  - intros i Hi.
    rewrite (arrayFrom_nth count (fun i => Images.specific (i mod 70 + 1) size) (i + 70))
      by lia.
    rewrite (arrayFrom_nth count (fun i => Images.specific (i mod 70 + 1) size) i) by lia.
    cbv beta.
    replace ((i + 70) mod 70) with (i mod 70); [reflexivity |].
    replace (i + 70) with (i + 1 * 70) by lia. rewrite Nat.Div0.mod_add. reflexivity.
Qed.

(* ===================================================================== *)
(** ** Global replacement *)
(* ===================================================================== *)

Section Replacing.

Import Regex.

Lemma exec_skip (r : regex) (input : string) (i : nat) :
  i < String.length input -> matchAt r input i = None ->
  exec r input i = exec r input (S i).
Proof.
  intros Hi Hnone. unfold exec.
  destruct (Nat.ltb_spec (String.length input) i); [lia |].
  destruct (Nat.ltb_spec (String.length input) (S i)); [lia |].
  replace (String.length input - i) with (S (String.length input - S i)) by lia.
  cbn [searchFrom]. rewrite Hnone. reflexivity.
Qed.

Lemma allFrom_skip (r : regex) (input : string) (fuel i : nat) :
  i < String.length input -> matchAt r input i = None ->
  allFrom r input fuel i = allFrom r input fuel (S i).
Proof.
  intros Hi Hnone. destruct fuel as [|fuel]; [reflexivity |].
  rewrite !allFrom_S, (exec_skip r input i Hi Hnone). reflexivity.
Qed.

Lemma allFrom_end (r : regex) (input : string) (fuel : nat) :
  matchAt r input (String.length input) = None ->
  allFrom r input fuel (String.length input) = [].
Proof.
  intros Hnone. destruct fuel as [|fuel]; [reflexivity |].
  rewrite allFrom_S, (exec_end r input Hnone). reflexivity.
Qed.

Lemma allFrom_here (r : regex) (input : string) (fuel i : nat) (m : result) :
  i <= String.length input -> matchAt r input i = Some m ->
  allFrom r input (S fuel) i
  = m :: allFrom r input fuel (if stop m =? index m then S (stop m) else stop m).
Proof.
  intros Hi Hm. rewrite allFrom_S, (exec_here r input i m Hi Hm). reflexivity.
Qed.

Lemma drop_nil (n : nat) : Js.drop n "" = "".
Proof. destruct n; reflexivity. Qed.

Lemma take_nil (n : nat) : Js.take n "" = "".
Proof. destruct n; reflexivity. Qed.

Lemma drop_all (s : string) : Js.drop (String.length s) s = "".
Proof. induction s as [|c s IH]; [reflexivity | exact IH]. Qed.

Lemma drop_app_le (n : nat) (pre s : string) :
  n <= String.length pre -> Js.drop n (pre +:+ s) = Js.drop n pre +:+ s.
Proof.
  revert pre. induction n as [|n IH]; intros pre Hn; [reflexivity |].
  destruct pre as [|c pre]; [simpl in Hn; lia |].
  rewrite append_cons. cbn [Js.drop]. apply IH. simpl in Hn. lia.
Qed.

Lemma take_all (s : string) : Js.take (String.length s) s = s.
Proof. induction s as [|c s IH]; [reflexivity |]. cbn [String.length Js.take]. rewrite IH. reflexivity. Qed.

(** The part of the input between an earlier position and the end of a
    prefix. *)
Lemma slice_prefix (from : nat) (pre s : string) :
  from <= String.length pre ->
  Js.slice from (String.length pre) (pre +:+ s) = Js.drop from pre.
Proof.
  intros Hle. unfold Js.slice. rewrite (drop_app_le from pre s Hle).
  assert (Hlen : String.length pre - from = String.length (Js.drop from pre)).
  { clear s. revert from Hle. induction pre as [|c pre IH]; intros from Hle.
    - rewrite drop_nil. simpl. lia.
    - destruct from as [|from]; [reflexivity |]. cbn [Js.drop String.length].
      rewrite <- IH by (simpl in Hle; lia). simpl. lia. }
  rewrite Hlen. apply take_app.
Qed.

Lemma paste_nil (repl input : string) (from : nat) (pre : string) :
  input = pre -> from <= String.length pre ->
  Title.paste repl input [] from = Js.drop from pre.
Proof. intros -> _. reflexivity. Qed.

Lemma length_snoc (pre : string) (c : ascii) :
  String.length (pre +:+ String c "") = S (String.length pre).
Proof. rewrite append_length. simpl. lia. Qed.

Lemma snoc_app (pre : string) (c : ascii) (s : string) :
  (pre +:+ String c "") +:+ s = pre +:+ String c s.
Proof. rewrite append_assoc. reflexivity. Qed.

Lemma matchAt_run (r : regex) (pre s : string) :
  matchAt r (pre +:+ s) (String.length pre)
  = match run r Some (MState (String.length pre) s []) with
    | Some st => Some (Result (String.length pre) (pos st) (caps st))
    | None => None
    end.
Proof. unfold matchAt. rewrite drop_app. reflexivity. Qed.

(** *** A class: every character of the class is a match *)

Lemma paste_class (p : ascii -> bool) (repl : string) :
  forall (s pre : string) (from fuel : nat),
    from <= String.length pre ->
    String.length s < fuel ->
    Title.paste repl (pre +:+ s)
      (allFrom (Chr p) (pre +:+ s) fuel (String.length pre)) from
    = Js.drop from pre +:+ substitute p repl s.
Proof.
  induction s as [|c s IH]; intros pre from fuel Hfrom Hfuel.
  - rewrite append_nil_r.
    rewrite allFrom_end.
    + cbn [Title.paste substitute]. rewrite append_nil_r. reflexivity.
    + rewrite <- (append_nil_r pre) at 1. rewrite matchAt_run. reflexivity.
  - assert (Hlen : String.length pre < String.length (pre +:+ String c s)).
    { rewrite append_length. simpl. lia. }
    pose proof (matchAt_run (Chr p) pre (String c s)) as Hm.
    rewrite run_Chr in Hm. cbn [rest pos caps] in Hm.
    destruct (p c) eqn:Hpc; cbn [pos caps] in Hm.
    + destruct fuel as [|fuel]; [lia |].
      rewrite (allFrom_here _ _ fuel _ _ (Nat.lt_le_incl _ _ Hlen) Hm).
      cbn [stop index Title.paste].
      replace (S (String.length pre) =? String.length pre) with false
        by (symmetry; apply Nat.eqb_neq; lia).
      rewrite (slice_prefix from pre (String c s) Hfrom).
      rewrite <- (snoc_app pre c s), <- (length_snoc pre c).
      rewrite (IH (pre +:+ String c "") (String.length (pre +:+ String c "")) fuel)
        by (simpl in Hfuel; lia).
      rewrite drop_all. cbn [substitute]. rewrite Hpc. reflexivity.
    + rewrite (allFrom_skip _ _ fuel _ Hlen Hm).
      rewrite <- (snoc_app pre c s), <- (length_snoc pre c).
      rewrite (IH (pre +:+ String c "") from fuel)
        by (rewrite ?length_snoc; simpl in Hfuel; lia).
      rewrite (drop_app_le from pre (String c "") Hfrom).
      cbn [substitute]. rewrite Hpc, append_assoc. reflexivity.
Qed.

Lemma replaceAll_class (p : ascii -> bool) (repl s : string) :
  Title.replaceAll (Chr p) repl s = substitute p repl s.
Proof.
  unfold Title.replaceAll, matchAll.
  exact (paste_class p repl s "" 0 (S (String.length s)) (Nat.le_refl 0) (Nat.lt_succ_diag_r _)).
Qed.

End Replacing.

Section Runs.

Import Regex.

(** The longest prefix of a text within a class. *)
Lemma span_class (p : ascii -> bool) (s : string) :
  exists w t, s = w +:+ t /\ allChars p w = true /\ stopsAt p t = true.
Proof.
  induction s as [|c s (w & t & Hs & Hw & Ht)].
  - exists "", "". auto.
  - destruct (p c) eqn:Hc.
    + exists (String c w), t. rewrite append_cons, <- Hs. cbn [allChars].
      rewrite Hc, Hw. auto.
    + exists "", (String c s). cbn [stopsAt]. rewrite Hc. auto.
Qed.

Lemma squeezeFrom_run (p : ascii -> bool) (repl w t : string) :
  allChars p w = true -> stopsAt p t = true ->
  squeezeFrom p repl true (w +:+ t) = squeeze p repl t.
Proof.
  intros Hw Ht. induction w as [|c w IH].
  - rewrite append_nil_l. unfold squeeze. destruct t as [|d t]; [reflexivity |].
    cbn [stopsAt] in Ht. apply negb_true_iff in Ht.
    cbn [squeezeFrom]. rewrite Ht. reflexivity.
  - cbn [allChars] in Hw. apply andb_true_iff in Hw as [Hc Hw].
    rewrite append_cons. cbn [squeezeFrom]. rewrite Hc, append_nil_l. exact (IH Hw).
Qed.

(** *** A run: every maximal run of the class is one match *)

Lemma matchAt_plus_class (p : ascii -> bool) (pre : string) (c : ascii) (w t : string) :
  p c = true -> allChars p w = true -> stopsAt p t = true ->
  matchAt (plus (Chr p)) (pre +:+ String c (w +:+ t)) (String.length pre)
  = Some (Result (String.length pre) (S (String.length pre) + String.length w) []).
Proof.
  intros Hc Hw Ht. rewrite matchAt_run. unfold plus.
  rewrite run_Cat, run_Chr. cbn [rest pos caps]. rewrite Hc. rewrite run_Star.
  cbn [rest].
  rewrite (starLoop_greedy_class p Some t
             (MState (S (String.length pre) + String.length w) t []) w).
  - reflexivity.
  - rewrite append_length. lia.
  - reflexivity.
  - exact Hw.
  - exact Ht.
  - reflexivity.
Qed.

Lemma matchAt_plus_class_none (p : ascii -> bool) (pre s : string) :
  stopsAt p s = true ->
  matchAt (plus (Chr p)) (pre +:+ s) (String.length pre) = None.
Proof.
  intros Hs. rewrite matchAt_run. unfold plus. rewrite run_Cat, run_Chr. cbn [rest].
  destruct s as [|c s]; [reflexivity |].
  cbn [stopsAt] in Hs. apply negb_true_iff in Hs. rewrite Hs. reflexivity.
Qed.

Lemma paste_runs (p : ascii -> bool) (repl : string) (n : nat) :
  forall (s pre : string) (from fuel : nat),
    String.length s <= n ->
    from <= String.length pre ->
    String.length s < fuel ->
    Title.paste repl (pre +:+ s)
      (allFrom (plus (Chr p)) (pre +:+ s) fuel (String.length pre)) from
    = Js.drop from pre +:+ squeeze p repl s.
Proof.
  induction n as [|n IH]; intros s pre from fuel Hn Hfrom Hfuel.
  - destruct s as [|c s]; [| simpl in Hn; lia].
    rewrite append_nil_r. rewrite allFrom_end.
    + cbn [Title.paste]. unfold squeeze. cbn [squeezeFrom].
      rewrite append_nil_r. reflexivity.
    + rewrite <- (append_nil_r pre) at 1. apply matchAt_plus_class_none. reflexivity.
  - destruct s as [|c s].
    { rewrite append_nil_r. rewrite allFrom_end.
      + cbn [Title.paste]. unfold squeeze. cbn [squeezeFrom].
        rewrite append_nil_r. reflexivity.
      + rewrite <- (append_nil_r pre) at 1. apply matchAt_plus_class_none. reflexivity. }
    assert (Hlen : String.length pre < String.length (pre +:+ String c s)).
    { rewrite append_length. simpl. lia. }
    destruct (p c) eqn:Hpc.
    + destruct (span_class p s) as (w & t & Hs & Hw & Ht). subst s.
      destruct fuel as [|fuel]; [lia |].
      rewrite (allFrom_here _ _ fuel _ _ (Nat.lt_le_incl _ _ Hlen)
                 (matchAt_plus_class p pre c w t Hpc Hw Ht)).
      cbn [stop index Title.paste].
      replace (S (String.length pre) + String.length w =? String.length pre) with false
        by (symmetry; apply Nat.eqb_neq; lia).
      rewrite (slice_prefix from pre (String c (w +:+ t)) Hfrom).
      replace (pre +:+ String c (w +:+ t)) with ((pre +:+ String c w) +:+ t)
        by (rewrite append_assoc; reflexivity).
      replace (S (String.length pre) + String.length w)
        with (String.length (pre +:+ String c w))
        by (rewrite append_length; simpl; lia).
      rewrite (IH t (pre +:+ String c w) (String.length (pre +:+ String c w)) fuel).
      * rewrite drop_all. unfold squeeze at 2. cbn [squeezeFrom]. rewrite Hpc.
        rewrite (squeezeFrom_run p repl w t Hw Ht). reflexivity.
      * simpl in Hn. rewrite append_length in Hn. lia.
      * lia.
      * simpl in Hfuel. rewrite append_length in Hfuel. lia.
    + assert (Hm : matchAt (plus (Chr p)) (pre +:+ String c s) (String.length pre) = None).
      { apply matchAt_plus_class_none. cbn [stopsAt]. rewrite Hpc. reflexivity. }
      rewrite (allFrom_skip _ _ fuel _ Hlen Hm).
      rewrite <- (snoc_app pre c s), <- (length_snoc pre c).
      rewrite (IH s (pre +:+ String c "") from fuel).
      * rewrite (drop_app_le from pre (String c "") Hfrom).
        unfold squeeze. cbn [squeezeFrom]. rewrite Hpc, append_assoc. reflexivity.
      * simpl in Hn. lia.
      * rewrite length_snoc. lia.
      * simpl in Hfuel. lia.
Qed.

Lemma replaceAll_runs (p : ascii -> bool) (repl s : string) :
  Title.replaceAll (plus (Chr p)) repl s = squeeze p repl s.
Proof.
  unfold Title.replaceAll, matchAll.
  exact (paste_runs p repl (String.length s) s "" 0 (S (String.length s))
           (Nat.le_refl _) (Nat.le_refl 0) (Nat.lt_succ_diag_r _)).
Qed.

(** *** The pattern of [sanitizeFilename] for the two ends *)

Lemma edge_first (s : string) :
  matchAt Title.edgeUnderscore (String "_" s) 0 = Some (Result 0 1 []).
Proof. reflexivity. Qed.

Lemma edge_first_none (c : ascii) (s : string) :
  Ascii.eqb c "_" = false ->
  matchAt Title.edgeUnderscore (String c s) 0 = None.
Proof.
  intros Hc. unfold matchAt, Title.edgeUnderscore. cbn [Js.drop].
  rewrite run_Alt, !run_Cat. cbn [run pos rest Nat.eqb]. unfold chr.
  rewrite !run_Chr. cbn [rest]. unfold Js.ascii_eqb.
  rewrite Ascii.eqb_sym, Hc. reflexivity.
Qed.

Lemma edge_later (pre s : string) :
  pre <> "" ->
  matchAt Title.edgeUnderscore (pre +:+ s) (String.length pre)
  = if String.eqb s "_"
    then Some (Result (String.length pre) (S (String.length pre)) [])
    else None.
Proof.
  intros Hpre. rewrite matchAt_run. unfold Title.edgeUnderscore.
  rewrite run_Alt, !run_Cat. cbn [run pos].
  assert (Hpos : (String.length pre =? 0) = false).
  { destruct pre; [congruence | reflexivity]. }
  rewrite Hpos. cbn [orelse]. unfold chr. rewrite run_Chr. cbn [rest pos caps].
  destruct s as [|c s]; [reflexivity |].
  unfold Js.ascii_eqb. cbn [String.eqb]. rewrite (Ascii.eqb_sym c "_").
  destruct (Ascii.eqb "_" c); [| reflexivity].
  destruct s; reflexivity.
Qed.

Lemma stripTrailing_cons (c x : ascii) (s : string) :
  String.eqb (String x s) (String c "") = false ->
  stripTrailing c (String x s) = String x (stripTrailing c s).
Proof.
  intros H. destruct s as [|y s]; [| reflexivity].
  cbn [stripTrailing]. cbn [String.eqb] in H.
  destruct (Ascii.eqb x c); [discriminate | reflexivity].
Qed.

Lemma paste_trailing :
  forall (s pre : string) (from fuel : nat),
    pre <> "" ->
    from <= String.length pre ->
    0 < fuel ->
    Title.paste "" (pre +:+ s)
      (allFrom Title.edgeUnderscore (pre +:+ s) fuel (String.length pre)) from
    = Js.drop from pre +:+ stripTrailing "_" s.
Proof.
  induction s as [|c s IH]; intros pre from fuel Hpre Hfrom Hfuel.
  - rewrite append_nil_r. rewrite allFrom_end.
    + cbn [Title.paste stripTrailing]. rewrite append_nil_r. reflexivity.
    + rewrite <- (append_nil_r pre) at 1. rewrite (edge_later pre "" Hpre). reflexivity.
  - assert (Hlen : String.length pre < String.length (pre +:+ String c s)).
    { rewrite append_length. simpl. lia. }
    pose proof (edge_later pre (String c s) Hpre) as Hm.
    destruct (String.eqb (String c s) "_") eqn:Hlast.
    + apply String.eqb_eq in Hlast. injection Hlast as -> ->.
      destruct fuel as [|fuel]; [lia |].
      rewrite (allFrom_here _ _ fuel _ _ (Nat.lt_le_incl _ _ Hlen) Hm).
      cbn [stop index Title.paste].
      replace (S (String.length pre) =? String.length pre) with false
        by (symmetry; apply Nat.eqb_neq; lia).
      rewrite (slice_prefix from pre "_" Hfrom).
      replace (S (String.length pre)) with (String.length (pre +:+ "_"))
        by (rewrite append_length; simpl; lia).
      rewrite allFrom_end.
      * cbn [Title.paste]. rewrite drop_all. reflexivity.
      * rewrite <- (append_nil_r (pre +:+ "_")) at 1.
        rewrite edge_later; [reflexivity |].
        destruct pre; [congruence | discriminate].
    + rewrite (allFrom_skip _ _ fuel _ Hlen Hm).
      rewrite <- (snoc_app pre c s), <- (length_snoc pre c).
      rewrite (IH (pre +:+ String c "") from fuel).
      * rewrite (drop_app_le from pre (String c "") Hfrom).
        rewrite (stripTrailing_cons "_" c s Hlast), append_assoc. reflexivity.
      * destruct pre; [congruence | discriminate].
      * rewrite length_snoc. lia.
      * exact Hfuel.
Qed.

Lemma replaceAll_edges (s : string) :
  Title.replaceAll Title.edgeUnderscore "" s = stripTrailing "_" (stripLeading "_" s).
Proof.
  unfold Title.replaceAll, matchAll.
  destruct s as [|c s]; [reflexivity |].
  destruct (Ascii.eqb c "_") eqn:Hc.
  - apply Ascii.eqb_eq in Hc. subst c.
    rewrite (allFrom_here Title.edgeUnderscore (String "_" s) (String.length (String "_" s))
               0 _ (Nat.le_0_l _) (edge_first s)).
    cbn [stop index Nat.eqb Title.paste Js.slice Js.take Nat.sub Js.drop stripLeading].
    rewrite Ascii.eqb_refl, !append_nil_l.
    exact (paste_trailing s "_" 1 (String.length (String "_" s)) ltac:(discriminate)
             (Nat.le_refl 1) ltac:(simpl; lia)).
  - rewrite (allFrom_skip Title.edgeUnderscore (String c s) (S (String.length (String c s)))
               0 (Nat.lt_0_succ _) (edge_first_none c s Hc)).
    cbn [stripLeading]. rewrite Hc.
    pose proof (paste_trailing s (String c "") 0 (S (String.length (String c s)))
                  ltac:(discriminate) ltac:(simpl; lia) ltac:(lia)) as H.
    change (String c "" +:+ s) with (String c s) in H.
    cbn [String.length Js.drop] in H |- *. rewrite H.
    change (String c "" +:+ stripTrailing "_" s) with (String c (stripTrailing "_" s)).
    symmetry. apply stripTrailing_cons.
    cbn [String.eqb]. rewrite Hc. reflexivity.
Qed.

End Runs.

(* ===================================================================== *)
(** ** titleGenerator.js: file names *)
(* ===================================================================== *)

Section FileNames.

Lemma sanitizeFilename_steps (title : string) :
  Title.sanitizeFilename title
  = Js.take 50
      (stripTrailing "_"
         (stripLeading "_"
            (squeeze (Js.ascii_eqb "_") "_"
               (substitute (fun c => negb (isNameChar c)) "_" title)))).
Proof.
  unfold Title.sanitizeFilename, Title.underscoreRun, Title.invalidChar, Regex.chr.
  rewrite replaceAll_class, replaceAll_runs, replaceAll_edges. reflexivity.
Qed.

Lemma substitute_length (p : ascii -> bool) (c : ascii) (s : string) :
  String.length (substitute p (String c "") s) = String.length s.
Proof.
  induction s as [|x s IH]; [reflexivity |].
  cbn [substitute]. destruct (p x); rewrite append_cons, append_nil_l; cbn [String.length]; rewrite IH; reflexivity.
Qed.

Lemma substitute_allChars (c : ascii) (s : string) :
  isNameChar c = true ->
  allChars isNameChar (substitute (fun c => negb (isNameChar c)) (String c "") s) = true.
Proof.
  intros Hc. induction s as [|x s IH]; [reflexivity |].
  cbn [substitute]. destruct (isNameChar x) eqn:Hx; cbn [negb]; rewrite append_cons, append_nil_l; cbn [allChars].
  - rewrite Hx. exact IH.
  - rewrite Hc. exact IH.
Qed.

Lemma substitute_same (p : ascii -> bool) (repl s : string) :
  allChars (fun c => negb (p c)) s = true -> substitute p repl s = s.
Proof.
  induction s as [|x s IH]; [reflexivity |].
  cbn [allChars substitute]. intros H. apply andb_true_iff in H as [Hx Hs].
  apply negb_true_iff in Hx. rewrite Hx, (IH Hs). reflexivity.
Qed.

Lemma squeezeFrom_length (p : ascii -> bool) (c : ascii) (b : bool) (s : string) :
  String.length (squeezeFrom p (String c "") b s) <= String.length s.
Proof.
  revert b. induction s as [|x s IH]; intros b; [reflexivity |].
  cbn [squeezeFrom]. destruct (p x).
  - specialize (IH true). destruct b; rewrite ?append_cons, append_nil_l; cbn [String.length]; lia.
  - specialize (IH false). cbn [String.length]. lia.
Qed.

Lemma squeezeFrom_allChars (q p : ascii -> bool) (c : ascii) (b : bool) (s : string) :
  q c = true -> allChars q s = true ->
  allChars q (squeezeFrom p (String c "") b s) = true.
Proof.
  intros Hc. revert b. induction s as [|x s IH]; intros b Hs; [reflexivity |].
  cbn [allChars] in Hs. apply andb_true_iff in Hs as [Hx Hs].
  cbn [squeezeFrom]. destruct (p x).
  - destruct b; rewrite ?append_cons, append_nil_l; cbn [allChars]; [| rewrite Hc]; exact (IH true Hs).
  - cbn [allChars]. rewrite Hx. exact (IH false Hs).
Qed.

Lemma noDouble_cons (c x y : ascii) (s : string) :
  noDouble c (String x (String y s))
  = negb (Ascii.eqb x c && Ascii.eqb y c) && noDouble c (String y s).
Proof. reflexivity. Qed.

Lemma noDouble_cons_other (c x : ascii) (s : string) :
  Ascii.eqb x c = false -> noDouble c (String x s) = noDouble c s.
Proof.
  intros Hx. destruct s as [|y s]; [reflexivity |].
  cbn [noDouble]. rewrite Hx. reflexivity.
Qed.

Lemma noDouble_tail (c x : ascii) (s : string) :
  noDouble c (String x s) = true -> noDouble c s = true.
Proof.
  destruct s as [|y s]; [reflexivity |].
  cbn [noDouble]. intros H. apply andb_true_iff in H as [_ H]. exact H.
Qed.

Lemma noDouble_prefix (c : ascii) (a b : string) :
  noDouble c (a +:+ b) = true -> noDouble c a = true.
Proof.
  induction a as [|x a IH]; [reflexivity |].
  destruct a as [|y a]; [reflexivity |].
  rewrite !append_cons. cbn [noDouble]. intros H. apply andb_true_iff in H as [Hxy H].
  rewrite Hxy. apply IH. rewrite !append_cons. exact H.
Qed.

Lemma squeezeFrom_noDouble (c : ascii) (s : string) :
  noDouble c (String c (squeezeFrom (Js.ascii_eqb c) (String c "") true s)) = true
  /\ noDouble c (squeezeFrom (Js.ascii_eqb c) (String c "") false s) = true.
Proof.
  induction s as [|x s [IHt IHf]]; [split; reflexivity |].
  cbn [squeezeFrom]. change (Js.ascii_eqb c x) with (Ascii.eqb c x).
  destruct (Ascii.eqb c x) eqn:Hx.
  - rewrite append_cons, !append_nil_l. split; exact IHt.
  - rewrite Ascii.eqb_sym in Hx. split.
    + rewrite noDouble_cons, Hx, andb_false_r. cbn [negb andb].
      rewrite (noDouble_cons_other c x _ Hx). exact IHf.
    + rewrite (noDouble_cons_other c x _ Hx). exact IHf.
Qed.

Lemma squeeze_same (c : ascii) (s : string) :
  noDouble c s = true -> squeeze (Js.ascii_eqb c) (String c "") s = s.
Proof.
  unfold squeeze. induction s as [|x s IH]; [reflexivity |].
  intros H. cbn [squeezeFrom]. change (Js.ascii_eqb c x) with (Ascii.eqb c x).
  destruct (Ascii.eqb c x) eqn:Hx.
  - apply Ascii.eqb_eq in Hx. subst x. rewrite append_cons, append_nil_l.
    destruct s as [|y s]; [reflexivity |].
    cbn [noDouble] in H. rewrite Ascii.eqb_refl in H. cbn [andb] in H.
    apply andb_true_iff in H as [Hy H]. apply negb_true_iff in Hy.
    rewrite Ascii.eqb_sym in Hy.
    cbn [squeezeFrom]. change (Js.ascii_eqb c y) with (Ascii.eqb c y). rewrite Hy.
    specialize (IH H). cbn [squeezeFrom] in IH.
    change (Js.ascii_eqb c y) with (Ascii.eqb c y) in IH.
    rewrite Hy in IH. rewrite IH. reflexivity.
  - rewrite (IH (noDouble_tail c x s H)). reflexivity.
Qed.

Lemma stripLeading_suffix (c : ascii) (s : string) :
  exists a, s = a +:+ stripLeading c s /\ String.length a <= 1.
Proof.
  destruct s as [|x s]; [exists ""; split; [reflexivity | simpl; lia] |].
  cbn [stripLeading]. destruct (Ascii.eqb x c).
  - exists (String x ""). split; [reflexivity | simpl; lia].
  - exists "". split; [reflexivity | simpl; lia].
Qed.

Lemma stripTrailing_prefix (c : ascii) (s : string) :
  exists b, s = stripTrailing c s +:+ b.
Proof.
  induction s as [|x s [b Hb]]; [exists ""; reflexivity |].
  destruct s as [|y s].
  - cbn [stripTrailing]. destruct (Ascii.eqb x c).
    + exists (String x ""). reflexivity.
    + exists "". reflexivity.
  - exists b. change (stripTrailing c (String x (String y s)))
      with (String x (stripTrailing c (String y s))).
    rewrite append_cons, <- Hb. reflexivity.
Qed.

Lemma noDouble_stripLeading (c : ascii) (s : string) :
  noDouble c s = true ->
  noDouble c (stripLeading c s) = true /\ stopsAt (Ascii.eqb c) (stripLeading c s) = true.
Proof.
  intros H. destruct s as [|x s]; [split; reflexivity |].
  cbn [stripLeading]. destruct (Ascii.eqb x c) eqn:Hx.
  - apply Ascii.eqb_eq in Hx. subst x. split; [exact (noDouble_tail c c s H) |].
    destruct s as [|y s]; [reflexivity |].
    cbn [noDouble] in H. rewrite Ascii.eqb_refl in H. cbn [andb] in H.
    apply andb_true_iff in H as [Hy _]. apply negb_true_iff in Hy.
    cbn [stopsAt]. rewrite Ascii.eqb_sym, Hy. reflexivity.
  - split; [exact H |]. cbn [stopsAt]. rewrite Ascii.eqb_sym, Hx. reflexivity.
Qed.

Lemma stopsAt_prefix (p : ascii -> bool) (a b : string) :
  stopsAt p (a +:+ b) = true -> stopsAt p a = true.
Proof. destruct a; [reflexivity | exact (fun H => H)]. Qed.

Lemma stripTrailing_ends (c : ascii) (s : string) :
  noDouble c s = true -> endsOutside (Ascii.eqb c) (stripTrailing c s) = true.
Proof.
  induction s as [|x s IH]; [reflexivity |].
  intros H. destruct s as [|y s].
  - cbn [stripTrailing]. destruct (Ascii.eqb x c) eqn:Hx; [reflexivity |].
    cbn [endsOutside]. rewrite Ascii.eqb_sym, Hx. reflexivity.
  - change (stripTrailing c (String x (String y s)))
      with (String x (stripTrailing c (String y s))).
    specialize (IH (noDouble_tail c x _ H)).
    destruct (stripTrailing c (String y s)) as [|z t] eqn:Hs; [| exact IH].
    (* the rest was the character alone *)
    destruct s as [|y' s].
    + cbn [stripTrailing] in Hs. destruct (Ascii.eqb y c) eqn:Hy; [| discriminate].
      cbn [noDouble] in H. rewrite Hy, !andb_true_r in H. cbn [endsOutside].
      apply negb_true_iff in H. rewrite Ascii.eqb_sym, H. reflexivity.
    + discriminate.
Qed.

Lemma stripLeading_same (c : ascii) (s : string) :
  stopsAt (Ascii.eqb c) s = true -> stripLeading c s = s.
Proof.
  destruct s as [|x s]; [reflexivity |].
  cbn [stopsAt stripLeading]. intros H. apply negb_true_iff in H.
  rewrite Ascii.eqb_sym, H. reflexivity.
Qed.

Lemma stripTrailing_same (c : ascii) (s : string) :
  endsOutside (Ascii.eqb c) s = true -> stripTrailing c s = s.
Proof.
  induction s as [|x s IH]; [reflexivity |].
  destruct s as [|y s].
  - cbn [endsOutside stripTrailing]. intros H. apply negb_true_iff in H.
    rewrite Ascii.eqb_sym, H. reflexivity.
  - intros H. change (stripTrailing c (String x (String y s)))
      with (String x (stripTrailing c (String y s))).
    rewrite (IH H). reflexivity.
Qed.

Lemma take_length_le (n : nat) (s : string) : String.length (Js.take n s) <= n.
Proof.
  revert s. induction n as [|n IH]; intros s; [reflexivity |].
  destruct s as [|c s]; [simpl; lia |]. cbn [Js.take String.length].
  specialize (IH s). lia.
Qed.

Lemma take_same (n : nat) (s : string) : String.length s <= n -> Js.take n s = s.
Proof.
  revert s. induction n as [|n IH]; intros s H.
  - destruct s; [reflexivity | simpl in H; lia].
  - destruct s as [|c s]; [reflexivity |]. cbn [Js.take]. rewrite IH; [reflexivity |].
    simpl in H. lia.
Qed.

(** A name that is clean already is only cut. *)
Lemma sanitizeFilename_clean (name : string) :
  allChars isNameChar name = true ->
  noDouble "_" name = true ->
  stopsAt (Ascii.eqb "_") name = true ->
  endsOutside (Ascii.eqb "_") name = true ->
  Title.sanitizeFilename name = Js.take 50 name.
Proof.
  intros Hchars Hdouble Hhead Hlast.
  rewrite sanitizeFilename_steps.
  rewrite substitute_same.
  - rewrite (squeeze_same "_" name Hdouble), (stripLeading_same "_" name Hhead),
      (stripTrailing_same "_" name Hlast).
    reflexivity.
  - rewrite <- Hchars. clear. induction name as [|c s IH]; [reflexivity |].
    cbn [allChars]. rewrite negb_involutive, IH. reflexivity.
Qed.

End FileNames.

(** X25.  Whatever the title, the file name that [sanitizeFilename]
    returns has at most 50 characters, holds only letters, digits,
    underscores and hyphens, has no two underscores in a row and does not
    begin with an underscore; when the title has at most 50 characters it
    does not end with an underscore either. *)
Theorem sanitizeFilename_safe (title : string) :
  String.length (Title.sanitizeFilename title) <= 50
  /\ allChars isNameChar (Title.sanitizeFilename title) = true
  /\ noDouble "_" (Title.sanitizeFilename title) = true
  /\ stopsAt (Ascii.eqb "_") (Title.sanitizeFilename title) = true
  /\ (String.length title <= 50 ->
      endsOutside (Ascii.eqb "_") (Title.sanitizeFilename title) = true).
Proof.
  rewrite sanitizeFilename_steps.
  set (a := substitute (fun c => negb (isNameChar c)) "_" title).
  set (b := squeeze (Js.ascii_eqb "_") "_" a).
  assert (Ha : allChars isNameChar a = true) by (apply substitute_allChars; reflexivity).
  assert (Hb : allChars isNameChar b = true)
    by (apply squeezeFrom_allChars; [reflexivity | exact Ha]).
  assert (Hn : noDouble "_" b = true) by (apply (squeezeFrom_noDouble "_" a)).
  destruct (noDouble_stripLeading "_" b Hn) as [Hn' Hhead].
  destruct (stripLeading_suffix "_" b) as (pre & Hpre & _).
  destruct (stripTrailing_prefix "_" (stripLeading "_" b)) as (post & Hpost).
  set (d := stripTrailing "_" (stripLeading "_" b)) in *.
  pose proof (take_drop 50 d) as Htake.
  assert (Hd : allChars isNameChar d = true).
  { rewrite Hpre, Hpost, !allChars_app in Hb.
    apply andb_true_iff in Hb as [_ Hb]. apply andb_true_iff in Hb as [Hb _]. exact Hb. }
  assert (Hdn : noDouble "_" d = true).
  { apply (noDouble_prefix "_" d post). rewrite <- Hpost. exact Hn'. }
  assert (Hdh : stopsAt (Ascii.eqb "_") d = true).
  { apply (stopsAt_prefix _ d post). rewrite <- Hpost. exact Hhead. }
  split; [apply take_length_le |].
  split; [rewrite <- Htake, allChars_app in Hd; apply andb_true_iff in Hd as [Hd _]; exact Hd |].
  split; [apply (noDouble_prefix "_" _ (Js.drop 50 d)); rewrite Htake; exact Hdn |].
  split; [apply (stopsAt_prefix _ _ (Js.drop 50 d)); rewrite Htake; exact Hdh |].
  intros Hlen. rewrite take_same.
  - apply stripTrailing_ends. exact Hn'.
  - pose proof (f_equal String.length Hpost) as Lpost. rewrite append_length in Lpost.
    pose proof (f_equal String.length Hpre) as Lpre. rewrite append_length in Lpre.
    pose proof (squeezeFrom_length (Js.ascii_eqb "_") "_" false a) as Hsq.
    fold (squeeze (Js.ascii_eqb "_") "_" a) in Hsq. fold b in Hsq.
    pose proof (substitute_length (fun c => negb (isNameChar c)) "_" title) as Hsub.
    fold a in Hsub. lia.
Qed.

(** X26.  A name of at most 50 letters, digits, underscores and hyphens,
    without two underscores in a row and without an underscore at either
    end, is returned by [sanitizeFilename] as it is. *)
Theorem sanitizeFilename_keeps_clean_names (name : string) :
  String.length name <= 50 ->
  allChars isNameChar name = true ->
  noDouble "_" name = true ->
  stopsAt (Ascii.eqb "_") name = true ->
  endsOutside (Ascii.eqb "_") name = true ->
  Title.sanitizeFilename name = name.
Proof.
  intros Hlen Hchars Hdouble Hhead Hlast.
  rewrite (sanitizeFilename_clean name Hchars Hdouble Hhead Hlast).
  exact (take_same 50 name Hlen).
Qed.

Lemma sanitizeFilename_keeps_clean_names_witness :
  Title.sanitizeFilename "Dark_Portfolio-2" = "Dark_Portfolio-2".
Proof.
  apply (sanitizeFilename_keeps_clean_names "Dark_Portfolio-2");
    [simpl; lia | reflexivity | reflexivity | reflexivity | reflexivity].
Defined.

Lemma sanitizeFilename_safe_witness :
  endsOutside (Ascii.eqb "_") (Title.sanitizeFilename "my  site!") = true.
Proof.
  apply (sanitizeFilename_safe "my  site!"). simpl. lia.
Defined.

(* ===================================================================== *)
(** ** titleGenerator.js: the words of a title *)
(* ===================================================================== *)

Section TitleFacts.

(** The characters of a normalised word. *)
Local Abbreviation isWordCh :=
  (fun c : ascii => Js.isLower c || Js.isDigit c || Js.ascii_eqb c "-").

Lemma allChars_impl (p q : ascii -> bool) (s : string) :
  (forall c, p c = true -> q c = true) -> allChars p s = true -> allChars q s = true.
Proof.
  intros Hpq. induction s as [|c s IH]; [reflexivity |].
  cbn [allChars]. intros H. apply andb_true_iff in H as [Hc Hs].
  rewrite (Hpq c Hc), (IH Hs). reflexivity.
Qed.

Lemma allChars_both (p q : ascii -> bool) (s : string) :
  allChars p s = true -> allChars q s = true -> allChars (fun c => p c && q c) s = true.
Proof.
  induction s as [|c s IH]; [reflexivity |].
  cbn [allChars]. intros Hp Hq.
  apply andb_true_iff in Hp as [Hpc Hp]. apply andb_true_iff in Hq as [Hqc Hq].
  rewrite Hpc, Hqc, (IH Hp Hq). reflexivity.
Qed.

Lemma split_allChars (p : ascii -> bool) (sep : ascii) (s x : string) :
  allChars p s = true -> In x (Js.split sep s) -> allChars p x = true.
Proof.
  revert x. induction s as [|c s IH]; intros x Hs Hx.
  - simpl in Hx. destruct Hx as [<- | []]. reflexivity.
  - cbn [allChars] in Hs. apply andb_true_iff in Hs as [Hc Hs].
    simpl in Hx. destruct (Js.ascii_eqb c sep).
    + destruct Hx as [<- | Hx]; [reflexivity | exact (IH x Hs Hx)].
    + destruct (Js.split sep s) as [|y ys] eqn:Hsplit.
      * destruct Hx as [<- | []]. cbn [allChars]. rewrite Hc. reflexivity.
      * destruct Hx as [<- | Hx].
        -- cbn [allChars]. rewrite Hc. apply (IH y Hs). left. reflexivity.
        -- apply (IH x Hs). right. exact Hx.
Qed.

Lemma substitute_class (p q : ascii -> bool) (r : ascii) (s : string) :
  q r = true ->
  (forall c, p c = false -> q c = true) ->
  allChars q (substitute p (String r "") s) = true.
Proof.
  intros Hr Hq. induction s as [|c s IH]; [reflexivity |].
  cbn [substitute]. destruct (p c) eqn:Hc; rewrite append_cons, append_nil_l; cbn [allChars].
  - rewrite Hr. exact IH.
  - rewrite (Hq c Hc). exact IH.
Qed.

Lemma squeezeFrom_class (p q : ascii -> bool) (r : ascii) (b : bool) (s : string) :
  q r = true ->
  allChars (fun c => p c || q c) s = true ->
  allChars q (squeezeFrom p (String r "") b s) = true.
Proof.
  intros Hr. revert b. induction s as [|c s IH]; intros b Hs; [reflexivity |].
  cbn [allChars] in Hs. apply andb_true_iff in Hs as [Hc Hs].
  cbn [squeezeFrom]. destruct (p c) eqn:Hpc.
  - destruct b; rewrite ?append_cons, append_nil_l; cbn [allChars]; [| rewrite Hr];
      exact (IH true Hs).
  - cbn [orb] in Hc. cbn [allChars]. rewrite Hc. exact (IH false Hs).
Qed.

Lemma normalize_steps (prompt : string) :
  Title.normalize prompt
  = Js.trim
      (squeeze Js.isWhiteSpace " "
         (substitute
            (fun c => negb (Js.isLower c || Js.isDigit c || Js.isWhiteSpace c
                            || Js.ascii_eqb c "-")) " "
            (Title.toLowerCase prompt))).
Proof.
  unfold Title.normalize, Title.whiteSpaceRun, Title.specialChar, Regex.ws.
  rewrite replaceAll_class, replaceAll_runs. reflexivity.
Qed.

(** The normalised prompt holds lower-case letters, digits, hyphens and
    spaces only. *)
Lemma normalize_chars (prompt : string) :
  allChars (fun c => isWordCh c || Js.ascii_eqb c " ") (Title.normalize prompt) = true.
Proof.
  rewrite normalize_steps. unfold Js.trim.
  apply allChars_trimEnd, allChars_trimStart.
  apply squeezeFrom_class; [reflexivity |].
  apply (substitute_class _ _ " "); [reflexivity |].
  intros c Hc. apply negb_false_iff in Hc.
  destruct (Js.isWhiteSpace c); [reflexivity |].
  cbn [orb]. rewrite orb_false_r in Hc.
  destruct (Js.isLower c); [reflexivity |].
  destruct (Js.isDigit c); [reflexivity |].
  cbn [orb] in Hc |- *. rewrite Hc. reflexivity.
Qed.

Lemma normalize_words (prompt word : string) :
  In word (Js.split " " (Title.normalize prompt)) -> allChars isWordCh word = true.
Proof.
  intros Hin.
  pose proof (split_allChars _ " " _ word (normalize_chars prompt) Hin) as H1.
  pose proof (split_without_separator " " _ word Hin) as H2.
  pose proof (allChars_both _ _ word H1 H2) as H.
  revert H. apply allChars_impl. intros c Hc.
  apply andb_true_iff in Hc as [Hc Hsp]. apply negb_true_iff in Hsp.
  rewrite Hsp, orb_false_r in Hc. exact Hc.
Qed.

Lemma upperUnit_part (c : ascii) : isWordCh c = true -> isPartChar (Title.upperUnit c) = true.
Proof.
  destruct c as [[] [] [] [] [] [] [] []]; intros H; try reflexivity; discriminate H.
Qed.

Lemma wordCh_part (c : ascii) : isWordCh c = true -> isPartChar c = true.
Proof.
  unfold isPartChar. intros H.
  destruct (Js.isLower c); [reflexivity |].
  destruct (Js.isDigit c); [apply orb_true_iff; left; apply orb_true_r |].
  cbn [orb] in H. rewrite H. apply orb_true_r.
Qed.

Lemma capitalize_part (word : string) :
  (String.length word <? 3) = false ->
  allChars isWordCh word = true ->
  isPart (Title.capitalize word) = true.
Proof.
  intros Hlen Hchars. destruct word as [|c rest]; [discriminate |].
  cbn [allChars] in Hchars. apply andb_true_iff in Hchars as [Hc Hrest].
  unfold isPart, Title.capitalize. cbn [Js.truthy allChars andb].
  rewrite (upperUnit_part c Hc). cbn [andb].
  revert Hrest. apply allChars_impl. exact wordCh_part.
Qed.

(** Every value of [TYPE_KEYWORDS] is a part. *)
Lemma typeKeyword_part (word : string) (k : Title.keyword) :
  Title.typeKeyword word = Some k ->
  match k with
  | Title.Word v => isPart v = true
  | Title.ObjectFunction => word = "constructor"
  end.
Proof.
  unfold Title.typeKeyword.
  destruct (List.find (fun p => String.eqb (fst p) word) Title.TYPE_KEYWORDS)
    as [[key v] |] eqn:Hfind.
  - intros [= <-]. apply find_some in Hfind as [Hin _].
    assert (Hall : forallb (fun p => isPart (snd p)) Title.TYPE_KEYWORDS = true)
      by (vm_compute; reflexivity).
    rewrite forallb_forall in Hall. exact (Hall _ Hin).
  - destruct (String.eqb word "constructor") eqn:Hw; [| discriminate].
    intros [= <-]. apply String.eqb_eq in Hw. exact Hw.
Qed.

(** A keyword that is a part of a title. *)
Local Abbreviation isPartKeyword :=
  (fun k : Title.keyword =>
     match k with Title.Word s => isPart s = true | Title.ObjectFunction => False end).

Lemma keywordStep_parts (acc : list Title.keyword * gset string) (word : string) :
  allChars isWordCh word = true ->
  word <> "constructor" ->
  Forall isPartKeyword (fst acc) ->
  Forall isPartKeyword (fst (Title.keywordStep acc word)).
Proof.
  intros Hchars Hword Hacc. destruct acc as [keywords seenWords].
  unfold Title.keywordStep.
  destruct (String.length word <? 3) eqn:Hlen; [exact Hacc |].
  destruct (Title.isStopWord word); [exact Hacc |].
  destruct (bool_decide (word ∈ seenWords)); [exact Hacc |].
  destruct (Title.typeKeyword word) as [k |] eqn:Hk; cbn [fst] in *.
  - apply typeKeyword_part in Hk. constructor; [| exact Hacc].
    destruct k; [exact Hk | contradiction].
  - apply Forall_app. split; [exact Hacc |].
    constructor; [| constructor]. exact (capitalize_part word Hlen Hchars).
Qed.

Lemma fold_keywordStep_parts (words : list string) :
  forall acc,
    (forall word, In word words -> allChars isWordCh word = true) ->
    ~ In "constructor" words ->
    Forall isPartKeyword (fst acc) ->
    Forall isPartKeyword (fst (List.fold_left Title.keywordStep words acc)).
Proof.
  induction words as [|word words IH]; intros acc Hchars Hnot Hacc; [exact Hacc |].
  cbn [List.fold_left]. apply IH.
  - intros x Hx. apply Hchars. right. exact Hx.
  - intros Hin. apply Hnot. right. exact Hin.
  - apply keywordStep_parts; [apply Hchars; left; reflexivity | | exact Hacc].
    intros ->. apply Hnot. left. reflexivity.
Qed.

Lemma extractKeywords_parts (prompt : string) :
  "constructor" ∉ Js.split " " (Title.normalize prompt) ->
  Forall isPartKeyword (Title.extractKeywords prompt).
Proof.
  intros Hnot. unfold Title.extractKeywords.
  destruct (Js.truthy prompt); cbn [negb]; [| constructor].
  apply fold_keywordStep_parts.
  - intros word. apply normalize_words.
  - rewrite <- list_elem_of_In. exact Hnot.
  - constructor.
Qed.

(** *** Parts joined by underscores *)

Lemma part_no_underscore (x : string) :
  allChars isPartChar x = true -> allChars (fun c => negb (Ascii.eqb c "_")) x = true.
Proof.
  apply allChars_impl. intros c.
  destruct c as [[] [] [] [] [] [] [] []]; intros H; try reflexivity; discriminate H.
Qed.

Lemma part_name (x : string) :
  allChars isPartChar x = true -> allChars isNameChar x = true.
Proof.
  apply allChars_impl. intros c H. unfold isPartChar in H. unfold isNameChar.
  destruct (Js.isLower c); [reflexivity |].
  destruct (Js.isUpper c); [reflexivity |].
  destruct (Js.isDigit c); [reflexivity |].
  cbn [orb] in H |- *. rewrite H. apply orb_true_r.
Qed.

Lemma noDouble_app_free (c : ascii) (x t : string) :
  allChars (fun d => negb (Ascii.eqb d c)) x = true ->
  noDouble c t = true ->
  noDouble c (x +:+ t) = true.
Proof.
  intros Hx Ht. induction x as [|d x IH]; [exact Ht |].
  cbn [allChars] in Hx. apply andb_true_iff in Hx as [Hd Hx].
  apply negb_true_iff in Hd.
  rewrite append_cons, (noDouble_cons_other c d _ Hd). exact (IH Hx).
Qed.

Lemma endsOutside_app (p : ascii -> bool) (x t : string) :
  t <> "" -> endsOutside p (x +:+ t) = endsOutside p t.
Proof.
  intros Ht. induction x as [|d x IH]; [reflexivity |].
  rewrite append_cons.
  destruct (x +:+ t) as [|e u] eqn:Hxt.
  - destruct x; [rewrite append_nil_l in Hxt; contradiction | discriminate].
  - exact IH.
Qed.

Lemma endsOutside_free (c : ascii) (x : string) :
  allChars (fun d => negb (Ascii.eqb d c)) x = true -> endsOutside (Ascii.eqb c) x = true.
Proof.
  induction x as [|d x IH]; [reflexivity |].
  cbn [allChars]. intros H. apply andb_true_iff in H as [Hd Hx].
  destruct x as [|e x]; [| exact (IH Hx)].
  cbn [endsOutside]. rewrite Ascii.eqb_sym. exact Hd.
Qed.

Lemma stopsAt_free (c : ascii) (x t : string) :
  x <> "" ->
  allChars (fun d => negb (Ascii.eqb d c)) x = true ->
  stopsAt (Ascii.eqb c) (x +:+ t) = true.
Proof.
  intros Hne Hx. destruct x as [|d x]; [contradiction |].
  cbn [allChars] in Hx. apply andb_true_iff in Hx as [Hd _].
  rewrite append_cons. cbn [stopsAt]. rewrite Ascii.eqb_sym. exact Hd.
Qed.

(** Parts joined by underscores make a clean name. *)
Lemma join_parts_clean (parts : list string) :
  parts <> [] ->
  Forall (fun p => isPart p = true) parts ->
  Js.join "_" parts <> ""
  /\ allChars isNameChar (Js.join "_" parts) = true
  /\ noDouble "_" (Js.join "_" parts) = true
  /\ stopsAt (Ascii.eqb "_") (Js.join "_" parts) = true
  /\ endsOutside (Ascii.eqb "_") (Js.join "_" parts) = true.
Proof.
  intros Hne Hall. induction Hall as [|x rest Hx Hrest IH]; [contradiction |].
  unfold isPart in Hx. apply andb_true_iff in Hx as [Htruthy Hchars].
  assert (Hx0 : x <> "") by (destruct x; [discriminate | discriminate]).
  pose proof (part_no_underscore x Hchars) as Hfree.
  destruct rest as [|y rest].
  - cbn [Js.join]. split; [exact Hx0 |].
    split; [exact (part_name x Hchars) |].
    split; [rewrite <- (append_nil_r x); apply noDouble_app_free; [exact Hfree | reflexivity] |].
    split; [rewrite <- (append_nil_r x); apply stopsAt_free; assumption |].
    apply endsOutside_free. exact Hfree.
  - destruct (IH ltac:(discriminate)) as (Hn & Hc & Hd & Hh & He).
    change (Js.join "_" (x :: y :: rest)) with (x +:+ "_" +:+ Js.join "_" (y :: rest)).
    set (t := Js.join "_" (y :: rest)) in *.
    split; [destruct x; [contradiction | discriminate] |].
    split.
    { rewrite !allChars_app, (part_name x Hchars), Hc. reflexivity. }
    split.
    { apply noDouble_app_free; [exact Hfree |].
      rewrite append_cons, append_nil_l.
      destruct t as [|e u]; [contradiction |].
      rewrite noDouble_cons, Hd. cbn [stopsAt] in Hh. apply negb_true_iff in Hh.
      rewrite (Ascii.eqb_sym e "_"), Hh, andb_false_r. reflexivity. }
    split; [apply stopsAt_free; assumption |].
    rewrite endsOutside_app.
    + rewrite append_cons, append_nil_l.
      destruct t as [|e u]; [contradiction | exact He].
    + discriminate.
Qed.

End TitleFacts.

Section GeneratedTitles.

Variable objectSource : string.
Variable E : environment.

Lemma toString_parts (ks : list Title.keyword) :
  Forall (fun k => match k with
                   | Title.Word s => isPart s = true
                   | Title.ObjectFunction => False
                   end) ks ->
  Forall (fun p => isPart p = true) (List.map (Title.toString objectSource) ks).
Proof.
  induction 1 as [|k ks Hk _ IH]; [constructor |].
  cbn [List.map]. constructor; [| exact IH].
  destruct k; [exact Hk | contradiction].
Qed.

Lemma suffix_part (d : draw) :
  isPart (default "" (Title.PROJECT_SUFFIXES !! floorMul d (length Title.PROJECT_SUFFIXES)))
  = true.
Proof.
  assert (Hlt : floorMul d (length Title.PROJECT_SUFFIXES) < length Title.PROJECT_SUFFIXES)
    by (apply floorMul_lt; simpl; lia).
  destruct (lookup_lt_is_Some_2 _ _ Hlt) as [s Hs]. rewrite Hs. cbn [default].
  apply list_elem_of_lookup_2, list_elem_of_In in Hs.
  assert (Hall : forallb isPart Title.PROJECT_SUFFIXES = true) by (vm_compute; reflexivity).
  rewrite forallb_forall in Hall. exact (Hall s Hs).
Qed.

(** Without the word [constructor] in the prompt, a title is made of two
    to four parts. *)
Lemma generateProjectTitle_parts (prompt : string) (w : world) :
  "constructor" ∉ Js.split " " (Title.normalize prompt) ->
  exists w' parts,
    Title.generateProjectTitle objectSource E prompt w = (Return (Js.join "_" parts), w')
    /\ 2 <= length parts <= 4
    /\ Forall (fun p => isPart p = true) parts.
Proof.
  intros Hnot. pose proof (extractKeywords_parts prompt Hnot) as Hall.
  unfold Title.generateProjectTitle.
  destruct (Title.extractKeywords prompt) as [|k ks] eqn:Hks.
  - exists w, ["DSY"; "Project"]. split; [reflexivity |].
    split; [simpl; lia |]. repeat constructor.
  - cbn [length Nat.eqb].
    assert (Hparts : Forall (fun p => isPart p = true)
                       (List.map (Title.toString objectSource) (List.firstn 4 (k :: ks))))
      by (apply toString_parts, Forall_take, Hall).
    set (titleWords := List.map (Title.toString objectSource) (List.firstn 4 (k :: ks))) in *.
    assert (Hlen : 1 <= length titleWords <= 4).
    { subst titleWords. rewrite length_map, length_firstn. cbn [length]. lia. }
    unfold bind at 1.
    destruct (length titleWords <? 2) eqn:Hshort.
    + apply Nat.ltb_lt in Hshort. unfold bind, mathRandom, ret. cbv beta iota.
      eexists _, _. split; [reflexivity |].
      split; [rewrite length_app; cbn [length]; lia |].
      apply Forall_app. split; [exact Hparts |].
      constructor; [apply suffix_part | constructor].
    + apply Nat.ltb_ge in Hshort. unfold ret.
      eexists _, _. split; [reflexivity |].
      split; [lia | exact Hparts].
Qed.

End GeneratedTitles.

(** X27.  For a prompt that does not hold the word [constructor],
    [generateProjectTitle] returns two to four parts joined by
    underscores, each part a non-empty run of letters, digits and
    hyphens; [sanitizeFilename] leaves such a title as it is, apart from
    cutting it to 50 characters. *)
Theorem generated_title_is_a_file_name (objectSource : string) (E : environment)
    (prompt : string) (w : world) :
  "constructor" ∉ Js.split " " (Title.normalize prompt) ->
  exists title w' parts,
    Title.generateProjectTitle objectSource E prompt w = (Return title, w')
    /\ title = Js.join "_" parts
    /\ 2 <= length parts <= 4
    /\ Forall (fun p => isPart p = true) parts
    /\ Title.sanitizeFilename title = Js.take 50 title.
Proof.
  intros Hnot.
  destruct (generateProjectTitle_parts objectSource E prompt w Hnot)
    as (w' & parts & Hrun & Hlen & Hparts).
  exists (Js.join "_" parts), w', parts.
  split; [exact Hrun |]. split; [reflexivity |]. split; [exact Hlen |].
  split; [exact Hparts |].
  assert (Hne : parts <> []) by (destruct parts; [simpl in Hlen; lia | discriminate]).
  destruct (join_parts_clean parts Hne Hparts) as (_ & Hc & Hd & Hh & He).
  exact (sanitizeFilename_clean _ Hc Hd Hh He).
Qed.

Lemma generated_title_is_a_file_name_witness :
  exists title w' parts,
    Title.generateProjectTitle "function Object() { [native code] }"
      (Sample.environmentWith "A" Sample.shortPair)
      "Create a dark portfolio website!" initialWorld = (Return title, w')
    /\ title = Js.join "_" parts
    /\ 2 <= length parts <= 4
    /\ Forall (fun p => isPart p = true) parts
    /\ Title.sanitizeFilename title = Js.take 50 title.
Proof.
  apply (generated_title_is_a_file_name "function Object() { [native code] }"
           (Sample.environmentWith "A" Sample.shortPair)
           "Create a dark portfolio website!" initialWorld).
  intros H. apply list_elem_of_In in H. vm_compute in H.
  repeat (destruct H as [H | H]; [discriminate H |]). exact H.
Defined.

(* ===================================================================== *)
(** ** The chatbot service *)
(* ===================================================================== *)

Section ChatFacts.

Variable keysRaw : string.
Variable E : environment.

Lemma chat_getRandomKey_world (w : world) :
  exists k w', Chatbot.getRandomKey keysRaw E w = (Return k, w')
               /\ calls w' = calls w.
Proof.
  unfold Chatbot.getRandomKey.
  destruct (length (Chatbot.CHATBOT_API_KEYS keysRaw) =? 0).
  { eexists _, _. split; reflexivity. }
  match goal with |- context [length ?a =? 0] => destruct (length a =? 0) end;
    eexists _, _; split; reflexivity.
Qed.

Lemma chat_getRandomKey_unconfigured (w : world) :
  Chatbot.CHATBOT_API_KEYS keysRaw = [] ->
  Chatbot.getRandomKey keysRaw E w = (Return None, w).
Proof. intros H. unfold Chatbot.getRandomKey. rewrite H. reflexivity. Qed.

Lemma chatExhausted_shape (lastError : option string) :
  Chatbot.success (Chatbot.chatExhausted lastError) = false
  /\ Chatbot.message (Chatbot.chatExhausted lastError) = None
  /\ exists m, Chatbot.error (Chatbot.chatExhausted lastError) = Some m /\ m <> "".
Proof.
  unfold Chatbot.chatExhausted. cbn [Chatbot.success Chatbot.message Chatbot.error].
  split; [reflexivity |]. split; [reflexivity |].
  destruct lastError as [[|c m] |]; eexists; (split; [reflexivity | discriminate]).
Qed.

Lemma chatAttempt_spec (key : string) (lastError : option string) (w : world) :
  exists s w',
    Chatbot.chatAttempt E key lastError w = (Return s, w')
    /\ calls w' = calls w ++ [FetchedGemini key (gemini E (geminiFetches w) key)]
    /\ match s with
       | Finish r => chatShape r
       | Continue _ => True
       end.
Proof.
  unfold Chatbot.chatAttempt, tryCatch, bind, Gemini.fetch.
  remember Chatbot.parseCodeModifications as parse.
  destruct (gemini E (geminiFetches w) key) as [m | status b];
    cbn -[Nat.eqb ok].
  { eexists _, _. repeat split. }
  destruct (status =? 429); cbn -[ok].
  { eexists _, _. repeat split. }
  destruct (ok status); cbn.
  2:{ eexists _, _. repeat split. }
  destruct b as [m | em [| m | t]]; cbn;
    eexists _, _; (split; [reflexivity |]); (split; [reflexivity |]); try exact I.
  - subst parse. unfold chatShape. cbn. split; [reflexivity |]. exists "". auto.
  - subst parse. unfold chatShape. cbn. split; [reflexivity |]. exists t. auto.
Qed.

Lemma chatLoop_spec (apiKey : string) (remaining : nat) :
  forall (attempt : nat) (lastError : option string) (w : world),
  exists r w' es,
    Chatbot.chatLoop keysRaw E apiKey remaining attempt lastError w = (Return r, w')
    /\ calls w' = calls w ++ es
    /\ Forall (fun e => isGeminiFetch e = true) es
    /\ length es <= remaining
    /\ chatShape r.
Proof.
  induction remaining as [|remaining' IH]; intros attempt lastError w.
  - exists (Chatbot.chatExhausted lastError), w, [].
    simpl. rewrite app_nil_r. repeat split; try lia; [constructor |].
    apply chatExhausted_shape.
  - assert (Hexhausted : forall w1,
              calls w1 = calls w ->
              exists r w' es,
                (Return (Chatbot.chatExhausted lastError), w1) = (Return r, w')
                /\ calls w' = calls w ++ es
                /\ Forall (fun e => isGeminiFetch e = true) es
                /\ length es <= S remaining'
                /\ chatShape r).
    { intros w1 Hc. exists (Chatbot.chatExhausted lastError), w1, [].
      simpl. rewrite app_nil_r. repeat split; try lia; try assumption; [constructor |].
      apply chatExhausted_shape. }
    assert (Hkey : exists k w1,
              (if attempt =? 0 then ret (Some apiKey)
               else Chatbot.getRandomKey keysRaw E) w = (Return k, w1)
              /\ calls w1 = calls w).
    { destruct (attempt =? 0).
      - exists (Some apiKey), w. auto.
      - apply chat_getRandomKey_world. }
    destruct Hkey as (k & w1 & Hk & Hc1).
    cbn [Chatbot.chatLoop]. unfold bind at 1. rewrite Hk.
    destruct k as [key|]; [| apply Hexhausted; assumption].
    destruct (Js.truthy key); cbn [negb]; [| apply Hexhausted; assumption].
    unfold bind at 1.
    destruct (chatAttempt_spec key lastError w1) as (s & w2 & Hrun & Hc2 & Hs).
    rewrite Hrun. rewrite Hc1 in Hc2.
    destruct s as [lastError' | r].
    + destruct (IH (S attempt) lastError' w2) as (r & w' & es & Hloop & Hc & Hall & Hlen & Hres).
      exists r, w', (FetchedGemini key (gemini E (geminiFetches w1) key) :: es).
      split; [exact Hloop |].
      split; [rewrite Hc, Hc2, <- app_assoc; reflexivity |].
      split; [constructor; [reflexivity | exact Hall] |].
      split; [simpl; lia | exact Hres].
    + exists r, w2, [FetchedGemini key (gemini E (geminiFetches w1) key)].
      split; [reflexivity |].
      split; [exact Hc2 |].
      split; [repeat constructor |].
      split; [simpl; lia | exact Hs].
Qed.

End ChatFacts.

(** X28.  A chatbot call never throws.  It makes at most
    [min(3, number of chatbot keys)] provider calls, none when no key is
    configured, and resolves either to a failure with a non-empty error
    message and no reply, or to a success that carries the reply together
    with what [parseCodeModifications] reads from it. *)
Theorem sendChatMessage_contained (keysRaw : string) (E : environment)
    (userMessage : string) (w : world) :
  exists r w' es,
    Chatbot.sendChatMessage keysRaw E userMessage w = (Return r, w')
    /\ calls w' = calls w ++ es
    /\ Forall (fun e => isGeminiFetch e = true) es
    /\ length es <= Nat.min 3 (Chatbot.getChatbotKeyCount keysRaw)
    /\ chatShape r.
Proof.
  assert (Hnot : chatShape Chatbot.notConfigured).
  { unfold chatShape. cbn. split; [reflexivity |]. eexists. split; [reflexivity | discriminate]. }
  unfold Chatbot.sendChatMessage, Chatbot.getChatbotKeyCount. unfold bind at 1.
  destruct (chat_getRandomKey_world keysRaw E w) as (k & w1 & Hk & Hc). rewrite Hk.
  assert (Hstop : exists r w' es,
            (Return Chatbot.notConfigured, w1) = (Return r, w')
            /\ calls w' = calls w ++ es
            /\ Forall (fun e => isGeminiFetch e = true) es
            /\ length es <= Nat.min 3 (length (Chatbot.CHATBOT_API_KEYS keysRaw))
            /\ chatShape r).
  { exists Chatbot.notConfigured, w1, []. rewrite app_nil_r.
    split; [reflexivity |]. split; [exact Hc |]. split; [constructor |].
    split; [simpl; lia | exact Hnot]. }
  destruct k as [key |]; [| exact Hstop].
  destruct (Js.truthy key); cbn [negb]; [| exact Hstop].
  destruct (chatLoop_spec keysRaw E key (Nat.min 3 (length (Chatbot.CHATBOT_API_KEYS keysRaw)))
              0 None w1) as (r & w' & es & Hrun & Hc' & Hall & Hlen & Hshape).
  exists r, w', es. rewrite Hc' , Hc. auto.
Qed.

Section FenceFree.

Import Regex.

Lemma noBacktick_drop (i : nat) (s : string) :
  noBacktick s = true -> noBacktick (Js.drop i s) = true.
Proof.
  revert s. induction i as [|i IH]; intros s H; [exact H |].
  destruct s as [|c s]; [reflexivity |].
  cbn [noBacktick] in H. apply andb_true_iff in H as [_ H]. exact (IH s H).
Qed.

(** A pattern that begins with a backtick matches nowhere in a text
    without one. *)
Lemma matchAt_fence_free (l : string) (r : regex) (input : string) (i : nat) :
  noBacktick input = true ->
  matchAt (Cat (lit (String "`" l)) r) input i = None.
Proof.
  intros H. unfold matchAt. rewrite run_Cat, run_lit_mismatch; [reflexivity |].
  cbn [rest]. pose proof (noBacktick_drop i input H) as Hd.
  destruct (Js.drop i input) as [|c t]; [exact I |].
  cbn [noBacktick] in Hd. apply andb_true_iff in Hd as [Hc _].
  apply negb_true_iff in Hc. rewrite Ascii.eqb_sym. exact Hc.
Qed.

Lemma exec_fence_free (l : string) (r : regex) (input : string) :
  noBacktick input = true ->
  exec (Cat (lit (String "`" l)) r) input 0 = None.
Proof.
  intros H. unfold exec. cbn [Nat.ltb Nat.leb].
  generalize (String.length input - 0). intros n. generalize 0 as i.
  induction n as [|n IH]; intros i;
    rewrite searchFrom_unfold, (matchAt_fence_free l r input i H); [reflexivity | apply IH].
Qed.

Lemma firstGroup_fence_free (l : string) (r : regex) (input : string) :
  noBacktick input = true ->
  Gemini.firstGroup (Cat (lit (String "`" l)) r) input = None.
Proof. intros H. unfold Gemini.firstGroup. rewrite (exec_fence_free l r input H). reflexivity. Qed.

End FenceFree.

(** X29.  [parseCodeModifications] reports changes exactly when it
    returns a page or a style sheet, and a reply without a backtick
    yields neither: no changes, and [null] for both files. *)
Theorem parseCodeModifications_changes (response : string) :
  (Chatbot.hasChanges (Chatbot.parseCodeModifications response) = true
   <-> Chatbot.html (Chatbot.parseCodeModifications response) <> None
       \/ Chatbot.css (Chatbot.parseCodeModifications response) <> None)
  /\ (noBacktick response = true ->
      Chatbot.parseCodeModifications response = Chatbot.Modifications false None None).
Proof.
  split.
  - unfold Chatbot.parseCodeModifications.
    destruct (Gemini.firstGroup Chatbot.htmlFileBlock response) as [g1 |];
      cbn [Chatbot.html Chatbot.css Chatbot.unset];
      repeat match goal with
             | |- context [if ?b then _ else _] => destruct b
             | |- context [match Gemini.firstGroup ?r ?s with _ => _ end] =>
                 destruct (Gemini.firstGroup r s)
             end;
      cbn [Chatbot.hasChanges Chatbot.html Chatbot.css];
      (split; [intros H; try discriminate; first [left; discriminate | right; discriminate]
              | intros [H | H]; first [reflexivity | contradiction]]).
  - intros H. unfold Chatbot.parseCodeModifications.
    unfold Chatbot.htmlFileBlock, Chatbot.htmlFenceBlock, Chatbot.cssFileBlock,
      Chatbot.cssFenceBlock.
    cbn [Regex.seq].
    rewrite !(firstGroup_fence_free _ _ response H). reflexivity.
Qed.

Lemma parseCodeModifications_changes_witness :
  Chatbot.parseCodeModifications "The page has a header and three cards."
  = Chatbot.Modifications false None None.
Proof.
  apply (parseCodeModifications_changes "The page has a header and three cards.").
  reflexivity.
Defined.

Section MarkedBlocks.

Import Regex.

(** A greedy star over a class stops where the class ends, and fails
    there when the continuation does. *)
Lemma starLoop_greedy_stop (p : ascii -> bool) (k : mstate -> option mstate)
    (fuel : nat) (st : mstate) :
  stopsAt p (rest st) = true ->
  starLoop true (run (Chr p)) k fuel st = k st.
Proof.
  intros Hstop. destruct fuel as [|fuel]; [reflexivity |].
  rewrite starLoop_S. cbv zeta. rewrite run_Chr.
  destruct (rest st) as [|c t]; [reflexivity |].
  cbn [stopsAt] in Hstop. apply negb_true_iff in Hstop. rewrite Hstop. reflexivity.
Qed.

(** A greedy star over a class gives back the last character of the run
    when the continuation fails after the run and succeeds before that
    character. *)
Lemma starLoop_greedy_gives_back (p : ascii -> bool) (k : mstate -> option mstate)
    (c : ascii) (t : string) (r : mstate) :
  forall w fuel st,
    S (String.length w) < fuel ->
    rest st = w +:+ String c t ->
    allChars p w = true ->
    p c = true ->
    stopsAt p t = true ->
    k (MState (S (pos st + String.length w)) t (caps st)) = None ->
    k (MState (pos st + String.length w) (String c t) (caps st)) = Some r ->
    starLoop true (run (Chr p)) k fuel st = Some r.
Proof.
  induction w as [|d w IH]; intros fuel st Hfuel Hrest Hall Hc Hstop Hafter Hbefore.
  - destruct fuel as [|fuel]; [simpl in Hfuel; lia |].
    rewrite append_nil_l in Hrest. rewrite starLoop_S. cbv zeta. rewrite run_Chr, Hrest, Hc.
    cbn [pos]. replace (S (pos st) <=? pos st) with false
      by (symmetry; apply Nat.leb_gt; lia).
    cbn [String.length] in Hafter, Hbefore. rewrite Nat.add_0_r in Hafter, Hbefore.
    rewrite starLoop_greedy_stop; [| exact Hstop]. rewrite Hafter. cbn [orelse].
    destruct st as [q rs cs]. cbn in *. subst rs. exact Hbefore.
  - destruct fuel as [|fuel]; [simpl in Hfuel; lia |].
    rewrite append_cons in Hrest. rewrite starLoop_S. cbv zeta. rewrite run_Chr, Hrest.
    cbn [allChars] in Hall. apply andb_true_iff in Hall as [Hd Hall]. rewrite Hd.
    cbn [pos]. replace (S (pos st) <=? pos st) with false
      by (symmetry; apply Nat.leb_gt; lia).
    rewrite (IH fuel (MState (S (pos st)) (w +:+ String c t) (caps st)));
      cbn [pos rest caps orelse].
    + reflexivity.
    + simpl in Hfuel. lia.
    + reflexivity.
    + exact Hall.
    + exact Hc.
    + exact Hstop.
    + cbn [String.length] in Hafter. rewrite Nat.add_succ_r in Hafter. exact Hafter.
    + cbn [String.length] in Hbefore. rewrite Nat.add_succ_r in Hbefore. exact Hbefore.
Qed.

(** What follows a marker in the chatbot's patterns:
    [\s*\n([\s\S]*?)```]. *)
Lemma markedTail_matches (w body post : string) (st : mstate) :
  rest st = w +:+ String Js.LF (body +:+ "```" +:+ post) ->
  allChars Js.isWhiteSpace w = true ->
  stopsAt Js.isWhiteSpace (body +:+ "```" +:+ post) = true ->
  noBacktick body = true ->
  run (Cat (Star true ws) (Cat (chr Js.LF) (Cat (Group 1 (Star false any)) (lit "```"))))
      Some st
  = Some (MState (S (pos st + String.length w) + String.length body + 3) post
            ((1, (S (pos st + String.length w),
                  S (pos st + String.length w) + String.length body)) :: caps st)).
Proof.
  intros Hrest Hw Hstop Hbody.
  rewrite run_Cat. unfold ws. rewrite run_Star.
  apply (starLoop_greedy_gives_back Js.isWhiteSpace _ Js.LF (body +:+ "```" +:+ post) _ w).
  - rewrite Hrest, append_length. cbn [String.length]. lia.
  - exact Hrest.
  - exact Hw.
  - reflexivity.
  - exact Hstop.
  - rewrite run_Cat. apply (stopsAt_not_LF (body +:+ "```" +:+ post)); [reflexivity | exact Hstop].
  - rewrite run_Cat. unfold chr at 1. rewrite run_Chr. cbn [rest pos caps].
    unfold Js.ascii_eqb. rewrite Ascii.eqb_refl.
    rewrite run_Cat, run_Group. unfold any at 1. rewrite run_Star. fold any. cbn [pos rest caps].
    apply (starLoop_lazy_any _ ("```" +:+ post) _ body).
    + rewrite append_length. lia.
    + reflexivity.
    + intros b1 c b2 Hb. cbn [pos rest caps].
      apply run_lit_mismatch. cbn [rest]. rewrite append_cons.
      rewrite Hb in Hbody. exact (noBacktick_split _ _ _ Hbody).
    + cbn [pos rest caps].
      rewrite (run_lit "```" post); [| reflexivity].
      cbn [pos caps String.length]. reflexivity.
Qed.

(** The search passes a text without backticks. *)
Lemma exec_passes (l : string) (r : regex) (s : string) :
  forall mid pre,
    noBacktick mid = true ->
    exec (Cat (lit (String "`" l)) r) ((pre +:+ mid) +:+ s) (String.length pre)
    = exec (Cat (lit (String "`" l)) r) ((pre +:+ mid) +:+ s) (String.length (pre +:+ mid)).
Proof.
  induction mid as [|c mid IH]; intros pre Hmid.
  - rewrite append_nil_r. reflexivity.
  - cbn [noBacktick] in Hmid. apply andb_true_iff in Hmid as [Hc Hmid].
    apply negb_true_iff in Hc.
    rewrite exec_skip.
    + rewrite <- (snoc_app pre c mid), <- (length_snoc pre c). exact (IH _ Hmid).
    + rewrite !append_length. cbn [String.length]. lia.
    + unfold matchAt. rewrite append_assoc, drop_app.
      rewrite run_Cat, run_lit_mismatch; [reflexivity |].
      cbn [rest]. rewrite append_cons. rewrite Ascii.eqb_sym. exact Hc.
Qed.

Lemma slice_group (pre mid post : string) :
  Js.slice (String.length pre) (String.length pre + String.length mid)
    (pre +:+ mid +:+ post) = mid.
Proof.
  unfold Js.slice. rewrite drop_app.
  replace (String.length pre + String.length mid - String.length pre)
    with (String.length mid) by lia.
  apply take_app.
Qed.

(** A block with the marker for the page, after text without backticks:
    the first group is the body of the block. *)
Lemma htmlFileBlock_group (pre w body post : string) :
  noBacktick pre = true ->
  allChars Js.isWhiteSpace w = true ->
  stopsAt Js.isWhiteSpace (body +:+ "```" +:+ post) = true ->
  noBacktick body = true ->
  body <> "" ->
  Gemini.firstGroup Chatbot.htmlFileBlock
    (pre +:+ "```html:index.html" +:+ w +:+ String Js.LF (body +:+ "```" +:+ post))
  = Some body.
Proof.
  intros Hpre Hw Hstop Hbody Hne.
  set (tail := w +:+ String Js.LF (body +:+ "```" +:+ post)).
  set (input := pre +:+ "```html:index.html" +:+ tail).
  unfold Gemini.firstGroup, Chatbot.htmlFileBlock. cbn [seq].
  pose proof (exec_passes "``html:index.html"
                (Cat (Star true ws) (Cat (chr Js.LF) (Cat (Group 1 (Star false any)) (lit "```"))))
                ("```html:index.html" +:+ tail) pre "" Hpre) as Hpass.
  cbn [String.length append] in Hpass.
  change ("" +:+ pre) with pre in Hpass. fold input in Hpass.
  change (lit "```html:index.html") with (lit (String "`" "``html:index.html")).
  rewrite Hpass. clear Hpass.
  set (a := S (String.length pre + 18 + String.length w)).
  rewrite (exec_here _ input (String.length pre)
             (Result (String.length pre) (a + String.length body + 3)
                [(1, (a, a + String.length body))])).
  - unfold group. cbn [captures List.find fst Nat.eqb snd].
    assert (Hin : input = (pre +:+ "```html:index.html" +:+ w +:+ String Js.LF "")
                            +:+ body +:+ "```" +:+ post).
    { subst input tail. rewrite !append_assoc. reflexivity. }
    assert (Ha : a = String.length (pre +:+ "```html:index.html" +:+ w +:+ String Js.LF "")).
    { subst a. rewrite !append_length. cbn [String.length]. lia. }
    rewrite Hin, Ha, slice_group.
    destruct body; [contradiction | reflexivity].
  - subst input. rewrite append_length. lia.
  - subst input. rewrite matchAt_run, run_Cat.
    rewrite (run_lit "```html:index.html" tail); [| reflexivity].
    cbn [pos caps String.length].
    rewrite (markedTail_matches w body post); [| reflexivity | exact Hw | exact Hstop | exact Hbody].
    cbn [pos caps]. subst a. reflexivity.
Qed.

End MarkedBlocks.

Lemma trim_truthy (body : string) :
  body <> "" -> stopsAt Js.isWhiteSpace body = true -> Js.truthy (Js.trim body) = true.
Proof.
  intros Hne Hstop. unfold Js.trim. rewrite (trimStart_fixed body Hstop).
  destruct body as [|c b]; [contradiction |].
  cbn [stopsAt] in Hstop. apply negb_true_iff in Hstop.
  cbn [Js.trimEnd]. destruct (Js.trimEnd b); [rewrite Hstop |]; reflexivity.
Qed.

(** X30.  A reply that holds, after text without backticks, a block with
    the marker [html:index.html], a line break and a body that is not
    empty, begins with something else than white space and has no
    backtick, is read as a changed page: the trimmed body, whatever
    follows the block. *)
Theorem parseCodeModifications_reads_marked_page (pre w body post : string) :
  noBacktick pre = true ->
  allChars Js.isWhiteSpace w = true ->
  body <> "" ->
  stopsAt Js.isWhiteSpace body = true ->
  noBacktick body = true ->
  Chatbot.html
    (Chatbot.parseCodeModifications
       (pre +:+ "```html:index.html" +:+ w +:+ String Js.LF (body +:+ "```" +:+ post)))
  = Some (Js.trim body)
  /\ Chatbot.hasChanges
       (Chatbot.parseCodeModifications
          (pre +:+ "```html:index.html" +:+ w +:+ String Js.LF (body +:+ "```" +:+ post)))
     = true.
Proof.
  intros Hpre Hw Hne Hstop Hbody.
  assert (Hstop' : stopsAt Js.isWhiteSpace (body +:+ "```" +:+ post) = true).
  { destruct body; [contradiction | exact Hstop]. }
  unfold Chatbot.parseCodeModifications.
  rewrite (htmlFileBlock_group pre w body post Hpre Hw Hstop' Hbody Hne).
  cbn [Chatbot.html Chatbot.css Chatbot.unset].
  rewrite (trim_truthy body Hne Hstop). cbn [negb].
  repeat match goal with
         | |- context [if ?b then _ else _] => destruct b
         | |- context [match Gemini.firstGroup ?r ?s with _ => _ end] =>
             destruct (Gemini.firstGroup r s)
         end;
    split; reflexivity.
Qed.

Lemma parseCodeModifications_reads_marked_page_witness :
  Chatbot.html
    (Chatbot.parseCodeModifications
       ("Here is the page." +:+ "```html:index.html" +:+ " "
        +:+ String Js.LF ("<!DOCTYPE html><p>Hi</p> " +:+ "```" +:+ " Done.")))
  = Some (Js.trim "<!DOCTYPE html><p>Hi</p> ")
  /\ Chatbot.hasChanges
       (Chatbot.parseCodeModifications
          ("Here is the page." +:+ "```html:index.html" +:+ " "
           +:+ String Js.LF ("<!DOCTYPE html><p>Hi</p> " +:+ "```" +:+ " Done.")))
     = true.
Proof.
  apply (parseCodeModifications_reads_marked_page
           "Here is the page." " " "<!DOCTYPE html><p>Hi</p> " " Done.");
    [reflexivity | reflexivity | discriminate | reflexivity | reflexivity].
Defined.

(* ===================================================================== *)
(** ** The output parser on fenced responses *)
(* ===================================================================== *)

Section FencedResponses.

Import Regex.










End FencedResponses.

(** A stray fence re-pairs the fences: the text holds a block tagged
    html and a block tagged css, but the scanner reads what lies between
    the stray fence and the next fence as a block, finds no tagged block
    at all, and the parser returns an empty page and an empty style
    sheet. *)
Example parseGeneratedCode_stray_fence_example :
  Gemini.findCodeBlocks Sample.strayFence
  = [Gemini.CodeBlock "" ("to open a block." +:+ Js.nl); Gemini.CodeBlock "" ""]
  /\ Gemini.parseGeneratedCode Sample.strayFence = ("", "").
Proof. vm_compute. split; reflexivity. Qed.


